(** * ecu.sbl.aace.datalake.common: value normalizer and integrity-checked join

    A shallow embedding of the decision logic of
    [src/ecu/sbl/aace/datalake/common.py]:

    - [are_strings_similar] and [fixDodgyThing] (the value normalizer),
      together with the part of Python's [difflib.SequenceMatcher] and
      [str.title] they call;
    - [insertValueIntoList], [replaceValueInList], [insertColumnAndAlias]
      (column-list splicing);
    - [getJoinCondition] and [simpleMap] (the integrity-checked join), over
      an abstract tabular engine ([Engine]) with a list-based reference
      instance used to run the code on concrete frames, a three-valued
      evaluator for column expressions and a parser for the SQL text that
      [getJoinCondition] writes;
    - the name and text helpers [cleanString], [escapeName],
      [firstCharIsNumeric], [getTempTableName], [getSQL],
      [extract_actual_error], [garbageCLO], [custom_initcap] and
      [fixUpName], with the string built-ins they call;
    - the column order of [addIndexCol], [aliasColumns], and the table
      readers [tablePath], [selectTable], [readTable] and
      [getColsFromTable] over an abstract Spark session ([Session]).

    Conventions.  Python [str] is modelled by [string] restricted to ASCII
    (bytes above 127 carry no case).  Python [int] is [Z]; row counts are
    [nat].  A Python float threshold is modelled by a rational [Q]; the
    ratio [2.0 * matches / length] is the exact rational, which orders
    against 0.6 the way the correctly rounded double does for every string
    that fits in memory.  [print] is modelled by a log of output events. *)

From Stdlib Require Import List String Ascii Bool Arith ZArith QArith Lia.
From Stdlib Require Import DecimalString.
Import ListNotations.
Local Open Scope string_scope.
Local Open Scope nat_scope.

(* ===================================================================== *)
(** ** Python values and built-ins used by the source *)
(* ===================================================================== *)

Module Py.

(** The dynamically typed values [fixDodgyThing] is given for [value]: null,
    a string, an integer or a boolean (other objects are left out). *)
Inductive pyval : Type :=
| PNone
| PStr (s : string)
| PInt (z : Z)
| PBool (b : bool).

(** Python truth value ([if not value]). *)
Definition truthy (v : pyval) : bool :=
  match v with
  | PNone => false
  | PStr s => negb (String.eqb s "")
  | PInt z => negb (z =? 0)%Z
  | PBool b => b
  end.

Definition isinstance_str (v : pyval) : bool :=
  match v with PStr _ => true | _ => false end.

(** [str(value)]. *)
Definition str (v : pyval) : string :=
  match v with
  | PNone => "None"
  | PStr s => s
  | PInt z => NilZero.string_of_int (Z.to_int z)
  | PBool true => "True"
  | PBool false => "False"
  end.

(** [str(n)] for a row count. *)
Definition str_nat (n : nat) : string := NilZero.string_of_uint (Nat.to_uint n).

(** [x in xs] on a list of strings. *)
Definition contains (xs : list string) (x : string) : bool :=
  existsb (String.eqb x) xs.

(** [c in s] for a one-character needle. *)
Fixpoint has_char (c : ascii) (s : string) : bool :=
  match s with
  | EmptyString => false
  | String x r => Ascii.eqb x c || has_char c r
  end.

(** [s * n]. *)
Fixpoint repeat_str (s : string) (n : nat) : string :=
  match n with
  | O => ""
  | S n' => s ++ repeat_str s n'
  end.

Definition is_lower (c : ascii) : bool :=
  let n := nat_of_ascii c in (97 <=? n) && (n <=? 122).

Definition is_upper (c : ascii) : bool :=
  let n := nat_of_ascii c in (65 <=? n) && (n <=? 90).

Definition is_cased (c : ascii) : bool := is_lower c || is_upper c.

Definition to_upper (c : ascii) : ascii :=
  if is_lower c then ascii_of_nat (nat_of_ascii c - 32) else c.

Definition to_lower (c : ascii) : ascii :=
  if is_upper c then ascii_of_nat (nat_of_ascii c + 32) else c.

(** [str.title] for ASCII text: a cased character is upper-cased when the
    character before it is not cased, lower-cased otherwise; other
    characters are kept. *)
Fixpoint title_from (previous_is_cased : bool) (s : string) : string :=
  match s with
  | EmptyString => EmptyString
  | String c rest =>
      String (if previous_is_cased then to_lower c else to_upper c)
             (title_from (is_cased c) rest)
  end.

Definition title (s : string) : string := title_from false s.

End Py.

(* ===================================================================== *)
(** ** difflib.SequenceMatcher(None, a, b).ratio() *)
(* ===================================================================== *)

Module Difflib.

Definition Match : Type := (nat * nat * nat)%type.
Definition dict : Type := list (nat * nat).

(** [d.get(j, 0)] on the most recent binding of [j]. *)
Definition dict_get (d : dict) (j : nat) : nat :=
  match find (fun p => fst p =? j) d with
  | Some p => snd p
  | None => 0
  end.

Fixpoint indices_of (c : ascii) (l : list ascii) (j : nat) : list nat :=
  match l with
  | [] => []
  | x :: r =>
      if Ascii.eqb x c then j :: indices_of c r (S j) else indices_of c r (S j)
  end.

Section Matcher.

Variables a b : list ascii.

Definition char_at (l : list ascii) (i : nat) : ascii := nth i l "000"%char.

(** [__chain_b]: the positions of each character in [b], increasing.  No
    junk predicate is given, so only the autojunk rule removes entries:
    when [len(b) >= 200], a character with more than [len(b)//100 + 1]
    occurrences is dropped. *)
Definition b2j (c : ascii) : list nat :=
  let idxs := indices_of c b 0 in
  let n := List.length b in
  if (200 <=? n) && (n / 100 + 1 <? List.length idxs) then [] else idxs.

(** Inner loop of [find_longest_match]: [for j in b2j.get(a[i], nothing)].
    [i + 1 - k] and [j + 1 - k] are Python's [i-k+1] and [j-k+1]: [k] never
    exceeds [i + 1 - alo] or [j + 1 - blo] ([flm_row_bounds] below), so the
    subtraction on [nat] does not truncate. *)
Fixpoint flm_row (i blo bhi : nat) (j2len : dict) (js : list nat)
         (newj2len : dict) (best : Match) : dict * Match :=
  match js with
  | [] => (newj2len, best)
  | j :: rest =>
      if j <? blo then flm_row i blo bhi j2len rest newj2len best
      else if bhi <=? j then (newj2len, best)
      else
        let k := (match j with O => 0 | S j' => dict_get j2len j' end) + 1 in
        let '(_, _, bestsize) := best in
        flm_row i blo bhi j2len rest ((j, k) :: newj2len)
                (if bestsize <? k then (i + 1 - k, j + 1 - k, k) else best)
  end.

(** Outer loop: [for i in range(alo, ahi)], [n] rows left, next row [i]. *)
Fixpoint flm_rows (n i blo bhi : nat) (j2len : dict) (best : Match) : Match :=
  match n with
  | O => best
  | S n' =>
      let '(newj2len, best') :=
        flm_row i blo bhi j2len (b2j (char_at a i)) [] best in
      flm_rows n' (S i) blo bhi newj2len best'
  end.

(** [while besti > alo and bestj > blo and a[besti-1] == b[bestj-1]];
    [n] is [besti - alo]. *)
Fixpoint extend_left (n blo : nat) (m : Match) : Match :=
  let '(besti, bestj, bestsize) := m in
  match n with
  | O => m
  | S n' =>
      if (blo <? bestj)
         && Ascii.eqb (char_at a (besti - 1)) (char_at b (bestj - 1))
      then extend_left n' blo (besti - 1, bestj - 1, bestsize + 1)
      else m
  end.

(** [while besti+bestsize < ahi and bestj+bestsize < bhi and
    a[besti+bestsize] == b[bestj+bestsize]]; [n] is
    [ahi - (besti+bestsize)]. *)
Fixpoint extend_right (n bhi : nat) (m : Match) : Match :=
  let '(besti, bestj, bestsize) := m in
  match n with
  | O => m
  | S n' =>
      if (bestj + bestsize <? bhi)
         && Ascii.eqb (char_at a (besti + bestsize)) (char_at b (bestj + bestsize))
      then extend_right n' bhi (besti, bestj, bestsize + 1)
      else m
  end.

(** [find_longest_match(alo, ahi, blo, bhi)].  The two loops that extend
    over junk never run: the junk set is empty. *)
Definition find_longest_match (alo ahi blo bhi : nat) : Match :=
  let '(besti, bestj, bestsize) :=
    flm_rows (ahi - alo) alo blo bhi [] (alo, blo, 0) in
  let '(besti, bestj, bestsize) :=
    extend_left (besti - alo) blo (besti, bestj, bestsize) in
  extend_right (ahi - (besti + bestsize)) bhi (besti, bestj, bestsize).

Definition range : Type := (nat * nat * nat * nat)%type.

(** The work-list loop of [get_matching_blocks].  The Python list [queue]
    is used as a stack ([append] / [pop]); its top is the head here.  The
    result is the block list in the order found, with what is left of the
    queue when [fuel] iterations have run. *)
Fixpoint matching_loop (fuel : nat) (queue : list range)
         (matching_blocks : list Match) : list Match * list range :=
  match fuel with
  | O => (matching_blocks, queue)
  | S fuel' =>
      match queue with
      | [] => (matching_blocks, [])
      | (alo, ahi, blo, bhi) :: queue =>
          let '(i, j, k) := find_longest_match alo ahi blo bhi in
          if k =? 0 then matching_loop fuel' queue matching_blocks
          else
            let queue :=
              if (alo <? i) && (blo <? j) then (alo, i, blo, j) :: queue
              else queue in
            let queue :=
              if (i + k <? ahi) && (j + k <? bhi)
              then (i + k, ahi, j + k, bhi) :: queue
              else queue in
            matching_loop fuel' queue (matching_blocks ++ [(i, j, k)])
      end
  end.

(** Every iteration that finds a block removes at least one position of
    [a] from the ranges still queued, so [2 * len(a) + 1] iterations
    empty the queue ([matching_loop_done] below). *)
Definition get_matching_blocks : list Match :=
  fst (matching_loop (2 * List.length a + 1) [(0, List.length a, 0, List.length b)] []).

(** [sum(triple[-1] for triple in self.get_matching_blocks())]; sorting
    the blocks, merging adjacent ones and the closing [(la, lb, 0)] entry
    leave this sum as it is. *)
Definition matches : nat :=
  fold_right (fun (m : Match) acc => snd m + acc) 0 get_matching_blocks.

(** [_calculate_ratio(matches, len(a) + len(b))]. *)
Definition calculate_ratio (matches length : nat) : Q :=
  if length =? 0 then 1%Q
  else Qmake (2 * Z.of_nat matches) (Pos.of_nat length).

Definition ratio : Q := calculate_ratio matches (List.length a + List.length b).

End Matcher.

End Difflib.

(** Predicates used to state what the matcher's loops maintain. *)
Module DifflibInv.

Import Difflib.

(** A block lies inside the window [alo, ahi) x [blo, bhi). *)
Definition in_window (alo ahi blo bhi : nat) (m : Match) : Prop :=
  let '(i, j, k) := m in
  alo <= i /\ i + k <= ahi /\ blo <= j /\ j + k <= bhi.

(** The dictionary handed to row [i]: a run recorded at column [j] fits
    between the window's start and the row before, and between [blo] and
    [j]. *)
Definition row_bounded (alo blo i : nat) (d : dict) : Prop :=
  Forall (fun p => snd p <= i - alo /\ snd p <= fst p + 1 - blo) d.

(** A queued range is well formed. *)
Definition range_ok (r : range) : Prop :=
  let '(alo, ahi, blo, bhi) := r in alo <= ahi /\ blo <= bhi.

(** Iterations a queue can still take: two per position of [a] it covers,
    plus one for each range. *)
Definition queue_measure (queue : list range) : nat :=
  fold_right (fun (r : range) acc =>
                let '(alo, ahi, _, _) := r in 2 * (ahi - alo) + 1 + acc) 0 queue.

(** Positions of [a], and of [b], covered by the queue. *)
Definition queue_width_a (queue : list range) : nat :=
  fold_right (fun (r : range) acc => let '(alo, ahi, _, _) := r in ahi - alo + acc) 0 queue.

Definition queue_width_b (queue : list range) : nat :=
  fold_right (fun (r : range) acc => let '(_, _, blo, bhi) := r in bhi - blo + acc) 0 queue.

(** Total size of a list of blocks. *)
Definition total (blocks : list Match) : nat :=
  fold_right (fun (m : Match) acc => snd m + acc) 0 blocks.

(** The autojunk test of [__chain_b]. *)
Definition popular (b : list ascii) (c : ascii) : bool :=
  (200 <=? List.length b) && (List.length b / 100 + 1 <? List.length (indices_of c b 0)).

(** Matching a sequence against itself: the number of positions just before
    [i] that form an unbroken stretch of characters kept in [b2j]. *)
Fixpoint run_before (a : list ascii) (i : nat) : nat :=
  match i with
  | O => 0
  | S i' => if popular a (char_at a i') then 0 else run_before a i' + 1
  end.

(** The length [k] computed for column [j] from the previous row. *)
Definition k_of (j2len : dict) (j : nat) : nat :=
  (match j with O => 0 | S j' => dict_get j2len j' end) + 1.

(** The entries a row adds for the columns [js], most recent first. *)
Definition entries (j2len : dict) (js : list nat) : dict :=
  rev (map (fun j => (j, k_of j2len j)) js).

(** What holds before row [i] when a sequence is matched against itself:
    the dictionary of the row before is bounded by the stretches, exact on
    the diagonal, and the best block so far lies on the diagonal and is at
    least as long as every stretch seen. *)
Definition diag_inv (a : list ascii) (i : nat) (j2len : dict) (best : Match) : Prop :=
  (forall j, j < i -> dict_get j2len j <= run_before a (S j))
  /\ (0 < i -> dict_get j2len (i - 1) = run_before a i)
  /\ (forall j, dict_get j2len j <= run_before a i)
  /\ fst (fst best) = snd (fst best)
  /\ (forall j, j <= i -> run_before a j <= snd best).

End DifflibInv.

(* ===================================================================== *)
(** ** Text / list manipulation *)
(* ===================================================================== *)

(** Default [threshold=0.6]. *)
Definition default_threshold : Q := (6 # 10)%Q.

(** [are_strings_similar(str1, str2, threshold)]. *)
Definition are_strings_similar (str1 str2 : string) (threshold : Q) : bool :=
  let similarity :=
    Difflib.ratio (list_ascii_of_string str1) (list_ascii_of_string str2) in
  Qle_bool threshold similarity.

(** The [for l in legit_values: ... break] loop of [fixDodgyThing]. *)
Fixpoint fixDodgyThing_scan (value : string) (legit_values : list string) : string :=
  match legit_values with
  | [] => value
  | l :: rest =>
      if are_strings_similar value l default_threshold then l
      else fixDodgyThing_scan value rest
  end.

(** The [legit_values] argument: [None], one string, or a list. *)
Inductive legit : Type :=
| LegitNone
| LegitStr (s : string)
| LegitList (l : list string).

(** [fixDodgyThing], the first two lines: a single string stands for a
    one-element list. *)
Definition legit_list (legit_values : legit) : option (list string) :=
  match legit_values with
  | LegitStr s => Some [s]
  | LegitList l => Some l
  | LegitNone => None
  end.

(** The vocabulary as a list; an absent one has no entries. *)
Definition vocabulary (legit_values : legit) : list string :=
  match legit_list legit_values with
  | Some l => l
  | None => []
  end.

(** [fixDodgyThing], the next five lines: the value that enters the
    matching. *)
Definition fixDodgyThing_value (value : Py.pyval) : string :=
  let value : string :=
    if negb (Py.truthy value) then "None Supplied"
    else match value with
         | Py.PStr s => s
         | v => Py.str v
         end in
  Py.title value.

(** [fixDodgyThing(value, legit_values)]. *)
Definition fixDodgyThing (value : Py.pyval) (legit_values : legit) : string :=
  let legit_values := legit_list legit_values in
  let value := fixDodgyThing_value value in
  match legit_values with
  | Some legit_values =>
      if negb (Nat.eqb (List.length legit_values) 0)
         && negb (Py.contains legit_values value)
      then fixDodgyThing_scan value legit_values
      else value
  | None => value
  end.

Definition fixDodgyStatuses (status : Py.pyval) : string :=
  fixDodgyThing status (LegitList ["Completed"; "Discontinued"; "Enrolled"]).

Definition fixDodgyAssessLevel (assessLevel : Py.pyval) : string :=
  fixDodgyThing assessLevel (LegitList ["Consolidated"; "Demonstrated"]).

(** [replaceValueInList(theList, oldVal, newVal)]. *)
Definition replaceValueInList (theList : list string) (oldVal newVal : string)
  : list string :=
  map (fun item => if String.eqb item oldVal then newVal else item) theList.

(** The [for item in theList] loop of [insertValueIntoList], appending to
    [result]. *)
Fixpoint insertValueIntoList_loop (theList : list string) (oldVal newVal : string)
         (result : list string) : list string :=
  match theList with
  | [] => result
  | item :: rest =>
      insertValueIntoList_loop rest oldVal newVal
        (if String.eqb item oldVal then result ++ [newVal] else result ++ [item])
  end.

(** [insertValueIntoList(theList, oldVal, newVal)]: the list returned. *)
Definition insertValueIntoList (theList : list string) (oldVal newVal : string)
  : list string :=
  if negb (Py.contains theList oldVal) then theList ++ [newVal]
  else if Py.contains theList newVal then theList
  else insertValueIntoList_loop theList oldVal newVal [] ++ [oldVal].

(** The caller's list object after the call: the first branch appends to
    the argument itself ([result = theList; result.append(newVal)]), the
    other two leave it alone. *)
Definition insertValueIntoList_argument_after
           (theList : list string) (oldVal newVal : string) : list string :=
  if negb (Py.contains theList oldVal) then theList ++ [newVal] else theList.

(* ===================================================================== *)
(** ** Output, exceptions *)
(* ===================================================================== *)

(** What [print] wrote: a string, or a list of strings (shown by its
    [repr]). *)
Inductive output : Type :=
| PrintStr (s : string)
| PrintList (l : list string).

Inductive exn_class : Type :=
| Exception
| ValueError
| IndexError
| AnalysisException
| IllegalArgumentException.

(** A raised exception: its class and its [args]. *)
Record exn : Type := Raised { exn_type : exn_class; exn_args : list string }.

(** A computation that prints and then returns or raises. *)
Definition M (A : Type) : Type := (list output * (exn + A))%type.

Definition ret {A} (x : A) : M A := ([], inr x).
Definition raise {A} (e : exn) : M A := ([], inl e).
Definition print (o : output) : M unit := ([o], inr tt).
Definition lift {A} (r : exn + A) : M A := ([], r).

Definition bind {A B} (c : M A) (k : A -> M B) : M B :=
  match c with
  | (out, inl e) => (out, inl e)
  | (out, inr x) => let '(out', r) := k x in ((out ++ out')%list, r)
  end.

Notation "x <- c ;; k" := (bind c (fun x => k))
  (at level 61, c at next level, right associativity).
Notation "c ;;; k" := (bind c (fun _ => k))
  (at level 61, right associativity).

(* ===================================================================== *)
(** ** The tabular engine *)
(* ===================================================================== *)

(** Column expressions built with [F.col], [==], [|], [&], [.isNull()], or
    parsed by [F.expr] from the same operators in SQL text. *)
Inductive Column : Type :=
| Col (name : string)
| EqualTo (l r : Column)
| Or (l r : Column)
| And (l r : Column)
| IsNull (c : Column).

(** The DataFrame operations the join wrapper calls.  [select] and [join]
    are analysed when called and may raise.  Aliasing a frame does not
    change its column names. *)
Class Engine : Type := {
  DataFrame : Type;
  columns : DataFrame -> list string;
  count : DataFrame -> nat;
  alias : string -> DataFrame -> DataFrame;
  hint : string -> DataFrame -> DataFrame;
  select : list string -> DataFrame -> exn + DataFrame;
  join : DataFrame -> DataFrame -> Column -> string -> exn + DataFrame;
  columns_alias : forall q df, columns (alias q df) = columns df
}.

(* ===================================================================== *)
(** ** Join wrappers *)
(* ===================================================================== *)

(** [F.expr] on the fragment of SQL that [getJoinCondition] writes: names
    (qualified with dots), [=], [IS NULL], [AND], [OR] and parentheses,
    keywords in any case. *)
Module SqlText.

Inductive token : Type :=
| TLParen | TRParen | TEq | TOr | TAnd | TIs | TNull
| TName (s : string).

Definition is_space (c : ascii) : bool :=
  let n := nat_of_ascii c in
  (n =? 32) || (n =? 9) || (n =? 10) || (n =? 13).

Definition is_digit (c : ascii) : bool :=
  let n := nat_of_ascii c in (48 <=? n) && (n <=? 57).

(** Characters of an unquoted identifier. *)
Definition is_ident_char (c : ascii) : bool :=
  Py.is_lower c || Py.is_upper c || is_digit c || Ascii.eqb c "_"%char.

(** Characters of a possibly qualified name. *)
Definition is_name_char (c : ascii) : bool :=
  is_ident_char c || Ascii.eqb c "."%char.

Fixpoint upper (s : string) : string :=
  match s with
  | EmptyString => EmptyString
  | String c r => String (Py.to_upper c) (upper r)
  end.

Definition word_token (w : string) : token :=
  let u := upper w in
  if String.eqb u "OR" then TOr
  else if String.eqb u "AND" then TAnd
  else if String.eqb u "IS" then TIs
  else if String.eqb u "NULL" then TNull
  else TName w.

(** Close the word being read, if any; tokens are kept most recent first. *)
Definition flush (w : string) (acc : list token) : list token :=
  if String.eqb w "" then acc else word_token w :: acc.

Fixpoint lex (s : string) (w : string) (acc : list token) : option (list token) :=
  match s with
  | EmptyString => Some (rev (flush w acc))
  | String c rest =>
      if is_name_char c then lex rest (w ++ String c "") acc
      else if is_space c then lex rest "" (flush w acc)
      else if Ascii.eqb c "("%char then lex rest "" (TLParen :: flush w acc)
      else if Ascii.eqb c ")"%char then lex rest "" (TRParen :: flush w acc)
      else if Ascii.eqb c "="%char then lex rest "" (TEq :: flush w acc)
      else None
  end.

(** Recursive descent: [OR] binds loosest, then [AND], then the comparison
    and [IS NULL]; both connectives associate to the left. *)
Fixpoint parse_or (fuel : nat) (ts : list token) : option (Column * list token) :=
  match fuel with
  | O => None
  | S fuel =>
      match parse_and fuel ts with
      | Some (l, ts) => parse_or_rest fuel l ts
      | None => None
      end
  end
with parse_or_rest (fuel : nat) (l : Column) (ts : list token)
     : option (Column * list token) :=
  match fuel with
  | O => None
  | S fuel =>
      match ts with
      | TOr :: ts =>
          match parse_and fuel ts with
          | Some (r, ts) => parse_or_rest fuel (Or l r) ts
          | None => None
          end
      | _ => Some (l, ts)
      end
  end
with parse_and (fuel : nat) (ts : list token) : option (Column * list token) :=
  match fuel with
  | O => None
  | S fuel =>
      match parse_pred fuel ts with
      | Some (l, ts) => parse_and_rest fuel l ts
      | None => None
      end
  end
with parse_and_rest (fuel : nat) (l : Column) (ts : list token)
     : option (Column * list token) :=
  match fuel with
  | O => None
  | S fuel =>
      match ts with
      | TAnd :: ts =>
          match parse_pred fuel ts with
          | Some (r, ts) => parse_and_rest fuel (And l r) ts
          | None => None
          end
      | _ => Some (l, ts)
      end
  end
with parse_pred (fuel : nat) (ts : list token) : option (Column * list token) :=
  match fuel with
  | O => None
  | S fuel =>
      match parse_atom fuel ts with
      | Some (l, TEq :: ts) =>
          match parse_atom fuel ts with
          | Some (r, ts) => Some (EqualTo l r, ts)
          | None => None
          end
      | Some (l, TIs :: TNull :: ts) => Some (IsNull l, ts)
      | Some (l, TIs :: _) => None
      | other => other
      end
  end
with parse_atom (fuel : nat) (ts : list token) : option (Column * list token) :=
  match fuel with
  | O => None
  | S fuel =>
      match ts with
      | TName s :: ts => Some (Col s, ts)
      | TLParen :: ts =>
          match parse_or fuel ts with
          | Some (e, TRParen :: ts) => Some (e, ts)
          | _ => None
          end
      | _ => None
      end
  end.

(** The identifiers of a name, separated by dots, are not empty. *)
Fixpoint parts_not_empty (at_start : bool) (s : string) : bool :=
  match s with
  | EmptyString => negb at_start
  | String c r =>
      if Ascii.eqb c "."%char then negb at_start && parts_not_empty true r
      else parts_not_empty false r
  end.

Definition token_ok (t : token) : bool :=
  match t with
  | TName s => parts_not_empty true s
  | _ => true
  end.

(** [F.expr(text)]: the whole text must be one expression.  [None] when the
    text is not an expression of this fragment: the engine then raises a
    parse error (two names in a row, a name with an empty identifier), or
    reads operators that are not modelled here (a dash is a subtraction). *)
Definition F_expr (text : string) : option Column :=
  match lex text "" [] with
  | None => None
  | Some ts =>
      if forallb token_ok ts then
        match parse_or (6 * List.length ts + 6) ts with
        | Some (e, []) => Some e
        | _ => None
        end
      else None
  end.

Fixpoint ident_chars (s : string) : bool :=
  match s with
  | EmptyString => true
  | String c r => is_ident_char c && ident_chars r
  end.

(** A column name that can be written in SQL text without quoting: a letter
    or an underscore, then letters, digits and underscores. *)
Definition plain_name (s : string) : bool :=
  match s with
  | EmptyString => false
  | String c r =>
      (Py.is_lower c || Py.is_upper c || Ascii.eqb c "_"%char) && ident_chars r
  end.

End SqlText.

Definition newline : string := String (ascii_of_nat 10) "".

(** The f-string of [getJoinCondition]. *)
Definition getJoinCondition_sql (factCol mapCol : string) : string :=
  newline ++ "    (fact." ++ factCol ++ " = map." ++ mapCol ++ newline
  ++ "     OR (fact." ++ factCol ++ " IS NULL AND map." ++ mapCol ++ " IS NULL)"
  ++ newline ++ "    )".

(** [getJoinCondition(factCol, mapCol)]; [None] when the text is not a
    condition of the fragment that [SqlText.F_expr] reads. *)
Definition getJoinCondition (factCol : string) (mapCol : option string)
  : option Column :=
  let mapCol :=
    match mapCol with
    | None => factCol
    | Some m => if String.eqb m "" then factCol else m
    end in
  SqlText.F_expr (getJoinCondition_sql factCol mapCol).

(** The expression the text of [getJoinCondition] spells
    ([getJoinCondition_parses] below). *)
Definition sql_join_condition (factCol mapCol : string) : Column :=
  Or (EqualTo (Col ("fact." ++ factCol)) (Col ("map." ++ mapCol)))
     (And (IsNull (Col ("fact." ++ factCol))) (IsNull (Col ("map." ++ mapCol)))).

(** [aliasColumns(selectCols, indexCol)]. *)
Definition aliasColumns (selectCols : list string) (indexCol : string) : list string :=
  map (fun c => if String.eqb c indexCol then "map." ++ c else "fact." ++ c) selectCols.

(** The element of the first comprehension of [insertColumnAndAlias]. *)
Definition alias_column (valColumn indexColumn c : string) : string :=
  if String.eqb c valColumn then "fact." ++ c
  else if String.eqb c indexColumn then "map." ++ c
  else c.

(** The element of its second comprehension. *)
Definition alias_more (mapColumns : list string) (c : string) : string :=
  if negb (Py.has_char "."%char c) && Py.contains mapColumns c
  then "fact." ++ c
  else c.

(** [insertColumnAndAlias(columns, valColumn, indexColumn, mapColumns)]. *)
Definition insertColumnAndAlias (columns : list string) (valColumn indexColumn : string)
           (mapColumns : option (list string)) : M (list string) :=
  let cols := insertValueIntoList columns valColumn indexColumn in
  let aliased := map (alias_column valColumn indexColumn) cols in
  if match mapColumns with Some (_ :: _) => true | _ => false end then
    let mapColumns := match mapColumns with Some l => l | None => [] end in
    let aliasedMore := map (alias_more mapColumns) aliased in
    if negb (if list_eq_dec string_dec aliasedMore aliased then true else false)
    then print (PrintList aliasedMore) ;;; ret aliasedMore
    else ret aliased
  else ret aliased.

(** The condition built inline in [simpleMap]. *)
Definition simpleMap_join_condition (joinCol : string) : Column :=
  Or (EqualTo (Col ("map." ++ joinCol)) (Col ("fact." ++ joinCol)))
     (And (IsNull (Col ("map." ++ joinCol))) (IsNull (Col ("fact." ++ joinCol)))).

Definition stars : string := Py.repeat_str "*" 80.

(** The list [insertColumnAndAlias] returns when [joinCol] is a left column
    and [indexCol] is not ([insertColumnAndAlias_select_list] below). *)
Definition select_list (factCols : list string) (joinCol indexCol : string)
           (mapCols : list string) : list string :=
  let qualify (c : string) : string :=
    if String.eqb c joinCol then "map." ++ indexCol else alias_more mapCols c in
  (map qualify factCols ++ ["fact." ++ joinCol]%string)%list.

(** What the violation branch of [simpleMap] prints before it raises. *)
Definition violation_report (joinCol : string) (before after : nat) : list output :=
  [PrintStr stars; PrintStr stars;
   PrintStr (joinCol ++ " : " ++ Py.str_nat before ++ " - " ++ Py.str_nat after);
   PrintStr stars; PrintStr stars].

Section SimpleMap.

Context {E : Engine}.

(** [metadataDF.columns[0]]. *)
Definition first_column (df : DataFrame) : M string :=
  match columns df with
  | [] => raise (Raised IndexError ["list index out of range"])
  | c :: _ => ret c
  end.

(** The last branch of [simpleMap]: join, project, compare the counts. *)
Definition simpleMap_join (factDF aliasedFact theMap : DataFrame)
           (factCols : list string) (indexCol joinCol joinType : string)
  : M DataFrame :=
  let before := count factDF in
  let join_condition := simpleMap_join_condition joinCol in
  selectCols <- insertColumnAndAlias factCols joinCol indexCol (Some (columns theMap)) ;;
  joined <- lift (join aliasedFact (hint "broadcast" theMap) join_condition joinType) ;;
  aliasedFact <- lift (select selectCols joined) ;;
  let after := count aliasedFact in
  if negb (before =? after) then
    print (PrintStr stars) ;;;
    print (PrintStr stars) ;;;
    print (PrintStr (joinCol ++ " : " ++ Py.str_nat before ++ " - " ++ Py.str_nat after)) ;;;
    print (PrintStr stars) ;;;
    print (PrintStr stars) ;;;
    raise (Raised ValueError [])
  else
    ret aliasedFact.

(** [simpleMap(factDF, metadataDF, joinCol, joinType)]. *)
Definition simpleMap (factDF metadataDF : DataFrame) (joinCol joinType : string)
  : M DataFrame :=
  let aliasedFact := alias "fact" factDF in
  indexCol <- first_column metadataDF ;;
  theMap <- lift (select [indexCol; joinCol] metadataDF) ;;
  let theMap := alias "map" theMap in
  let factCols := columns aliasedFact in
  if negb (Py.contains factCols joinCol) then
    if Py.contains factCols indexCol then
      print (PrintStr (joinCol ++ " not in factDF - already replaced by " ++ indexCol)) ;;;
      ret factDF
    else
      raise (Raised Exception [joinCol ++ " not in factDF"])
  else if Py.contains factCols indexCol then
    raise (Raised Exception [indexCol ++ " already in factDF. This shouldn't happen"])
  else
    simpleMap_join factDF aliasedFact theMap factCols indexCol joinCol joinType.

End SimpleMap.

(* ===================================================================== *)
(** ** Meaning of column expressions (SQL three-valued logic) *)
(* ===================================================================== *)

(** The type of join-key values, with its equality test.  Keys on the two
    sides of a join have the same type. *)
Class KeyType : Type := {
  key : Type;
  key_eqb : key -> key -> bool;
  key_eqb_eq : forall x y, key_eqb x y = true <-> x = y
}.

Module Sql.

Section Eval.

Context {K : KeyType}.

(** A cell is a key value or NULL. *)
Definition cell : Type := option key.

(** The value of an expression on a row: a cell, or a truth value that
    may be NULL (unknown). *)
Inductive sqlval : Type :=
| Data (c : cell)
| Truth (t : option bool).

(** [x = y]: NULL when either side is NULL. *)
Definition sql_eq (x y : cell) : option bool :=
  match x, y with
  | Some u, Some v => Some (key_eqb u v)
  | _, _ => None
  end.

(** [p OR q]. *)
Definition sql_or (p q : option bool) : option bool :=
  match p, q with
  | Some true, _ | _, Some true => Some true
  | Some false, Some false => Some false
  | _, _ => None
  end.

(** [p AND q]. *)
Definition sql_and (p q : option bool) : option bool :=
  match p, q with
  | Some false, _ | _, Some false => Some false
  | Some true, Some true => Some true
  | _, _ => None
  end.

(** Evaluation on a row, given as the cell each column reference resolves
    to; [None] is an analysis error (unresolved reference, or an operator
    applied to the wrong kind of operand). *)
Fixpoint eval (row : string -> option cell) (e : Column) : option sqlval :=
  match e with
  | Col name =>
      match row name with
      | Some c => Some (Data c)
      | None => None
      end
  | EqualTo l r =>
      match eval row l, eval row r with
      | Some (Data x), Some (Data y) => Some (Truth (sql_eq x y))
      | _, _ => None
      end
  | Or l r =>
      match eval row l, eval row r with
      | Some (Truth p), Some (Truth q) => Some (Truth (sql_or p q))
      | _, _ => None
      end
  | And l r =>
      match eval row l, eval row r with
      | Some (Truth p), Some (Truth q) => Some (Truth (sql_and p q))
      | _, _ => None
      end
  | IsNull c =>
      match eval row c with
      | Some (Data None) => Some (Truth (Some true))
      | Some (Data (Some _)) => Some (Truth (Some false))
      | Some (Truth None) => Some (Truth (Some true))
      | Some (Truth (Some _)) => Some (Truth (Some false))
      | None => None
      end
  end.

(** A join keeps a pair of rows when the condition is TRUE on it; FALSE
    and NULL both reject the pair. *)
Definition holds (row : string -> option cell) (e : Column) : bool :=
  match eval row e with
  | Some (Truth (Some true)) => true
  | _ => false
  end.

(** The row seen by a join condition over [fact.<c>] and [map.<c>]: the
    left row's key [f] and the lookup row's key [m]. *)
Definition key_pair (factCol mapCol : string) (f m : cell) (name : string)
  : option cell :=
  if String.eqb name ("fact." ++ factCol) then Some f
  else if String.eqb name ("map." ++ mapCol) then Some m
  else None.

End Eval.

End Sql.

#[export] Instance string_key : KeyType :=
  {| key := string; key_eqb := String.eqb; key_eqb_eq := String.eqb_eq |}.

(* ===================================================================== *)
(** ** A reference engine on lists of rows *)
(* ===================================================================== *)

Module ListEngine.

Definition cell : Type := option string.

(** A frame: its columns (each with the alias it is qualified by, if any)
    and its rows. *)
Record Frame : Type := {
  cols : list (option string * string);
  rows : list (list cell)
}.

Definition columns (f : Frame) : list string := map snd (cols f).
Definition count (f : Frame) : nat := List.length (rows f).

Definition alias (q : string) (f : Frame) : Frame :=
  {| cols := map (fun c => (Some q, snd c)) (cols f); rows := rows f |}.

Definition hint (_ : string) (f : Frame) : Frame := f.

(** A reference names a column by its name or by [alias.name]; names are
    compared as written. *)
Definition refers (ref : string) (c : option string * string) : bool :=
  String.eqb ref (snd c)
  || match fst c with
     | Some q => String.eqb ref (q ++ "." ++ snd c)
     | None => false
     end.

Fixpoint positions (ref : string) (cs : list (option string * string)) (i : nat)
  : list nat :=
  match cs with
  | [] => []
  | c :: rest =>
      if refers ref c then i :: positions ref rest (S i) else positions ref rest (S i)
  end.

Definition resolve (cs : list (option string * string)) (ref : string) : exn + nat :=
  match positions ref cs 0 with
  | [i] => inr i
  | [] => inl (Raised AnalysisException ["cannot resolve " ++ ref])
  | _ => inl (Raised AnalysisException ["ambiguous reference " ++ ref])
  end.

Fixpoint resolve_all (cs : list (option string * string)) (refs : list string)
  : exn + list nat :=
  match refs with
  | [] => inr []
  | ref :: rest =>
      match resolve cs ref with
      | inl e => inl e
      | inr i =>
          match resolve_all cs rest with
          | inl e => inl e
          | inr idxs => inr (i :: idxs)
          end
      end
  end.

Definition select (refs : list string) (f : Frame) : exn + Frame :=
  match resolve_all (cols f) refs with
  | inl e => inl e
  | inr idxs =>
      inr {| cols := map (fun i => nth i (cols f) (None, "")) idxs;
             rows := map (fun row => map (fun i => nth i row None) idxs) (rows f) |}
  end.

(** The row a condition is evaluated on. *)
Definition row_env (cs : list (option string * string)) (row : list cell)
           (ref : string) : option cell :=
  match resolve cs ref with
  | inr i => Some (nth i row None)
  | inl _ => None
  end.

Definition nulls (n : nat) : list cell := repeat None n.

Inductive how : Type := Inner | LeftOuter | RightOuter | FullOuter | LeftSemi | LeftAnti.

(** Join types by name, as the engine reads them: lower-cased, with
    underscores removed. *)
Fixpoint squash (s : string) : string :=
  match s with
  | EmptyString => EmptyString
  | String c r =>
      if Ascii.eqb c "_"%char then squash r else String (Py.to_lower c) (squash r)
  end.

Definition how_of (joinType : string) : option how :=
  let t := squash joinType in
  if String.eqb t "inner" || String.eqb t "cross" then Some Inner
  else if String.eqb t "left" || String.eqb t "leftouter" then Some LeftOuter
  else if String.eqb t "right" || String.eqb t "rightouter" then Some RightOuter
  else if String.eqb t "outer" || String.eqb t "full" || String.eqb t "fullouter"
       then Some FullOuter
  else if String.eqb t "semi" || String.eqb t "leftsemi" then Some LeftSemi
  else if String.eqb t "anti" || String.eqb t "leftanti" then Some LeftAnti
  else None.

Section Join.

Variables l r : Frame.
Variable on : Column.

Definition pair_holds (lrow rrow : list cell) : bool :=
  Sql.holds (row_env (cols l ++ cols r)%list (lrow ++ rrow)%list) on.

Definition matched_of_left (lrow : list cell) : list (list cell) :=
  map (fun rrow => (lrow ++ rrow)%list) (filter (pair_holds lrow) (rows r)).

Definition inner_rows : list (list cell) := flat_map matched_of_left (rows l).

Definition left_rows : list (list cell) :=
  flat_map (fun lrow =>
              match matched_of_left lrow with
              | [] => [(lrow ++ nulls (List.length (cols r)))%list]
              | ms => ms
              end) (rows l).

Definition unmatched_right : list (list cell) :=
  map (fun rrow => (nulls (List.length (cols l)) ++ rrow)%list)
      (filter (fun rrow => negb (existsb (fun lrow => pair_holds lrow rrow) (rows l)))
              (rows r)).

Definition right_rows : list (list cell) := (inner_rows ++ unmatched_right)%list.
Definition full_rows : list (list cell) := (left_rows ++ unmatched_right)%list.

Definition semi_rows : list (list cell) :=
  filter (fun lrow => existsb (pair_holds lrow) (rows r)) (rows l).

Definition anti_rows : list (list cell) :=
  filter (fun lrow => negb (existsb (pair_holds lrow) (rows r))) (rows l).

Definition join (joinType : string) : exn + Frame :=
  match how_of joinType with
  | None => inl (Raised IllegalArgumentException ["Unsupported join type " ++ joinType])
  | Some h =>
      let cs := (cols l ++ cols r)%list in
      match Sql.eval (row_env cs (nulls (List.length cs))) on with
      | Some (Sql.Truth _) =>
          inr match h with
              | Inner => {| cols := cs; rows := inner_rows |}
              | LeftOuter => {| cols := cs; rows := left_rows |}
              | RightOuter => {| cols := cs; rows := right_rows |}
              | FullOuter => {| cols := cs; rows := full_rows |}
              | LeftSemi => {| cols := cols l; rows := semi_rows |}
              | LeftAnti => {| cols := cols l; rows := anti_rows |}
              end
      | _ => inl (Raised AnalysisException ["cannot resolve join condition"])
      end
  end.

End Join.

End ListEngine.

#[export] Instance list_engine : Engine := {|
  DataFrame := ListEngine.Frame;
  columns := ListEngine.columns;
  count := ListEngine.count;
  alias := ListEngine.alias;
  hint := ListEngine.hint;
  select := ListEngine.select;
  join := ListEngine.join;
  columns_alias := fun q f => map_map (fun c => (Some q, snd c)) snd (ListEngine.cols f)
|}.

(** Frames used in the examples. *)
Module Fixtures.

Definition plain (names : list string) (rs : list (list ListEngine.cell))
  : ListEngine.Frame :=
  {| ListEngine.cols := map (fun n => (None, n)) names; ListEngine.rows := rs |}.

(** Three enrolments, one with no status. *)
Definition fact : ListEngine.Frame :=
  plain ["id"; "status"; "unit"]
        [ [Some "1"; Some "Completed"; Some "U1"];
          [Some "2"; Some "Enrolled"; Some "U2"];
          [Some "3"; None; Some "U1"] ].

(** One lookup row per status, including the missing status. *)
Definition statuses : ListEngine.Frame :=
  plain ["status_id"; "status"]
        [ [Some "10"; Some "Completed"];
          [Some "20"; Some "Enrolled"];
          [Some "30"; None] ].

(** A lookup with two rows for the same status. *)
Definition statuses_dup : ListEngine.Frame :=
  plain ["status_id"; "status"]
        [ [Some "10"; Some "Completed"];
          [Some "11"; Some "Completed"];
          [Some "20"; Some "Enrolled"];
          [Some "30"; None] ].

(** A left frame whose status was already replaced. *)
Definition fact_done : ListEngine.Frame :=
  plain ["id"; "status_id"; "unit"]
        [ [Some "1"; Some "10"; Some "U1"] ].

(** A left frame that has both the status and its surrogate key. *)
Definition fact_both : ListEngine.Frame :=
  plain ["id"; "status"; "status_id"]
        [ [Some "1"; Some "Completed"; Some "10"] ].

(** A lookup on a column the left frame never had. *)
Definition levels : ListEngine.Frame :=
  plain ["level_id"; "level"]
        [ [Some "1"; Some "Consolidated"];
          [Some "2"; Some "Demonstrated"] ].

End Fixtures.


(* ===================================================================== *)
(** ** The behaviour the specification describes, written out *)
(* ===================================================================== *)

(** Each definition follows the wording of the specification, to be compared
    with the function above that embeds the source. *)
Module Spec.

(** Section 9: "append at end if [old] absent and [new] absent, no-op if
    [new] already present, else positional replacement". *)
Definition replace_or_append (sequence : list string) (old new : string)
  : list string :=
  if negb (Py.contains sequence old) && negb (Py.contains sequence new)
  then sequence ++ [new]
  else if Py.contains sequence new && Py.contains sequence old then sequence
  else replaceValueInList sequence old new.

(** Section 4.1, steps 1 and 2: the placeholder for a null input, the
    title-cased string conversion for any other. *)
Definition normalize_value (raw_value : Py.pyval) : string :=
  match raw_value with
  | Py.PNone => "None Supplied"
  | v => Py.title (Py.str v)
  end.

(** Section 4.1, steps 3 to 5. *)
Definition normalize (raw_value : Py.pyval) (controlled_vocabulary : list string)
           (similarity_threshold : Q) : string :=
  let v := normalize_value raw_value in
  if Nat.eqb (List.length controlled_vocabulary) 0
     || Py.contains controlled_vocabulary v
  then v
  else match find (fun l => are_strings_similar v l similarity_threshold)
                  controlled_vocabulary with
       | Some l => l
       | None => v
       end.

(** Section 4.2, step 5, as claimed for the output: the surrogate key where
    [join_column] was, and [join_column] gone. *)
Definition joined_columns (left_columns : list string)
           (join_column surrogate_key : string) : list string :=
  replaceValueInList left_columns join_column surrogate_key.

End Spec.

(** [needle in haystack] on strings. *)
Fixpoint mentions (haystack needle : string) : bool :=
  String.prefix needle haystack
  || match haystack with
     | EmptyString => false
     | String _ rest => mentions rest needle
     end.

(** An exception carries a text when one of its [args] contains it. *)
Definition exn_carries (e : exn) (text : string) : bool :=
  existsb (fun arg => mentions arg text) (exn_args e).

(* ===================================================================== *)
(** ** More string built-ins *)
(* ===================================================================== *)

Module PyStr.

(** [c.isspace()] on ASCII: tab to carriage return, the four separators
    28 to 31, and the space. *)
Definition isspace (c : ascii) : bool :=
  let n := nat_of_ascii c in
  ((9 <=? n) && (n <=? 13)) || ((28 <=? n) && (n <=? 32)).

(** [c.isdigit()] for an ASCII character. *)
Definition isdigit (c : ascii) : bool :=
  let n := nat_of_ascii c in (48 <=? n) && (n <=? 57).

(** [s.lstrip(chars)], the characters to strip given by a test. *)
Fixpoint lstrip_by (p : ascii -> bool) (s : string) : string :=
  match s with
  | EmptyString => EmptyString
  | String c r => if p c then lstrip_by p r else s
  end.

(** [s.rstrip(chars)]. *)
Fixpoint rstrip_by (p : ascii -> bool) (s : string) : string :=
  match s with
  | EmptyString => EmptyString
  | String c r =>
      match rstrip_by p r with
      | EmptyString => if p c then EmptyString else String c EmptyString
      | r' => String c r'
      end
  end.

(** [s.strip()]. *)
Definition strip (s : string) : string := lstrip_by isspace (rstrip_by isspace s).

(** [s.lower()], [s.upper()], [s.capitalize()] for ASCII text. *)
Fixpoint lower (s : string) : string :=
  match s with
  | EmptyString => EmptyString
  | String c r => String (Py.to_lower c) (lower r)
  end.

Fixpoint upper (s : string) : string :=
  match s with
  | EmptyString => EmptyString
  | String c r => String (Py.to_upper c) (upper r)
  end.

Definition capitalize (s : string) : string :=
  match s with
  | EmptyString => EmptyString
  | String c r => String (Py.to_upper c) (lower r)
  end.

(** [s.split(sep)] for a one-character separator. *)
Fixpoint split (sep : ascii) (s : string) : list string :=
  match s with
  | EmptyString => [EmptyString]
  | String c r =>
      if Ascii.eqb c sep then EmptyString :: split sep r
      else match split sep r with
           | [] => [String c EmptyString]
           | w :: ws => String c w :: ws
           end
  end.

(** [sep.join(parts)]. *)
Fixpoint join (sep : string) (parts : list string) : string :=
  match parts with
  | [] => EmptyString
  | [x] => x
  | x :: rest => x ++ sep ++ join sep rest
  end.

(** [s.split(sep, 1)[0]]: the text before the first [sep]. *)
Fixpoint before_first (sep : ascii) (s : string) : string :=
  match s with
  | EmptyString => EmptyString
  | String c r => if Ascii.eqb c sep then EmptyString else String c (before_first sep r)
  end.

(** [s.replace(c, '')] for a one-character [c]. *)
Fixpoint remove_char (c : ascii) (s : string) : string :=
  match s with
  | EmptyString => EmptyString
  | String x r => if Ascii.eqb x c then remove_char c r else String x (remove_char c r)
  end.

(** [any(c.isupper() for c in s)], [any(c.islower() for c in s)]. *)
Fixpoint any_upper (s : string) : bool :=
  match s with
  | EmptyString => false
  | String c r => Py.is_upper c || any_upper r
  end.

Fixpoint any_lower (s : string) : bool :=
  match s with
  | EmptyString => false
  | String c r => Py.is_lower c || any_lower r
  end.

(** [list.insert(i, x)]: a negative index counts from the end, and an index
    outside the list is clipped to its ends. *)
Fixpoint insert_at (n : nat) (x : string) (l : list string) : list string :=
  match n, l with
  | O, _ => x :: l
  | S n', [] => [x]
  | S n', y :: r => y :: insert_at n' x r
  end.

Definition list_insert (i : Z) (x : string) (l : list string) : list string :=
  let len := Z.of_nat (List.length l) in
  let i := if (i <? 0)%Z then Z.max 0 (i + len) else i in
  insert_at (Z.to_nat i) x l.

(** [s[:-1]]. *)
Fixpoint drop_last (s : string) : string :=
  match s with
  | EmptyString => EmptyString
  | String c r =>
      match r with
      | EmptyString => EmptyString
      | _ => String c (drop_last r)
      end
  end.

(** [s.isascii()]: every character is below 128.  On such text the
    functions above and [Py.title] are Python's; beyond it Python's case
    mappings and [isdigit] follow Unicode and are not modelled. *)
Fixpoint isascii (s : string) : bool :=
  match s with
  | EmptyString => true
  | String c r => (nat_of_ascii c <? 128) && isascii r
  end.

End PyStr.

(** A value whose text is ASCII: a string that is, or a value that is not a
    string ([str] of a number, a boolean or [None] is ASCII). *)
Definition ascii_value (v : Py.pyval) : bool :=
  match v with
  | Py.PStr s => PyStr.isascii s
  | _ => true
  end.

(* ===================================================================== *)
(** ** Names, SQL text and error messages *)
(* ===================================================================== *)

(** The class [[a-zA-Z0-9_]] of the pattern in [cleanString]. *)
Definition word_char (c : ascii) : bool :=
  Py.is_lower c || Py.is_upper c || PyStr.isdigit c || Ascii.eqb c "_"%char.

(** [cleanString(input_string)]: [re.sub(r'[^a-zA-Z0-9_]', '', input_string)]. *)
Fixpoint cleanString (input_string : string) : string :=
  match input_string with
  | EmptyString => EmptyString
  | String c r => if word_char c then String c (cleanString r) else cleanString r
  end.

(** [[escapeName(p) for p in parts]], when every call returns. *)
Fixpoint all_some (rs : list (option string)) : option (list string) :=
  match rs with
  | [] => Some []
  | None :: _ => None
  | Some x :: rest =>
      match all_some rest with
      | Some xs => Some (x :: xs)
      | None => None
      end
  end.

(** [escapeName(name)] with a bound on the depth of the recursion; [None]
    when the bound is reached. *)
Fixpoint escapeName_depth (depth : nat) (name : string) : option string :=
  match depth with
  | O => None
  | S depth =>
      if Py.has_char "."%char name then
        let parts := PyStr.split "."%char name in
        match all_some (map (escapeName_depth depth) parts) with
        | Some escaped => Some (PyStr.join "." escaped)
        | None => None
        end
      else if Py.has_char "`"%char name then Some name
      else if Py.has_char " "%char name || Py.has_char "-"%char name
           then Some ("`" ++ name ++ "`")
      else Some name
  end.

(** [escapeName(name)].  The parts of a split have no dot, so the recursion
    stops at depth two ([escapeName_depth_any] below). *)
Definition escapeName (name : string) : string :=
  match escapeName_depth 2 name with
  | Some escaped => escaped
  | None => name
  end.

(** [firstCharIsNumeric(input_string)]: the value of the [and] chain, which
    is the argument itself when it is false. *)
Definition firstCharIsNumeric (input_string : Py.pyval) : Py.pyval :=
  if negb (Py.truthy input_string) then input_string
  else match input_string with
       | Py.PStr (String c _) => Py.PBool (PyStr.isdigit c)
       | Py.PStr EmptyString => input_string
       | _ => Py.PBool false
       end.

(** [getTempTableName(prefix)]; [now] is
    [datetime.now().strftime("%Y%m%d_%H%M%S")] and [uuid] is [str(uuid4())]. *)
Definition getTempTableName (prefix : Py.pyval) (now uuid : string) : string :=
  let prefix := PyStr.rstrip_by (fun c => Ascii.eqb c "_"%char) (Py.str prefix) in
  let prefix := if String.eqb prefix "" then "tmp" else prefix in
  let tabName :=
    cleanString (PyStr.join "_" [prefix; now; PyStr.remove_char "-"%char uuid]) in
  if Py.truthy (firstCharIsNumeric (Py.PStr tabName)) then "_" ++ tabName
  else tabName.

(** A [cols] argument: one string or a list of strings. *)
Inductive str_or_list : Type :=
| OneStr (s : string)
| StrList (l : list string).

Definition as_list (x : str_or_list) : list string :=
  match x with
  | OneStr s => [s]
  | StrList l => l
  end.

(** [getSQL(tableName, cols, distinct)]. *)
Definition getSQL (tableName : string) (cols : str_or_list) (distinct : bool) : string :=
  let cols := as_list cols in
  let cols := map escapeName cols in
  let joinSep := "," ++ newline ++ "         " in
  let stm := "SELECT " ++ PyStr.join joinSep cols ++ newline ++ " FROM "
             ++ escapeName tableName ++ " " in
  if distinct then stm ++ " " ++ newline ++ "GROUP BY " ++ PyStr.join joinSep cols
  else stm.

(** The [for line in lines] loop of [extract_actual_error]. *)
Fixpoint extract_actual_error_scan (lines : list string) : option string :=
  match lines with
  | [] => None
  | line :: rest =>
      if String.prefix "Caused by:" (PyStr.strip line) then Some (PyStr.strip line)
      else extract_actual_error_scan rest
  end.

(** [extract_actual_error(py4j_error)] on the text of the error. *)
Definition extract_actual_error (py4j_error : string) : string :=
  let lines := PyStr.split (ascii_of_nat 10) py4j_error in
  match extract_actual_error_scan lines with
  | Some line => line
  | None => PyStr.strip (hd "" lines)
  end.

(** [garbageCLO(thisCLO)]. *)
Definition garbageCLO (thisCLO : Py.pyval) : bool :=
  negb (Py.truthy thisCLO)
  || negb (Py.isinstance_str thisCLO)
  || String.eqb (PyStr.strip (PyStr.lower (Py.str thisCLO))) "n/a".

(* ===================================================================== *)
(** ** Name capitalisation *)
(* ===================================================================== *)

(** [delimiters = [" ", "'", "-", "`", "/"]]. *)
Definition delimiters : list string := [" "; "'"; "-"; "`"; "/"].

Definition is_delimiter (c : ascii) : bool := Py.contains delimiters (String c "").

(** [re.split(pattern, string)] for the pattern that captures one
    delimiter: the texts between delimiters, with the delimiters kept. *)
Fixpoint split_string_by_delimiters (s : string) : list string :=
  match s with
  | EmptyString => [EmptyString]
  | String c r =>
      if is_delimiter c then EmptyString :: String c EmptyString :: split_string_by_delimiters r
      else match split_string_by_delimiters r with
           | [] => [String c EmptyString]
           | w :: ws => String c w :: ws
           end
  end.

Definition is_mixed_case (s : string) : bool := PyStr.any_upper s && PyStr.any_lower s.

Definition output_as_lowercase (s : string) : bool := Py.contains ["de"; "of"] (PyStr.lower s).

(** The element of the comprehension in [capitalize_parts]. *)
Definition capitalize_part (part : string) : string :=
  if Py.contains delimiters part || is_mixed_case part then part
  else if output_as_lowercase part then PyStr.lower part
  else PyStr.capitalize part.

Definition capitalize_parts (parts : list string) : list string :=
  map capitalize_part parts.

Definition reassemble_string (parts : list string) : string := PyStr.join "" parts.

(** [custom_initcap(name)]; [None] is Python's [None]. *)
Definition custom_initcap (name : Py.pyval) : option string :=
  if negb (Py.truthy name) then None
  else
    let name := Py.str name in
    Some (reassemble_string (capitalize_parts (split_string_by_delimiters name))).

(** Errors of the name functions. *)
Inductive py_error : Type :=
| AttributeError (message : string).

(** [fixUpName(name)]. *)
Definition fixUpName (name : Py.pyval) : py_error + Py.pyval :=
  if negb (Py.truthy name) then inr name
  else
    match name with
    | Py.PStr s =>
        if String.eqb (PyStr.strip s) "," then inr Py.PNone
        else
          match custom_initcap (Py.PStr s) with
          | None => inl (AttributeError "'NoneType' object has no attribute 'split'")
          | Some name =>
              let name := PyStr.strip (PyStr.before_first "("%char name) in
              if Py.has_char ","%char name then
                let parts := rev (PyStr.split ","%char name) in
                inr (Py.PStr (PyStr.join " " (map PyStr.strip parts)))
              else inr (Py.PStr name)
          end
    | Py.PInt _ => inl (AttributeError "'int' object has no attribute 'strip'")
    | Py.PBool _ => inl (AttributeError "'bool' object has no attribute 'strip'")
    | Py.PNone => inr name
    end.

(* ===================================================================== *)
(** ** Column order of [addIndexCol] *)
(* ===================================================================== *)

(** The list [columns] that [addIndexCol] selects, for an index column name
    that is not empty: the columns other than the index column (compared
    without case), with the index column put in at [newColPos]. *)
Definition addIndexCol_columns (df_columns : list string) (indexColName : string)
           (newColPos : Z) : list string :=
  let columns :=
    filter (fun c => negb (String.eqb (PyStr.upper c) (PyStr.upper indexColName)))
           df_columns in
  if (Z.of_nat (List.length columns) <? newColPos)%Z
  then (columns ++ [indexColName])%list
  else PyStr.list_insert newColPos indexColName columns.

(* ===================================================================== *)
(** ** Reading tables *)
(* ===================================================================== *)

(** The text that [sqlQueryDataFrame] prints when [printSQL] is set:
    [qrySql if qrySql.strip()[:-1] == '\n' else f"{qrySql}\n"]. *)
Definition sqlQueryDataFrame_echo (qrySql : string) : string :=
  if String.eqb (PyStr.drop_last (PyStr.strip qrySql)) newline then qrySql
  else qrySql ++ newline.

(** The Spark session as the table functions use it.  A call returns a
    frame or raises; [py4j_str e] is [str(e)] when [e] is a
    [Py4JJavaError] and [None] for any other exception. *)
Class Session : Type := {
  LakeFrame : Type;
  SparkError : Type;
  delta_load : string -> SparkError + LakeFrame;
  spark_sql : list (string * LakeFrame) -> string -> SparkError + LakeFrame;
  py4j_str : SparkError -> option string
}.

(** What a table function raises: a [KeyError] of the property dict, an
    exception of the session passed on, or the [TypeError] of the call
    [Py4JJavaError(message)] in the handler of [selectTable]: the
    constructor of py4j's [Py4JJavaError] takes the message and the Java
    exception, and is given the message only. *)
Inductive table_error {S : Session} : Type :=
| KeyError (key : string)
| FromSession (e : SparkError)
| TypeError.

(** The property dict of a lakehouse. *)
Definition properties : Type := list (string * string).

Fixpoint properties_get (lh_properties : properties) (key : string) : option string :=
  match lh_properties with
  | [] => None
  | (k, v) :: rest => if String.eqb k key then Some v else properties_get rest key
  end.

Section Tables.

Context {S : Session}.

(** [tablePath(lh_properties, tableName)]. *)
Definition tablePath (lh_properties : properties) (tableName : string)
  : table_error + string :=
  match properties_get lh_properties "source" with
  | None => inl (KeyError "source")
  | Some source => inr (source ++ "/Tables/" ++ tableName)
  end.

(** The [except Py4JJavaError as e] clause of [selectTable]: the message is
    extracted, then the call of the constructor with that one argument
    raises, so the [raise] never gets an exception to raise. *)
Definition selectTable_handler (e : SparkError) : table_error :=
  match py4j_str e with
  | Some text => let message := extract_actual_error text in TypeError
  | None => FromSession e
  end.

(** [selectTable(lh_properties, tableName, query)], with the temporary
    views of the session passed along; [now] and [uuid] are the clock and
    the UUID that [getTempTableName] reads. *)
Definition selectTable (lh_properties : properties) (tableName : string)
           (query : option string) (now uuid : string)
           (views : list (string * LakeFrame))
  : list (string * LakeFrame) * (table_error + LakeFrame) :=
  match tablePath lh_properties tableName with
  | inl e => (views, inl e)
  | inr path =>
      match delta_load path with
      | inl e => (views, inl (selectTable_handler e))
      | inr df =>
          let tableName := getTempTableName (Py.PStr tableName) now uuid in
          let views := (tableName, df) :: views in
          let query :=
            match query with
            | Some q => if String.eqb q "" then None else Some q
            | None => None
            end in
          let query :=
            match query with
            | Some q => q
            | None => "SELECT t.* FROM " ++ escapeName tableName ++ " AS t"
            end in
          match spark_sql views query with
          | inl e => (views, inl (selectTable_handler e))
          | inr result_df => (views, inr result_df)
          end
      end
  end.

(** The query text that [readTable] builds. *)
Definition readTable_query (tableName : string) (columns : str_or_list)
           (condition : string) : string :=
  let columns :=
    match columns with
    | StrList [] => ["*"]
    | OneStr EmptyString => ["*"]
    | other => as_list other
    end in
  let columns := map (fun c => if String.eqb c "*" then c else escapeName c) columns in
  let tableName := escapeName tableName in
  let query := "SELECT " ++ PyStr.join "," columns ++ " FROM " ++ tableName in
  if negb (String.eqb condition "") then query ++ "WHERE " ++ condition else query.

(** [readTable(lh_properties, tableName, columns, condition)]: the query is
    built and then not passed on. *)
Definition readTable (lh_properties : properties) (tableName : string)
           (columns : str_or_list) (condition : string) (now uuid : string)
           (views : list (string * LakeFrame))
  : list (string * LakeFrame) * (table_error + LakeFrame) :=
  let query := readTable_query tableName columns condition in
  let tableName := escapeName tableName in
  selectTable lh_properties tableName None now uuid views.

(** [getColsFromTable(tableName, cols, lh_properties, distinct)]. *)
Definition getColsFromTable (tableName : string) (cols : str_or_list)
           (lh_properties : properties) (distinct : bool) (now uuid : string)
           (views : list (string * LakeFrame))
  : list (string * LakeFrame) * (table_error + LakeFrame) :=
  selectTable lh_properties tableName (Some (getSQL tableName cols distinct)) now uuid views.

End Tables.

(** A session used in the examples: one stored table, and a SQL engine that
    answers the query on all columns of the view registered last. *)
Module ListSession.

Inductive error : Type :=
| JavaError (text : string)
| AnalysisError (text : string).

Definition frame : Type := list (list string).

Definition grades : frame := [["1"; "HD"]; ["2"; "D"]].

Definition load (path : string) : error + frame :=
  if String.eqb path "abfss://lake/Tables/grades" then inr grades
  else inl (JavaError ("An error occurred while calling o42.load." ++ newline
                       ++ ": java.io.FileNotFoundException: " ++ path ++ newline
                       ++ "  Caused by: no such table  " ++ newline
                       ++ "  at org.apache.spark.sql")).

Definition sql (views : list (string * frame)) (query : string) : error + frame :=
  match views with
  | (view, df) :: _ =>
      if String.eqb query ("SELECT t.* FROM " ++ view ++ " AS t") then inr df
      else inl (AnalysisError ("cannot run " ++ query))
  | [] => inl (AnalysisError "no view")
  end.

Definition java_text (e : error) : option string :=
  match e with
  | JavaError text => Some text
  | AnalysisError _ => None
  end.

End ListSession.

#[export] Instance list_session : Session := {|
  LakeFrame := ListSession.frame;
  SparkError := ListSession.error;
  delta_load := ListSession.load;
  spark_sql := ListSession.sql;
  py4j_str := ListSession.java_text
|}.

(* ===================================================================== *)
(** ** Invariants of the name capitalisation *)
(* ===================================================================== *)

Module InitcapInv.

(** A text without any of the delimiters. *)
Fixpoint delimiter_free (s : string) : bool :=
  match s with
  | EmptyString => true
  | String c r => negb (is_delimiter c) && delimiter_free r
  end.

(** The shape of what [re.split] returns for a capturing pattern: texts
    without delimiters, with one delimiter between each two of them. *)
Fixpoint alternating (parts : list string) : bool :=
  match parts with
  | [] => false
  | [t] => delimiter_free t
  | t :: d :: rest => delimiter_free t && Py.contains delimiters d && alternating rest
  end.

End InitcapInv.

(* ===================================================================== *)
(** * Properties *)
(* ===================================================================== *)

(** ** Membership and list splicing *)

(** Membership in a list given in full. *)
Ltac list_in := simpl; repeat (first [left; reflexivity | right]).
Ltac list_not_in := simpl; intuition discriminate.


Lemma contains_In (xs : list string) (x : string) :
  Py.contains xs x = true <-> In x xs.
Proof.
  unfold Py.contains. rewrite existsb_exists. split.
  - intros [y [Hy Heq]]. apply String.eqb_eq in Heq. now subst.
  - intros H. exists x. split; [assumption | apply String.eqb_refl].
Qed.

Lemma contains_not_In (xs : list string) (x : string) :
  Py.contains xs x = false <-> ~ In x xs.
Proof.
  rewrite <- contains_In. destruct (Py.contains xs x); split; congruence.
Qed.

Lemma insertValueIntoList_loop_spec (theList : list string) (oldVal newVal : string) :
  forall result,
    insertValueIntoList_loop theList oldVal newVal result
    = (result ++ replaceValueInList theList oldVal newVal)%list.
Proof.
  induction theList as [|item rest IH]; intros result; simpl.
  - now rewrite app_nil_r.
  - rewrite IH. destruct (String.eqb item oldVal); now rewrite <- app_assoc.
Qed.

Lemma insertValueIntoList_old_absent (theList : list string) (oldVal newVal : string) :
  ~ In oldVal theList ->
  insertValueIntoList theList oldVal newVal = (theList ++ [newVal])%list.
Proof.
  intros Hold. unfold insertValueIntoList.
  apply contains_not_In in Hold. now rewrite Hold.
Qed.

Lemma insertValueIntoList_both_present (theList : list string) (oldVal newVal : string) :
  In oldVal theList -> In newVal theList ->
  insertValueIntoList theList oldVal newVal = theList.
Proof.
  intros Hold Hnew. unfold insertValueIntoList.
  apply contains_In in Hold, Hnew. now rewrite Hold, Hnew.
Qed.

Lemma insertValueIntoList_new_absent (theList : list string) (oldVal newVal : string) :
  In oldVal theList -> ~ In newVal theList ->
  insertValueIntoList theList oldVal newVal
  = (replaceValueInList theList oldVal newVal ++ [oldVal])%list.
Proof.
  intros Hold Hnew. unfold insertValueIntoList.
  apply contains_In in Hold. apply contains_not_In in Hnew.
  rewrite Hold, Hnew. simpl. now rewrite insertValueIntoList_loop_spec.
Qed.

(** C9 (amended).  [insertValueIntoList] appends [new] when [old] and [new]
    are both absent; returns the list as it is when both are present; and
    when [old] is present and [new] is not, puts [new] in place of every
    [old] and appends [old] at the end. *)
Theorem insertValueIntoList_cases (theList : list string) (oldVal newVal : string) :
  (~ In oldVal theList -> ~ In newVal theList ->
   insertValueIntoList theList oldVal newVal = (theList ++ [newVal])%list)
  /\ (In oldVal theList -> In newVal theList ->
      insertValueIntoList theList oldVal newVal = theList)
  /\ (In oldVal theList -> ~ In newVal theList ->
      insertValueIntoList theList oldVal newVal
      = (replaceValueInList theList oldVal newVal ++ [oldVal])%list).
Proof.
  split; [| split].
  - intros Hold _. now apply insertValueIntoList_old_absent.
  - apply insertValueIntoList_both_present.
  - apply insertValueIntoList_new_absent.
Qed.

Lemma insertValueIntoList_cases_witness :
  insertValueIntoList ["id"; "status"; "unit"] "grade" "status_id"
  = ["id"; "status"; "unit"; "status_id"]
  /\ insertValueIntoList ["id"; "status"; "status_id"] "status" "status_id"
     = ["id"; "status"; "status_id"]
  /\ insertValueIntoList ["id"; "status"; "unit"] "status" "status_id"
     = ["id"; "status_id"; "unit"; "status"].
Proof.
  split; [| split].
  - apply (proj1 (insertValueIntoList_cases ["id"; "status"; "unit"] "grade" "status_id"));
      list_not_in.
  - apply (proj1 (proj2 (insertValueIntoList_cases ["id"; "status"; "status_id"]
                                                   "status" "status_id")));
      list_in.
  - apply (proj2 (proj2 (insertValueIntoList_cases ["id"; "status"; "unit"]
                                                   "status" "status_id")));
      [list_in | list_not_in].
Defined.

(** C9 as written fails in its last case: with [old] present and [new]
    absent the list returned still ends with [old]; and with [old] absent
    and [new] present the list does not come back as it was. *)
Lemma insertValueIntoList_differs_from_spec :
  insertValueIntoList ["id"; "status"; "unit"] "status" "status_id"
  <> Spec.replace_or_append ["id"; "status"; "unit"] "status" "status_id"
  /\ insertValueIntoList ["id"; "status_id"] "status" "status_id"
     <> Spec.replace_or_append ["id"; "status_id"] "status" "status_id".
Proof.
  split; vm_compute; discriminate.
Qed.

(** The first branch also changes the caller's list. *)
Lemma insertValueIntoList_argument_after_spec (theList : list string) (oldVal newVal : string) :
  (~ In oldVal theList ->
   insertValueIntoList_argument_after theList oldVal newVal
   = insertValueIntoList theList oldVal newVal)
  /\ (In oldVal theList ->
      insertValueIntoList_argument_after theList oldVal newVal = theList).
Proof.
  unfold insertValueIntoList_argument_after, insertValueIntoList. split; intros H.
  - apply contains_not_In in H. now rewrite H.
  - apply contains_In in H. now rewrite H.
Qed.

(** ** The value normalizer *)

Lemma truthy_false_iff (v : Py.pyval) :
  Py.truthy v = false
  <-> v = Py.PNone \/ v = Py.PStr "" \/ v = Py.PInt 0 \/ v = Py.PBool false.
Proof.
  split.
  - destruct v as [| s | z | b]; simpl; intros H.
    + now left.
    + right; left. apply negb_false_iff, String.eqb_eq in H. now subst.
    + right; right; left. apply negb_false_iff, Z.eqb_eq in H. now subst.
    + right; right; right. now subst.
  - intros [-> | [-> | [-> | ->]]]; reflexivity.
Qed.

Lemma fixDodgyThing_value_falsy (value : Py.pyval) :
  Py.truthy value = false -> fixDodgyThing_value value = "None Supplied".
Proof.
  intros H. unfold fixDodgyThing_value. rewrite H. reflexivity.
Qed.

Lemma fixDodgyThing_value_truthy (value : Py.pyval) :
  Py.truthy value = true -> fixDodgyThing_value value = Py.title (Py.str value).
Proof.
  intros H. unfold fixDodgyThing_value. rewrite H. simpl.
  destruct value; reflexivity.
Qed.

(** C5 (amended).  The placeholder is substituted exactly for the inputs
    Python counts as false (null, the empty string, zero, False); every
    other input is converted to a string and title-cased. *)
Theorem fixDodgyThing_value_cases (value : Py.pyval) :
  (Py.truthy value = false -> fixDodgyThing_value value = "None Supplied")
  /\ (Py.truthy value = true ->
      fixDodgyThing_value value = Py.title (Py.str value)).
Proof.
  split.
  - apply fixDodgyThing_value_falsy.
  - apply fixDodgyThing_value_truthy.
Qed.

Lemma fixDodgyThing_value_cases_witness :
  fixDodgyThing_value (Py.PInt 0) = "None Supplied"
  /\ fixDodgyThing_value (Py.PInt 42) = "42"
  /\ fixDodgyThing_value (Py.PStr "with-drawn early") = "With-Drawn Early".
Proof.
  split; [| split].
  - apply (proj1 (fixDodgyThing_value_cases (Py.PInt 0))). reflexivity.
  - apply (proj2 (fixDodgyThing_value_cases (Py.PInt 42))). reflexivity.
  - apply (proj2 (fixDodgyThing_value_cases (Py.PStr "with-drawn early"))). reflexivity.
Defined.

(** C5 as written fails on the empty string and on zero: neither is null,
    and both get the placeholder instead of their own text. *)
Lemma fixDodgyThing_value_differs_from_spec :
  fixDodgyThing_value (Py.PStr "") <> Spec.normalize_value (Py.PStr "")
  /\ fixDodgyThing_value (Py.PInt 0) <> Spec.normalize_value (Py.PInt 0)
  /\ fixDodgyThing (Py.PStr "") LegitNone = "None Supplied"
  /\ fixDodgyThing (Py.PInt 0) LegitNone = "None Supplied".
Proof.
  repeat split; vm_compute; discriminate.
Qed.

Lemma fixDodgyThing_scan_first (value : string) (pre post : list string) (l : string) :
  (forall p, In p pre -> are_strings_similar value p default_threshold = false) ->
  are_strings_similar value l default_threshold = true ->
  fixDodgyThing_scan value (pre ++ l :: post) = l.
Proof.
  induction pre as [|p pre IH]; simpl; intros Hpre Hl.
  - now rewrite Hl.
  - rewrite (Hpre p (or_introl eq_refl)). apply IH; auto.
Qed.

Lemma fixDodgyThing_scan_none (value : string) (legit_values : list string) :
  (forall l, In l legit_values -> are_strings_similar value l default_threshold = false) ->
  fixDodgyThing_scan value legit_values = value.
Proof.
  induction legit_values as [|l rest IH]; simpl; intros H.
  - reflexivity.
  - rewrite (H l (or_introl eq_refl)). apply IH. auto.
Qed.

(** The scan returns the value itself or a vocabulary entry similar to it. *)
Lemma fixDodgyThing_scan_result (value : string) (legit_values : list string) :
  fixDodgyThing_scan value legit_values = value
  \/ (In (fixDodgyThing_scan value legit_values) legit_values
      /\ are_strings_similar value (fixDodgyThing_scan value legit_values)
                             default_threshold = true).
Proof.
  induction legit_values as [|l rest IH]; simpl.
  - now left.
  - destruct (are_strings_similar value l default_threshold) eqn:Hl.
    + right. split; [now left | exact Hl].
    + destruct IH as [IH | [IH1 IH2]]; [now left | right; split; [now right | exact IH2]].
Qed.

Lemma fixDodgyThing_unfold (value : Py.pyval) (legit_values : legit) :
  fixDodgyThing value legit_values
  = if negb (Nat.eqb (List.length (vocabulary legit_values)) 0)
       && negb (Py.contains (vocabulary legit_values) (fixDodgyThing_value value))
    then fixDodgyThing_scan (fixDodgyThing_value value) (vocabulary legit_values)
    else fixDodgyThing_value value.
Proof.
  unfold fixDodgyThing, vocabulary. destruct (legit_list legit_values); reflexivity.
Qed.

(** C4 (amended).  For an input Python counts as true, with [t] its
    title-cased text: an empty vocabulary, or one that has [t], gives [t];
    otherwise the result is the first entry, in the order given, whose
    ratio to [t] reaches 0.6, and [t] itself when no entry does. *)
Theorem fixDodgyThing_first_match (value : Py.pyval) (legit_values : legit) :
  Py.truthy value = true ->
  let t := Py.title (Py.str value) in
  let vocab := vocabulary legit_values in
  (vocab = [] \/ In t vocab -> fixDodgyThing value legit_values = t)
  /\ (vocab <> [] -> ~ In t vocab ->
      forall pre l post,
        vocab = (pre ++ l :: post)%list ->
        (forall p, In p pre -> are_strings_similar t p default_threshold = false) ->
        are_strings_similar t l default_threshold = true ->
        fixDodgyThing value legit_values = l)
  /\ (vocab <> [] -> ~ In t vocab ->
      (forall l, In l vocab -> are_strings_similar t l default_threshold = false) ->
      fixDodgyThing value legit_values = t).
Proof.
  intros Htrue t vocab.
  assert (Hv : fixDodgyThing_value value = t)
    by (apply fixDodgyThing_value_truthy; exact Htrue).
  rewrite fixDodgyThing_unfold, Hv. fold vocab.
  split; [| split].
  - intros [Hnil | Hin].
    + rewrite Hnil. reflexivity.
    + apply contains_In in Hin. rewrite Hin, andb_false_r. reflexivity.
  - intros Hne Hnot pre l post Hsplit Hpre Hl.
    apply contains_not_In in Hnot. rewrite Hnot.
    destruct vocab as [|x xs]; [congruence |]. simpl negb. simpl andb.
    rewrite Hsplit. now apply fixDodgyThing_scan_first.
  - intros Hne Hnot Hnone.
    apply contains_not_In in Hnot. rewrite Hnot.
    destruct vocab as [|x xs]; [congruence |]. simpl negb. simpl andb.
    now apply fixDodgyThing_scan_none.
Qed.

Lemma fixDodgyThing_first_match_witness :
  fixDodgyThing (Py.PStr "completd")
                (LegitList ["Discontinued"; "Completed"; "Enrolled"]) = "Completed".
Proof.
  refine (proj1 (proj2 (fixDodgyThing_first_match
                          (Py.PStr "completd")
                          (LegitList ["Discontinued"; "Completed"; "Enrolled"])
                          eq_refl))
                _ _ ["Discontinued"] "Completed" ["Enrolled"] eq_refl _ _).
  - discriminate.
  - list_not_in.
  - intros p [<- | []]. vm_compute. reflexivity.
  - vm_compute. reflexivity.
Defined.

(** First match, not best match: "Enrolled" is closer to the input than
    "Enrolls", which comes first and is close enough. *)
Example fixDodgyThing_first_not_best :
  fixDodgyThing (Py.PStr "enroled") (LegitList ["Enrolls"; "Enrolled"]) = "Enrolls"
  /\ Qlt (Difflib.ratio (list_ascii_of_string "Enroled") (list_ascii_of_string "Enrolls"))
         (Difflib.ratio (list_ascii_of_string "Enroled") (list_ascii_of_string "Enrolled")).
Proof. split; vm_compute; reflexivity. Qed.

(** C4 as written fails on the empty string: it is not null, its
    title-cased form is not in the vocabulary and is similar to no entry,
    yet the result is not that form but the placeholder. *)
Lemma fixDodgyThing_differs_from_spec :
  fixDodgyThing (Py.PStr "") (LegitList ["Completed"; "Discontinued"; "Enrolled"])
  = "None Supplied"
  /\ Spec.normalize (Py.PStr "") ["Completed"; "Discontinued"; "Enrolled"]
                    default_threshold = ""
  /\ fixDodgyThing (Py.PStr "") (LegitList ["Completed"; "Discontinued"; "Enrolled"])
     <> Spec.normalize (Py.PStr "") ["Completed"; "Discontinued"; "Enrolled"]
                       default_threshold.
Proof.
  repeat split; vm_compute; try reflexivity; discriminate.
Qed.

(** ** The join condition *)

Section JoinCondition.

Context {K : KeyType}.

Lemma key_eqb_refl (x : key) : key_eqb x x = true.
Proof. now apply key_eqb_eq. Qed.

Lemma key_eqb_sym (x y : key) : key_eqb x y = key_eqb y x.
Proof.
  destruct (key_eqb x y) eqn:Hxy, (key_eqb y x) eqn:Hyx; try reflexivity.
  - apply key_eqb_eq in Hxy. subst. rewrite key_eqb_refl in Hyx. discriminate.
  - apply key_eqb_eq in Hyx. subst. rewrite key_eqb_refl in Hxy. discriminate.
Qed.

Lemma sql_eq_sym (x y : Sql.cell) : Sql.sql_eq x y = Sql.sql_eq y x.
Proof.
  destruct x, y; simpl; try reflexivity. now rewrite key_eqb_sym.
Qed.

Lemma sql_and_comm (p q : option bool) : Sql.sql_and p q = Sql.sql_and q p.
Proof. destruct p as [[|]|], q as [[|]|]; reflexivity. Qed.

Lemma key_pair_fact (factCol mapCol : string) (f m : Sql.cell) :
  Sql.key_pair factCol mapCol f m ("fact." ++ factCol) = Some f.
Proof. unfold Sql.key_pair. now rewrite String.eqb_refl. Qed.

Lemma key_pair_map (factCol mapCol : string) (f m : Sql.cell) :
  Sql.key_pair factCol mapCol f m ("map." ++ mapCol) = Some m.
Proof. unfold Sql.key_pair. simpl. now rewrite String.eqb_refl. Qed.

Lemma holds_null_safe (f m : Sql.cell) :
  match Sql.sql_or (Sql.sql_eq f m)
                   (Sql.sql_and (Some (match f with None => true | Some _ => false end))
                                (Some (match m with None => true | Some _ => false end)))
  with Some true => true | _ => false end = true
  <-> (exists v, f = Some v /\ m = Some v) \/ (f = None /\ m = None).
Proof.
  destruct f as [u|], m as [v|]; simpl.
  - destruct (key_eqb u v) eqn:Huv; simpl.
    + apply key_eqb_eq in Huv. subst. split; [intros _; left; now exists v | reflexivity].
    + split; [discriminate |].
      intros [[w [Hu Hv]] | [Hu _]]; [| discriminate].
      injection Hu as ->. injection Hv as ->.
      rewrite key_eqb_refl in Huv. discriminate.
  - split; [discriminate |]. intros [[w [_ Hv]] | [Hu _]]; discriminate.
  - split; [discriminate |]. intros [[w [Hu _]] | [_ Hv]]; discriminate.
  - split; [intros _; now right | reflexivity].
Qed.

(** C8.  On a left row whose key is [f] and a lookup row whose key is [m],
    the condition [simpleMap] joins on is TRUE exactly when the two keys
    are the same value or are both NULL. *)
Theorem simpleMap_join_condition_null_safe (joinCol : string) (f m : Sql.cell) :
  Sql.holds (Sql.key_pair joinCol joinCol f m) (simpleMap_join_condition joinCol) = true
  <-> (exists v, f = Some v /\ m = Some v) \/ (f = None /\ m = None).
Proof.
  unfold Sql.holds, simpleMap_join_condition. cbn [Sql.eval].
  rewrite key_pair_fact, key_pair_map.
  rewrite <- (holds_null_safe f m), sql_eq_sym, sql_and_comm.
  destruct f, m; reflexivity.
Qed.

Lemma sql_join_condition_eval (joinCol : string) (row : string -> option Sql.cell) :
  Sql.eval row (sql_join_condition joinCol joinCol)
  = Sql.eval row (simpleMap_join_condition joinCol).
Proof.
  unfold sql_join_condition, simpleMap_join_condition. cbn [Sql.eval].
  destruct (row ("fact." ++ joinCol)) as [[u|]|], (row ("map." ++ joinCol)) as [[v|]|];
    simpl; try reflexivity.
  now rewrite key_eqb_sym.
Qed.

Lemma sql_join_condition_holds (joinCol : string) (f m : Sql.cell) :
  Sql.holds (Sql.key_pair joinCol joinCol f m) (sql_join_condition joinCol joinCol) = true
  <-> (exists v, f = Some v /\ m = Some v) \/ (f = None /\ m = None).
Proof.
  unfold Sql.holds, sql_join_condition. cbn [Sql.eval].
  rewrite key_pair_fact, key_pair_map.
  rewrite <- (holds_null_safe f m).
  destruct f, m; reflexivity.
Qed.

End JoinCondition.

(** ** Projection list of the join *)

Lemma bind_ret {A B} (x : A) (k : A -> M B) : bind (ret x) k = k x.
Proof. unfold bind, ret. destruct (k x). reflexivity. Qed.

Lemma bind_lift_inr {A B} (x : A) (k : A -> M B) : bind (lift (inr x)) k = k x.
Proof. unfold bind, lift. destruct (k x). reflexivity. Qed.

Lemma bind_lift_inl {A B} (e : exn) (k : A -> M B) : bind (lift (inl e)) k = ([], inl e).
Proof. reflexivity. Qed.

Lemma has_char_fact (c : string) : Py.has_char "."%char ("fact." ++ c) = true.
Proof. reflexivity. Qed.

Lemma has_char_map (c : string) : Py.has_char "."%char ("map." ++ c) = true.
Proof. reflexivity. Qed.

Lemma alias_more_qualified (mapColumns : list string) (c : string) :
  Py.has_char "."%char c = true -> alias_more mapColumns c = c.
Proof. intros H. unfold alias_more. now rewrite H. Qed.

Lemma alias_more_nil (c : string) : alias_more [] c = c.
Proof. unfold alias_more. simpl. now rewrite andb_false_r. Qed.

(** [insertColumnAndAlias] never raises; with [valColumn] among the columns
    and [indexColumn] not, it returns [select_list]. *)
Lemma insertColumnAndAlias_select_list
      (columns : list string) (valColumn indexColumn : string) (mapColumns : list string) :
  In valColumn columns -> ~ In indexColumn columns ->
  exists notes,
    insertColumnAndAlias columns valColumn indexColumn (Some mapColumns)
    = (notes, inr (select_list columns valColumn indexColumn mapColumns)).
Proof.
  intros Hval Hidx.
  assert (Hne : indexColumn <> valColumn) by (intros ->; contradiction).
  unfold insertColumnAndAlias.
  rewrite (insertValueIntoList_new_absent _ _ _ Hval Hidx).
  set (aliased := map (alias_column valColumn indexColumn) _).
  assert (Hmore : map (alias_more mapColumns) aliased
                  = select_list columns valColumn indexColumn mapColumns).
  { unfold aliased, select_list, replaceValueInList.
    rewrite !map_app, !map_map. cbn [map]. f_equal.
    - apply map_ext_in. intros c Hc. unfold alias_column.
      destruct (String.eqb c valColumn) eqn:Hcv.
      + apply String.eqb_neq in Hne. rewrite Hne, String.eqb_refl.
        apply alias_more_qualified, has_char_map.
      + rewrite Hcv.
        assert (Hci : String.eqb c indexColumn = false).
        { apply String.eqb_neq. intros ->. contradiction. }
        now rewrite Hci.
    - unfold alias_column. rewrite String.eqb_refl.
      now rewrite alias_more_qualified by apply has_char_fact. }
  destruct mapColumns as [|mc mcs].
  - exists []. unfold ret. f_equal. f_equal.
    rewrite <- Hmore. rewrite <- (map_id aliased) at 1.
    apply map_ext. intros c. now rewrite alias_more_nil.
  - cbv match. rewrite Hmore.
    destruct (list_eq_dec string_dec _ aliased) as [Heq | Hneq]; simpl.
    + exists []. unfold ret. now rewrite Heq.
    + exists [PrintList (select_list columns valColumn indexColumn (mc :: mcs))].
      reflexivity.
Qed.

(** ** The integrity-checked join *)

Section SimpleMapProperties.

Context {E : Engine}.

Variables factDF metadataDF : DataFrame.
Variables joinCol joinType : string.

(** The lookup has a first column, the surrogate key [indexCol], and the
    projection onto [indexCol, joinCol] resolves. *)
Variables (indexCol : string) (rest : list string) (theMap : DataFrame).
Hypothesis lookup_columns : columns metadataDF = indexCol :: rest.
Hypothesis lookup_select : select [indexCol; joinCol] metadataDF = inr theMap.

Lemma simpleMap_start :
  simpleMap factDF metadataDF joinCol joinType
  = if negb (Py.contains (columns factDF) joinCol) then
      if Py.contains (columns factDF) indexCol then
        print (PrintStr (joinCol ++ " not in factDF - already replaced by " ++ indexCol)) ;;;
        ret factDF
      else raise (Raised Exception [joinCol ++ " not in factDF"])
    else if Py.contains (columns factDF) indexCol then
      raise (Raised Exception [indexCol ++ " already in factDF. This shouldn't happen"])
    else
      simpleMap_join factDF (alias "fact" factDF) (alias "map" theMap)
                     (columns factDF) indexCol joinCol joinType.
Proof.
  unfold simpleMap, first_column. rewrite lookup_columns, bind_ret.
  rewrite lookup_select, bind_lift_inr, columns_alias. reflexivity.
Qed.

Lemma simpleMap_noop :
  ~ In joinCol (columns factDF) -> In indexCol (columns factDF) ->
  simpleMap factDF metadataDF joinCol joinType
  = ([PrintStr (joinCol ++ " not in factDF - already replaced by " ++ indexCol)],
     inr factDF).
Proof.
  intros Hj Hi. rewrite simpleMap_start.
  apply contains_not_In in Hj. apply contains_In in Hi. rewrite Hj, Hi. reflexivity.
Qed.

Lemma simpleMap_missing :
  ~ In joinCol (columns factDF) -> ~ In indexCol (columns factDF) ->
  simpleMap factDF metadataDF joinCol joinType
  = ([], inl (Raised Exception [joinCol ++ " not in factDF"])).
Proof.
  intros Hj Hi. rewrite simpleMap_start.
  apply contains_not_In in Hj, Hi. rewrite Hj, Hi. reflexivity.
Qed.

Lemma simpleMap_collision :
  In joinCol (columns factDF) -> In indexCol (columns factDF) ->
  simpleMap factDF metadataDF joinCol joinType
  = ([], inl (Raised Exception [indexCol ++ " already in factDF. This shouldn't happen"])).
Proof.
  intros Hj Hi. rewrite simpleMap_start.
  apply contains_In in Hj, Hi. rewrite Hj, Hi. reflexivity.
Qed.

Lemma simpleMap_proceeds :
  In joinCol (columns factDF) -> ~ In indexCol (columns factDF) ->
  simpleMap factDF metadataDF joinCol joinType
  = simpleMap_join factDF (alias "fact" factDF) (alias "map" theMap)
                   (columns factDF) indexCol joinCol joinType.
Proof.
  intros Hj Hi. rewrite simpleMap_start.
  apply contains_In in Hj. apply contains_not_In in Hi. rewrite Hj, Hi. reflexivity.
Qed.

(** C3.  With the lookup's first column as surrogate key: no join column
    but the surrogate key in the left columns returns the left frame as
    it is (after a notice); neither of them raises an exception naming
    the join column; both of them raises the "already in factDF"
    exception; the join column without the surrogate key goes on to the
    join. *)
Theorem simpleMap_dispatch :
  (~ In joinCol (columns factDF) -> In indexCol (columns factDF) ->
   simpleMap factDF metadataDF joinCol joinType
   = ([PrintStr (joinCol ++ " not in factDF - already replaced by " ++ indexCol)],
      inr factDF))
  /\ (~ In joinCol (columns factDF) -> ~ In indexCol (columns factDF) ->
      simpleMap factDF metadataDF joinCol joinType
      = ([], inl (Raised Exception [joinCol ++ " not in factDF"])))
  /\ (In joinCol (columns factDF) -> In indexCol (columns factDF) ->
      simpleMap factDF metadataDF joinCol joinType
      = ([], inl (Raised Exception
                         [indexCol ++ " already in factDF. This shouldn't happen"])))
  /\ (In joinCol (columns factDF) -> ~ In indexCol (columns factDF) ->
      simpleMap factDF metadataDF joinCol joinType
      = simpleMap_join factDF (alias "fact" factDF) (alias "map" theMap)
                       (columns factDF) indexCol joinCol joinType).
Proof.
  split; [| split; [| split]].
  - apply simpleMap_noop.
  - apply simpleMap_missing.
  - apply simpleMap_collision.
  - apply simpleMap_proceeds.
Qed.

Lemma simpleMap_join_run (notes : list output) (selectCols : list string)
      (joined out : DataFrame) :
  insertColumnAndAlias (columns factDF) joinCol indexCol
                       (Some (columns (alias "map" theMap)))
  = (notes, inr selectCols) ->
  join (alias "fact" factDF) (hint "broadcast" (alias "map" theMap))
       (simpleMap_join_condition joinCol) joinType = inr joined ->
  select selectCols joined = inr out ->
  simpleMap_join factDF (alias "fact" factDF) (alias "map" theMap)
                 (columns factDF) indexCol joinCol joinType
  = if count factDF =? count out
    then (notes, inr out)
    else ((notes ++ violation_report joinCol (count factDF) (count out))%list,
          inl (Raised ValueError [])).
Proof.
  intros Hcols Hjoin Hsel. unfold simpleMap_join.
  rewrite Hcols. unfold bind at 1. rewrite Hjoin, bind_lift_inr, Hsel, bind_lift_inr.
  destruct (count factDF =? count out); simpl.
  - now rewrite app_nil_r.
  - reflexivity.
Qed.

(** C1 (amended).  Past the precondition checks, with the join and the
    projection done by the engine: when the row counts differ the call
    prints the join column with both counts and raises a bare
    [ValueError], which has no arguments; when they are equal it returns
    the projected join. *)
Theorem simpleMap_count_check (joined out : DataFrame) :
  In joinCol (columns factDF) -> ~ In indexCol (columns factDF) ->
  join (alias "fact" factDF) (hint "broadcast" (alias "map" theMap))
       (simpleMap_join_condition joinCol) joinType = inr joined ->
  select (select_list (columns factDF) joinCol indexCol (columns (alias "map" theMap)))
         joined = inr out ->
  let notes :=
    fst (insertColumnAndAlias (columns factDF) joinCol indexCol
                              (Some (columns (alias "map" theMap)))) in
  (count factDF <> count out ->
   simpleMap factDF metadataDF joinCol joinType
   = ((notes ++ violation_report joinCol (count factDF) (count out))%list,
      inl (Raised ValueError [])))
  /\ (count factDF = count out ->
      simpleMap factDF metadataDF joinCol joinType = (notes, inr out)).
Proof.
  intros Hj Hi Hjoin Hsel notes.
  destruct (insertColumnAndAlias_select_list
              (columns factDF) joinCol indexCol (columns (alias "map" theMap)) Hj Hi)
    as [notes' Hcols].
  assert (Hnotes : notes = notes') by (unfold notes; now rewrite Hcols).
  rewrite Hnotes.
  rewrite (simpleMap_proceeds Hj Hi), (simpleMap_join_run _ _ _ _ Hcols Hjoin Hsel).
  split; intros Hcount.
  - apply Nat.eqb_neq in Hcount. now rewrite Hcount.
  - apply Nat.eqb_eq in Hcount. now rewrite Hcount.
Qed.

(** C2 (amended).  A successful join of a left frame that has the join
    column and not the surrogate key is the engine's projection of the
    join onto [select_list]: the left columns in order, with
    [map.<surrogate key>] wherever the join column stood, followed by
    [fact.<join column>]; the join column is selected, not dropped. *)
Theorem simpleMap_selected_columns (log : list output) (out : DataFrame) :
  In joinCol (columns factDF) -> ~ In indexCol (columns factDF) ->
  simpleMap factDF metadataDF joinCol joinType = (log, inr out) ->
  exists joined,
    join (alias "fact" factDF) (hint "broadcast" (alias "map" theMap))
         (simpleMap_join_condition joinCol) joinType = inr joined
    /\ select (select_list (columns factDF) joinCol indexCol
                           (columns (alias "map" theMap))) joined = inr out
    /\ last (select_list (columns factDF) joinCol indexCol
                         (columns (alias "map" theMap))) "" = "fact." ++ joinCol
    /\ count out = count factDF.
Proof.
  intros Hj Hi Hrun. rewrite (simpleMap_proceeds Hj Hi) in Hrun.
  destruct (insertColumnAndAlias_select_list
              (columns factDF) joinCol indexCol (columns (alias "map" theMap)) Hj Hi)
    as [notes Hcols].
  destruct (join (alias "fact" factDF) (hint "broadcast" (alias "map" theMap))
                 (simpleMap_join_condition joinCol) joinType) as [e | joined] eqn:Hjoin.
  - unfold simpleMap_join in Hrun. rewrite Hcols in Hrun. unfold bind at 1 in Hrun.
    rewrite Hjoin, bind_lift_inl in Hrun. simpl in Hrun. discriminate.
  - destruct (select (select_list (columns factDF) joinCol indexCol
                                  (columns (alias "map" theMap))) joined)
      as [e | out'] eqn:Hsel.
    + unfold simpleMap_join in Hrun. rewrite Hcols in Hrun. unfold bind at 1 in Hrun.
      rewrite Hjoin, bind_lift_inr, Hsel, bind_lift_inl in Hrun. simpl in Hrun.
      discriminate.
    + rewrite (simpleMap_join_run _ _ _ _ Hcols Hjoin Hsel) in Hrun.
      destruct (count factDF =? count out') eqn:Hcount; [| discriminate].
      injection Hrun as _ ->. apply Nat.eqb_eq in Hcount.
      exists joined. repeat split; auto.
      unfold select_list. apply last_last.
Qed.

End SimpleMapProperties.

(** ** The join on the reference engine *)

Lemma simpleMap_dispatch_witness :
  simpleMap Fixtures.fact_done Fixtures.statuses "status" "inner"
  = ([PrintStr "status not in factDF - already replaced by status_id"],
     inr Fixtures.fact_done)
  /\ simpleMap Fixtures.fact Fixtures.levels "level" "inner"
     = ([], inl (Raised Exception ["level not in factDF"]))
  /\ simpleMap Fixtures.fact_both Fixtures.statuses "status" "inner"
     = ([], inl (Raised Exception ["status_id already in factDF. This shouldn't happen"]))
  /\ simpleMap Fixtures.fact Fixtures.statuses "status" "inner"
     = simpleMap_join Fixtures.fact (alias "fact" Fixtures.fact)
                      (alias "map" Fixtures.statuses)
                      ["id"; "status"; "unit"] "status_id" "status" "inner".
Proof.
  split; [| split; [| split]].
  - refine (proj1 (simpleMap_dispatch
                     Fixtures.fact_done Fixtures.statuses "status" "inner"
                     "status_id" ["status"] Fixtures.statuses eq_refl eq_refl) _ _).
    + list_not_in.
    + list_in.
  - refine (proj1 (proj2 (simpleMap_dispatch
                            Fixtures.fact Fixtures.levels "level" "inner"
                            "level_id" ["level"] Fixtures.levels eq_refl eq_refl)) _ _).
    + list_not_in.
    + list_not_in.
  - refine (proj1 (proj2 (proj2 (simpleMap_dispatch
                                   Fixtures.fact_both Fixtures.statuses "status" "inner"
                                   "status_id" ["status"] Fixtures.statuses
                                   eq_refl eq_refl))) _ _).
    + list_in.
    + list_in.
  - refine (proj2 (proj2 (proj2 (simpleMap_dispatch
                                   Fixtures.fact Fixtures.statuses "status" "inner"
                                   "status_id" ["status"] Fixtures.statuses
                                   eq_refl eq_refl))) _ _).
    + list_in.
    + list_not_in.
Defined.

Lemma simpleMap_count_check_witness :
  simpleMap Fixtures.fact Fixtures.statuses_dup "status" "inner"
  = (violation_report "status" 3 4, inl (Raised ValueError []))
  /\ fst (simpleMap Fixtures.fact Fixtures.statuses "status" "left") = [].
Proof.
  split.
  - refine (proj1 (simpleMap_count_check
                     Fixtures.fact Fixtures.statuses_dup "status" "inner"
                     "status_id" ["status"] Fixtures.statuses_dup eq_refl eq_refl
                     (match join (alias "fact" Fixtures.fact)
                                 (hint "broadcast" (alias "map" Fixtures.statuses_dup))
                                 (simpleMap_join_condition "status") "inner"
                      with inr j => j | inl _ => Fixtures.fact end)
                     {| ListEngine.cols :=
                          [(Some "fact", "id"); (Some "map", "status_id");
                           (Some "fact", "unit"); (Some "fact", "status")];
                        ListEngine.rows :=
                          [ [Some "1"; Some "10"; Some "U1"; Some "Completed"];
                            [Some "1"; Some "11"; Some "U1"; Some "Completed"];
                            [Some "2"; Some "20"; Some "U2"; Some "Enrolled"];
                            [Some "3"; Some "30"; Some "U1"; None] ] |}
                     _ _ _ _) _).
    + list_in.
    + list_not_in.
    + vm_compute. reflexivity.
    + vm_compute. reflexivity.
    + vm_compute. discriminate.
  - refine (f_equal fst
              (proj2 (simpleMap_count_check
                        Fixtures.fact Fixtures.statuses "status" "left"
                        "status_id" ["status"] Fixtures.statuses eq_refl eq_refl
                        (match join (alias "fact" Fixtures.fact)
                                    (hint "broadcast" (alias "map" Fixtures.statuses))
                                    (simpleMap_join_condition "status") "left"
                         with inr j => j | inl _ => Fixtures.fact end)
                        {| ListEngine.cols :=
                             [(Some "fact", "id"); (Some "map", "status_id");
                              (Some "fact", "unit"); (Some "fact", "status")];
                           ListEngine.rows :=
                             [ [Some "1"; Some "10"; Some "U1"; Some "Completed"];
                               [Some "2"; Some "20"; Some "U2"; Some "Enrolled"];
                               [Some "3"; Some "30"; Some "U1"; None] ] |}
                        _ _ _ _) _)).
    + list_in.
    + list_not_in.
    + vm_compute. reflexivity.
    + vm_compute. reflexivity.
    + vm_compute. reflexivity.
Defined.

(** C1 as written fails: a fan-out in the lookup (two rows for one status)
    makes the counts differ, and the exception raised has no arguments, so
    it carries neither the join column nor a count; these are printed. *)
Lemma simpleMap_violation_carries_nothing :
  exists log e,
    simpleMap Fixtures.fact Fixtures.statuses_dup "status" "inner" = (log, inl e)
    /\ count Fixtures.fact = 3
    /\ exn_args e = []
    /\ exn_carries e "status" = false
    /\ exn_carries e (Py.str_nat 3) = false
    /\ exn_carries e (Py.str_nat 4) = false
    /\ In (PrintStr "status : 3 - 4") log.
Proof.
  eexists. eexists. split; [vm_compute; reflexivity |].
  repeat split; try reflexivity.
  list_in.
Qed.

Lemma simpleMap_selected_columns_witness :
  exists joined,
    join (alias "fact" Fixtures.fact) (hint "broadcast" (alias "map" Fixtures.statuses))
         (simpleMap_join_condition "status") "inner" = inr joined
    /\ select ["id"; "map.status_id"; "unit"; "fact.status"] joined
       = snd (simpleMap Fixtures.fact Fixtures.statuses "status" "inner")
    /\ last ["id"; "map.status_id"; "unit"; "fact.status"] "" = "fact.status"
    /\ count (match snd (simpleMap Fixtures.fact Fixtures.statuses "status" "inner")
              with inr out => out | inl _ => Fixtures.fact end) = 3.
Proof.
  refine (simpleMap_selected_columns
            Fixtures.fact Fixtures.statuses "status" "inner"
            "status_id" ["status"] Fixtures.statuses eq_refl eq_refl
            []
            (match snd (simpleMap Fixtures.fact Fixtures.statuses "status" "inner")
             with inr out => out | inl _ => Fixtures.fact end)
            _ _ _).
  - list_in.
  - list_not_in.
  - vm_compute. reflexivity.
Defined.

(** C2 as written fails: after a successful join the join column is still
    a column of the result, as its last column. *)
Lemma simpleMap_keeps_join_column :
  exists log out,
    simpleMap Fixtures.fact Fixtures.statuses "status" "inner" = (log, inr out)
    /\ columns out = ["id"; "status_id"; "unit"; "status"]
    /\ In "status" (columns out)
    /\ columns out <> Spec.joined_columns (columns Fixtures.fact) "status" "status_id".
Proof.
  eexists. eexists. split; [vm_compute; reflexivity |].
  split; [reflexivity |]. split.
  - list_in.
  - vm_compute. discriminate.
Qed.

(** The row whose status is NULL is joined to the lookup row whose status is
    NULL, and no row is lost. *)
Example simpleMap_null_keys_match :
  exists log out,
    simpleMap Fixtures.fact Fixtures.statuses "status" "inner" = (log, inr out)
    /\ ListEngine.rows out
       = [ [Some "1"; Some "10"; Some "U1"; Some "Completed"];
           [Some "2"; Some "20"; Some "U2"; Some "Enrolled"];
           [Some "3"; Some "30"; Some "U1"; None] ].
Proof.
  eexists. eexists. split; vm_compute; reflexivity.
Qed.

(** ** Title-casing *)

Lemma to_lower_idem (c : ascii) : Py.to_lower (Py.to_lower c) = Py.to_lower c.
Proof. destruct c as [[] [] [] [] [] [] [] []]; reflexivity. Qed.

Lemma to_upper_idem (c : ascii) : Py.to_upper (Py.to_upper c) = Py.to_upper c.
Proof. destruct c as [[] [] [] [] [] [] [] []]; reflexivity. Qed.

Lemma is_cased_to_lower (c : ascii) : Py.is_cased (Py.to_lower c) = Py.is_cased c.
Proof. destruct c as [[] [] [] [] [] [] [] []]; reflexivity. Qed.

Lemma is_cased_to_upper (c : ascii) : Py.is_cased (Py.to_upper c) = Py.is_cased c.
Proof. destruct c as [[] [] [] [] [] [] [] []]; reflexivity. Qed.

Lemma title_from_idem (s : string) :
  forall previous_is_cased,
    Py.title_from previous_is_cased (Py.title_from previous_is_cased s)
    = Py.title_from previous_is_cased s.
Proof.
  induction s as [|c rest IH]; intros p; simpl.
  - reflexivity.
  - destruct p.
    + now rewrite to_lower_idem, is_cased_to_lower, IH.
    + now rewrite to_upper_idem, is_cased_to_upper, IH.
Qed.

Lemma title_idem (s : string) : Py.title (Py.title s) = Py.title s.
Proof. apply title_from_idem. Qed.

Lemma title_empty_iff (s : string) : Py.title s = "" <-> s = "".
Proof.
  destruct s; simpl; split; intros H; try reflexivity; discriminate.
Qed.

Lemma str_nonempty (value : Py.pyval) : Py.truthy value = true -> Py.str value <> "".
Proof.
  destruct value as [| s | z | b]; simpl; intros H.
  - discriminate.
  - apply negb_true_iff, String.eqb_neq in H. exact H.
  - destruct (Z.to_int z) as [d | d]; simpl.
    + destruct d; discriminate.
    + discriminate.
  - subst. discriminate.
Qed.

Lemma fixDodgyThing_value_nonempty (value : Py.pyval) : fixDodgyThing_value value <> "".
Proof.
  destruct (Py.truthy value) eqn:H.
  - rewrite (fixDodgyThing_value_truthy _ H), title_empty_iff. now apply str_nonempty.
  - rewrite (fixDodgyThing_value_falsy _ H). discriminate.
Qed.

(** ** The sequence matcher: blocks stay inside their window *)

Section MatcherBounds.

Import Difflib DifflibInv.

Variables a b : list ascii.

Lemma dict_get_bounded (alo blo i : nat) (d : dict) (j : nat) :
  row_bounded alo blo i d ->
  dict_get d j <= i - alo /\ dict_get d j <= j + 1 - blo.
Proof.
  intros Hd. unfold dict_get.
  destruct (find (fun p => fst p =? j) d) as [p|] eqn:Hfind.
  - apply find_some in Hfind. destruct Hfind as [Hin Hkey].
    apply Nat.eqb_eq in Hkey. subst j.
    unfold row_bounded in Hd. rewrite Forall_forall in Hd. now apply Hd.
  - lia.
Qed.

Lemma flm_row_bounds (alo i blo bhi : nat) (j2len : dict) :
  alo <= i ->
  row_bounded alo blo i j2len ->
  forall js newj2len best,
    row_bounded alo blo (S i) newj2len ->
    in_window alo (S i) blo bhi best ->
    row_bounded alo blo (S i) (fst (flm_row i blo bhi j2len js newj2len best))
    /\ in_window alo (S i) blo bhi (snd (flm_row i blo bhi j2len js newj2len best)).
Proof.
  intros Hi Hd. induction js as [|j rest IH]; intros newj2len best Hnew Hbest.
  - simpl. auto.
  - simpl. destruct (j <? blo) eqn:Hlo; [now apply IH |].
    destruct (bhi <=? j) eqn:Hhi; [simpl; auto |].
    apply Nat.ltb_ge in Hlo. apply Nat.leb_gt in Hhi.
    destruct best as [[besti bestj] bestsize].
    set (k := (match j with O => 0 | S j' => dict_get j2len j' end) + 1).
    assert (Hk : k <= S i - alo /\ k <= j + 1 - blo).
    { unfold k. destruct j as [|j'].
      - lia.
      - destruct (dict_get_bounded alo blo i j2len j' Hd). lia. }
    clearbody k. apply IH.
    + constructor; [cbn [fst snd]; lia | exact Hnew].
    + destruct (bestsize <? k); [| exact Hbest].
      unfold in_window. lia.
Qed.

Lemma flm_rows_bounds (alo blo bhi : nat) :
  forall n i j2len best,
    alo <= i ->
    row_bounded alo blo i j2len ->
    in_window alo i blo bhi best ->
    in_window alo (i + n) blo bhi (flm_rows a b n i blo bhi j2len best).
Proof.
  induction n as [|n IH]; intros i j2len best Hi Hd Hbest; simpl.
  - now rewrite Nat.add_0_r.
  - assert (Hbest' : in_window alo (S i) blo bhi best).
    { destruct best as [[bi bj] bs]. unfold in_window in *. lia. }
    destruct (flm_row_bounds alo i blo bhi j2len Hi Hd
                             (b2j b (char_at a i)) [] best
                             (Forall_nil _) Hbest') as [Hd' Hb'].
    destruct (flm_row i blo bhi j2len (b2j b (char_at a i)) [] best)
      as [newj2len best'].
    replace (i + S n) with (S i + n) by lia.
    apply IH; [lia | exact Hd' | exact Hb'].
Qed.

Lemma extend_left_bounds (alo ahi blo bhi : nat) :
  forall n m,
    in_window alo ahi blo bhi m ->
    n <= fst (fst m) - alo ->
    in_window alo ahi blo bhi (extend_left a b n blo m).
Proof.
  induction n as [|n IH]; intros [[bi bj] bs] Hm Hn; simpl in *.
  - exact Hm.
  - destruct ((blo <? bj) && Ascii.eqb (char_at a (bi - 1)) (char_at b (bj - 1)))
             eqn:Hc; [| exact Hm].
    apply andb_true_iff in Hc. destruct Hc as [Hc _]. apply Nat.ltb_lt in Hc.
    apply IH; simpl; unfold in_window in *; lia.
Qed.

Lemma extend_right_bounds (alo ahi blo bhi : nat) :
  forall n m,
    in_window alo ahi blo bhi m ->
    n <= ahi - (fst (fst m) + snd m) ->
    in_window alo ahi blo bhi (extend_right a b n bhi m).
Proof.
  induction n as [|n IH]; intros [[bi bj] bs] Hm Hn; simpl in *.
  - exact Hm.
  - destruct ((bj + bs <? bhi)
              && Ascii.eqb (char_at a (bi + bs)) (char_at b (bj + bs)))
             eqn:Hc; [| exact Hm].
    apply andb_true_iff in Hc. destruct Hc as [Hc _]. apply Nat.ltb_lt in Hc.
    apply IH; simpl; unfold in_window in *; lia.
Qed.

Lemma find_longest_match_bounds (alo ahi blo bhi : nat) :
  alo <= ahi -> blo <= bhi ->
  in_window alo ahi blo bhi (find_longest_match a b alo ahi blo bhi).
Proof.
  intros Ha Hb. unfold find_longest_match.
  assert (H0 : in_window alo (alo + (ahi - alo)) blo bhi
                         (flm_rows a b (ahi - alo) alo blo bhi [] (alo, blo, 0))).
  { apply flm_rows_bounds; [lia | constructor | unfold in_window; lia]. }
  replace (alo + (ahi - alo)) with ahi in H0 by lia.
  destruct (flm_rows a b (ahi - alo) alo blo bhi [] (alo, blo, 0)) as [[bi bj] bs].
  assert (H1 := extend_left_bounds alo ahi blo bhi (bi - alo) (bi, bj, bs) H0 (le_n _)).
  destruct (extend_left a b (bi - alo) blo (bi, bj, bs)) as [[bi' bj'] bs'].
  apply extend_right_bounds; [exact H1 | simpl; lia].
Qed.

End MatcherBounds.

(** ** The sequence matcher: the work-list loop *)

Section MatcherLoop.

Import Difflib DifflibInv.

Variables a b : list ascii.

Lemma total_app (xs ys : list Match) : total (xs ++ ys) = total xs + total ys.
Proof.
  induction xs as [|x xs IH]; simpl; [reflexivity | rewrite IH; lia].
Qed.

Lemma queue_measure_cons (alo ahi blo bhi : nat) (queue : list range) :
  queue_measure ((alo, ahi, blo, bhi) :: queue)
  = 2 * (ahi - alo) + 1 + queue_measure queue.
Proof. reflexivity. Qed.

Lemma queue_width_a_cons (alo ahi blo bhi : nat) (queue : list range) :
  queue_width_a ((alo, ahi, blo, bhi) :: queue) = ahi - alo + queue_width_a queue.
Proof. reflexivity. Qed.

Lemma queue_width_b_cons (alo ahi blo bhi : nat) (queue : list range) :
  queue_width_b ((alo, ahi, blo, bhi) :: queue) = bhi - blo + queue_width_b queue.
Proof. reflexivity. Qed.

(** One iteration: what is pushed is well formed, costs less than the
    range popped, and covers no more than what the block left over. *)
Lemma matching_step (alo ahi blo bhi : nat) (queue : list range) :
  alo <= ahi -> blo <= bhi ->
  let '(i, j, k) := find_longest_match a b alo ahi blo bhi in
  k <> 0 ->
  let queue1 :=
    if (alo <? i) && (blo <? j) then (alo, i, blo, j) :: queue else queue in
  let queue2 :=
    if (i + k <? ahi) && (j + k <? bhi) then (i + k, ahi, j + k, bhi) :: queue1
    else queue1 in
  (Forall range_ok queue -> Forall range_ok queue2)
  /\ queue_measure queue2 + 1 <= 2 * (ahi - alo) + 1 + queue_measure queue
  /\ k + queue_width_a queue2 <= ahi - alo + queue_width_a queue
  /\ k + queue_width_b queue2 <= bhi - blo + queue_width_b queue.
Proof.
  intros Ha Hb.
  pose proof (find_longest_match_bounds a b alo ahi blo bhi Ha Hb) as Hw.
  destruct (find_longest_match a b alo ahi blo bhi) as [[i j] k].
  unfold in_window in Hw. intros Hk.
  destruct ((alo <? i) && (blo <? j)) eqn:H1;
    destruct ((i + k <? ahi) && (j + k <? bhi)) eqn:H2;
    cbv beta iota zeta;
    rewrite ?queue_measure_cons, ?queue_width_a_cons, ?queue_width_b_cons;
    (split; [intros Hq; repeat constructor; try exact Hq; unfold range_ok; lia |]);
    lia.
Qed.

(** The fuel given in [get_matching_blocks] is enough: the loop stops
    because the queue is empty. *)
Lemma matching_loop_done_gen :
  forall fuel queue blocks,
    Forall range_ok queue ->
    queue_measure queue <= fuel ->
    snd (matching_loop a b fuel queue blocks) = [].
Proof.
  induction fuel as [|fuel IH]; intros queue blocks Hok Hm.
  - destruct queue as [|[[[alo ahi] blo] bhi] queue]; [reflexivity |].
    rewrite queue_measure_cons in Hm. lia.
  - destruct queue as [|[[[alo ahi] blo] bhi] queue]; [reflexivity |].
    cbn [matching_loop].
    inversion Hok as [|r q Hr Hq]; subst. destruct Hr as [Ha Hb].
    pose proof (matching_step alo ahi blo bhi queue Ha Hb) as Hstep.
    rewrite queue_measure_cons in Hm.
    destruct (find_longest_match a b alo ahi blo bhi) as [[i j] k].
    destruct (k =? 0) eqn:Hk.
    + apply IH; [exact Hq | lia].
    + apply Nat.eqb_neq in Hk. destruct (Hstep Hk) as [Hok' [Hm' _]].
      apply IH; [now apply Hok' | lia].
Qed.

Lemma matching_loop_done :
  snd (matching_loop a b (2 * List.length a + 1)
                     [(0, List.length a, 0, List.length b)] []) = [].
Proof.
  apply matching_loop_done_gen.
  - repeat constructor; lia.
  - rewrite queue_measure_cons. cbn [queue_measure fold_right]. lia.
Qed.

(** The blocks found cover no more than the queued ranges do. *)
Lemma matching_loop_total :
  forall fuel queue blocks,
    Forall range_ok queue ->
    total (fst (matching_loop a b fuel queue blocks))
    <= total blocks + queue_width_a queue
    /\ total (fst (matching_loop a b fuel queue blocks))
       <= total blocks + queue_width_b queue.
Proof.
  induction fuel as [|fuel IH]; intros queue blocks Hok.
  - cbn [matching_loop fst]. lia.
  - destruct queue as [|[[[alo ahi] blo] bhi] queue];
      [cbn [matching_loop fst]; lia |].
    cbn [matching_loop].
    inversion Hok as [|r q Hr Hq]; subst. destruct Hr as [Ha Hb].
    pose proof (matching_step alo ahi blo bhi queue Ha Hb) as Hstep.
    rewrite queue_width_a_cons, queue_width_b_cons.
    destruct (find_longest_match a b alo ahi blo bhi) as [[i j] k].
    destruct (k =? 0) eqn:Hk.
    + destruct (IH queue blocks Hq). lia.
    + apply Nat.eqb_neq in Hk. destruct (Hstep Hk) as [Hok' [_ [Hwa Hwb]]].
      match goal with
      | |- context [matching_loop a b fuel ?q ?bl] =>
          destruct (IH q bl (Hok' Hq)) as [IHa IHb]
      end.
      rewrite total_app in IHa, IHb. cbn [total fold_right snd] in IHa, IHb.
      lia.
Qed.

Lemma matches_le : matches a b <= List.length a /\ matches a b <= List.length b.
Proof.
  unfold matches, get_matching_blocks.
  assert (Hok : Forall range_ok [(0, List.length a, 0, List.length b)])
    by (repeat constructor; lia).
  destruct (matching_loop_total (2 * List.length a + 1) _ [] Hok) as [Ha Hb].
  rewrite queue_width_a_cons in Ha. rewrite queue_width_b_cons in Hb.
  cbn [total queue_width_a queue_width_b fold_right] in Ha, Hb.
  unfold total in Ha, Hb. lia.
Qed.

End MatcherLoop.

(** ** Similarity against the empty string, and idempotence *)

Lemma matches_empty_r (a : list ascii) : Difflib.matches a [] = 0.
Proof. destruct (matches_le a []) as [_ H]. simpl in H. lia. Qed.

Lemma matches_empty_l (b : list ascii) : Difflib.matches [] b = 0.
Proof. destruct (matches_le [] b) as [H _]. simpl in H. lia. Qed.

Lemma list_ascii_nonempty (s : string) :
  s <> "" -> List.length (list_ascii_of_string s) <> 0.
Proof. destruct s; simpl; [congruence | discriminate]. Qed.

Lemma not_similar_to_empty (value : string) :
  value <> "" -> are_strings_similar value "" default_threshold = false.
Proof.
  intros Hne. unfold are_strings_similar, Difflib.ratio. simpl list_ascii_of_string.
  rewrite matches_empty_r, Nat.add_0_r. unfold Difflib.calculate_ratio.
  apply list_ascii_nonempty in Hne.
  destruct (List.length (list_ascii_of_string value) =? 0) eqn:H0.
  - apply Nat.eqb_eq in H0. contradiction.
  - reflexivity.
Qed.

(** A title-cased vocabulary entry given back as input comes out as it is. *)
Lemma fixDodgyThing_member (legit_values : legit) (l : string) :
  In l (vocabulary legit_values) -> l <> "" -> Py.title l = l ->
  fixDodgyThing (Py.PStr l) legit_values = l.
Proof.
  intros Hin Hne Htitle. rewrite fixDodgyThing_unfold.
  assert (Hv : fixDodgyThing_value (Py.PStr l) = l).
  { rewrite fixDodgyThing_value_truthy; [exact Htitle |].
    simpl. apply negb_true_iff, String.eqb_neq. exact Hne. }
  rewrite Hv. apply contains_In in Hin. rewrite Hin, andb_false_r. reflexivity.
Qed.

(** ASCII text stays ASCII. *)
Lemma isascii_case (c : ascii) (upper_case : bool) :
  (nat_of_ascii (if upper_case then Py.to_upper c else Py.to_lower c) <? 128)
  = (nat_of_ascii c <? 128).
Proof.
  destruct upper_case;
    destruct c as [[|] [|] [|] [|] [|] [|] [|] [|]]; vm_compute; reflexivity.
Qed.

Lemma isascii_title_from (previous_is_cased : bool) (s : string) :
  PyStr.isascii (Py.title_from previous_is_cased s) = PyStr.isascii s.
Proof.
  revert previous_is_cased. induction s as [|c s IH]; intros b; [reflexivity |].
  cbn [Py.title_from PyStr.isascii]. rewrite IH. f_equal.
  destruct b; [apply (isascii_case c false) | apply (isascii_case c true)].
Qed.

Lemma isascii_string_of_uint (d : Decimal.uint) :
  PyStr.isascii (NilEmpty.string_of_uint d) = true.
Proof. induction d; simpl; auto. Qed.

Lemma isascii_str (value : Py.pyval) :
  ascii_value value = true -> PyStr.isascii (Py.str value) = true.
Proof.
  destruct value as [| s | z | [|]]; simpl; try reflexivity; [tauto |].
  intros _. destruct (Z.to_int z) as [d | d]; simpl;
    destruct d; simpl; try reflexivity; apply isascii_string_of_uint.
Qed.

Lemma isascii_fixDodgyThing_value (value : Py.pyval) :
  ascii_value value = true -> PyStr.isascii (fixDodgyThing_value value) = true.
Proof.
  intros H. unfold fixDodgyThing_value, Py.title. rewrite isascii_title_from.
  destruct (negb (Py.truthy value)); [reflexivity |].
  destruct value; try exact H; now apply (isascii_str _ H).
Qed.

(** C7 (amended).  On ASCII text, when every vocabulary entry is its own
    title-cased form, normalizing a result again changes nothing, the
    result being ASCII text again, and every non-empty vocabulary entry is
    returned as it is. *)
Theorem fixDodgyThing_idempotent (value : Py.pyval) (legit_values : legit) :
  ascii_value value = true ->
  (forall l, In l (vocabulary legit_values) -> PyStr.isascii l = true) ->
  (forall l, In l (vocabulary legit_values) -> Py.title l = l) ->
  fixDodgyThing (Py.PStr (fixDodgyThing value legit_values)) legit_values
  = fixDodgyThing value legit_values
  /\ PyStr.isascii (fixDodgyThing value legit_values) = true
  /\ (forall l, In l (vocabulary legit_values) -> l <> "" ->
                fixDodgyThing (Py.PStr l) legit_values = l).
Proof.
  intros Hascii Hvocabulary Htitled.
  set (t := fixDodgyThing_value value).
  assert (Ht : t <> "") by apply fixDodgyThing_value_nonempty.
  assert (Hta : PyStr.isascii t = true) by now apply isascii_fixDodgyThing_value.
  split; [| split].
  - assert (Htt : fixDodgyThing_value (Py.PStr t) = t).
    { rewrite fixDodgyThing_value_truthy.
      - unfold t, fixDodgyThing_value. apply title_idem.
      - simpl. apply negb_true_iff, String.eqb_neq. exact Ht. }
    rewrite (fixDodgyThing_unfold value). fold t.
    destruct (negb (List.length (vocabulary legit_values) =? 0)
              && negb (Py.contains (vocabulary legit_values) t)) eqn:Hbranch.
    + destruct (fixDodgyThing_scan_result t (vocabulary legit_values))
        as [Hsame | [Hin Hsim]].
      * rewrite Hsame, fixDodgyThing_unfold, Htt, Hbranch. exact Hsame.
      * apply fixDodgyThing_member; [exact Hin | | now apply Htitled].
        intros Hempty. rewrite Hempty in Hsim.
        rewrite (not_similar_to_empty t Ht) in Hsim. discriminate.
    + rewrite fixDodgyThing_unfold, Htt, Hbranch. reflexivity.
  - rewrite fixDodgyThing_unfold. fold t.
    destruct (negb (List.length (vocabulary legit_values) =? 0)
              && negb (Py.contains (vocabulary legit_values) t)); [| exact Hta].
    destruct (fixDodgyThing_scan_result t (vocabulary legit_values))
      as [Hsame | [Hin _]]; [now rewrite Hsame | now apply Hvocabulary].
  - intros l Hin Hne. apply fixDodgyThing_member; auto.
Qed.

Lemma fixDodgyThing_idempotent_witness :
  fixDodgyThing (Py.PStr (fixDodgyStatuses (Py.PStr "completd")))
                (LegitList ["Completed"; "Discontinued"; "Enrolled"])
  = fixDodgyStatuses (Py.PStr "completd").
Proof.
  refine (proj1 (fixDodgyThing_idempotent
                   (Py.PStr "completd")
                   (LegitList ["Completed"; "Discontinued"; "Enrolled"]) _ _ _)).
  - reflexivity.
  - simpl. intros l [<- | [<- | [<- | []]]]; reflexivity.
  - simpl. intros l [<- | [<- | [<- | []]]]; reflexivity.
Defined.

(** C7 as written fails for a vocabulary with an entry that is not
    title-cased: the first pass returns that entry, the second pass
    title-cases it and finds another entry. *)
Lemma fixDodgyThing_not_idempotent :
  fixDodgyThing (Py.PStr "completd") (LegitList ["completed"; "Completed"]) = "completed"
  /\ fixDodgyThing
       (Py.PStr (fixDodgyThing (Py.PStr "completd") (LegitList ["completed"; "Completed"])))
       (LegitList ["completed"; "Completed"]) = "Completed"
  /\ fixDodgyThing
       (Py.PStr (fixDodgyThing (Py.PStr "completd") (LegitList ["completed"; "Completed"])))
       (LegitList ["completed"; "Completed"])
     <> fixDodgyThing (Py.PStr "completd") (LegitList ["completed"; "Completed"]).
Proof.
  repeat split; vm_compute; try reflexivity; discriminate.
Qed.

(** ** The sequence matcher on identical sequences *)

Section MatcherDiagonal.

Import Difflib DifflibInv.

Variable a : list ascii.

Lemma b2j_popular (c : ascii) :
  b2j a c = if popular a c then [] else indices_of c a 0.
Proof. reflexivity. Qed.

Lemma indices_of_In (c : ascii) :
  forall l off p,
    In p (indices_of c l off) ->
    off <= p /\ p < off + List.length l /\ char_at l (p - off) = c.
Proof.
  induction l as [|x l IH]; intros off p Hin; simpl in Hin.
  - contradiction.
  - destruct (Ascii.eqb x c) eqn:Hx.
    + destruct Hin as [<- | Hin].
      * apply Ascii.eqb_eq in Hx. rewrite Nat.sub_diag. simpl. split; [lia | split; [lia | exact Hx]].
      * destruct (IH (S off) p Hin) as [H1 [H2 H3]]. simpl.
        split; [lia | split; [lia |]].
        replace (p - off) with (S (p - S off)) by lia. exact H3.
    + destruct (IH (S off) p Hin) as [H1 [H2 H3]]. simpl.
      split; [lia | split; [lia |]].
      replace (p - off) with (S (p - S off)) by lia. exact H3.
Qed.

Lemma indices_of_lower (c : ascii) (l : list ascii) (off : nat) :
  Forall (fun p => off <= p) (indices_of c l off).
Proof.
  apply Forall_forall. intros p Hp. now apply indices_of_In in Hp.
Qed.

(** The positions of [l[i]] in [l], split around [i]. *)
Lemma indices_of_split (c : ascii) :
  forall l off i,
    i < List.length l -> char_at l i = c ->
    exists pre post,
      indices_of c l off = (pre ++ (off + i) :: post)%list
      /\ Forall (fun p => p < off + i) pre
      /\ Forall (fun p => off + i < p) post.
Proof.
  induction l as [|x l IH]; intros off i Hi Hc; simpl in Hi.
  - lia.
  - destruct i as [|i].
    + unfold char_at in Hc. simpl in Hc. subst x. simpl. rewrite Ascii.eqb_refl.
      exists [], (indices_of c l (S off)). rewrite Nat.add_0_r.
      split; [reflexivity | split; [constructor |]].
      eapply Forall_impl; [| apply indices_of_lower]. simpl. intros p Hp. lia.
    + destruct (IH (S off) i) as [pre [post [Heq [Hpre Hpost]]]]; [lia | exact Hc |].
      replace (S off + i) with (off + S i) in * by lia.
      simpl. destruct (Ascii.eqb x c).
      * exists (off :: pre), post. rewrite Heq.
        split; [reflexivity | split; [constructor; [lia | exact Hpre] | exact Hpost]].
      * exists pre, post. auto.
Qed.

Lemma dict_get_cons_same (j k : nat) (d : dict) : dict_get ((j, k) :: d) j = k.
Proof. unfold dict_get. simpl. now rewrite Nat.eqb_refl. Qed.

Lemma dict_get_skip (j : nat) (front d : dict) :
  Forall (fun p => fst p <> j) front ->
  dict_get (front ++ d)%list j = dict_get d j.
Proof.
  induction front as [|p front IH]; intros H; [reflexivity |].
  inversion H as [|p' f' Hp Hf]; subst. unfold dict_get in *. simpl.
  apply Nat.eqb_neq in Hp. rewrite Hp. now apply IH.
Qed.

Lemma dict_get_le (X j : nat) (d : dict) :
  Forall (fun p => fst p = j -> snd p <= X) d -> dict_get d j <= X.
Proof.
  intros H. unfold dict_get.
  destruct (find (fun p => fst p =? j) d) as [p|] eqn:Hfind; [| lia].
  apply find_some in Hfind. destruct Hfind as [Hin Hkey].
  apply Nat.eqb_eq in Hkey. rewrite Forall_forall in H. now apply H.
Qed.

Lemma entries_Forall (P : nat * nat -> Prop) (d : dict) (js : list nat) :
  Forall (fun j => P (j, k_of d j)) js -> Forall P (entries d js).
Proof.
  intros H. unfold entries. apply Forall_rev. rewrite Forall_map. exact H.
Qed.

(** Columns whose [k] does not beat the best block only add entries. *)
Lemma flm_row_quiet (i bhi : nat) (d : dict) (bi bj bs : nat) :
  forall js1 js2 newd,
    Forall (fun j => j < bhi /\ k_of d j <= bs) js1 ->
    flm_row i 0 bhi d (js1 ++ js2)%list newd (bi, bj, bs)
    = flm_row i 0 bhi d js2 (entries d js1 ++ newd)%list (bi, bj, bs).
Proof.
  induction js1 as [|j js1 IH]; intros js2 newd H; [reflexivity |].
  inversion H as [|j' l' [Hj Hk] Hrest]; subst.
  cbn [app flm_row]. change (j <? 0) with false. cbv iota.
  assert (Hb : (bhi <=? j) = false) by (apply Nat.leb_gt; exact Hj).
  rewrite Hb. fold (k_of d j).
  assert (Hs : (bs <? k_of d j) = false) by (apply Nat.ltb_ge; exact Hk).
  rewrite Hs, IH by exact Hrest.
  unfold entries. cbn [map rev]. now rewrite <- app_assoc.
Qed.

Lemma flm_row_quiet_all (i bhi : nat) (d : dict) (bi bj bs : nat)
      (js : list nat) (newd : dict) :
  Forall (fun j => j < bhi /\ k_of d j <= bs) js ->
  flm_row i 0 bhi d js newd (bi, bj, bs)
  = ((entries d js ++ newd)%list, (bi, bj, bs)).
Proof.
  intros H. rewrite <- (app_nil_r js) at 1. now rewrite flm_row_quiet.
Qed.

Lemma diag_inv_popular (i : nat) (d : dict) (best : Match) :
  popular a (char_at a i) = true ->
  diag_inv a i d best -> diag_inv a (S i) [] best.
Proof.
  intros Hpop [_ [_ [_ [HD1 HD2]]]].
  assert (HR : run_before a (S i) = 0) by (simpl; now rewrite Hpop).
  unfold diag_inv. rewrite HR. split; [| split; [| split; [| split]]].
  - intros j _. unfold dict_get. simpl. lia.
  - intros _. reflexivity.
  - intros j. unfold dict_get. simpl. lia.
  - exact HD1.
  - intros j Hj. destruct (Nat.eq_dec j (S i)) as [-> | Hne].
    + rewrite HR. lia.
    + apply HD2. lia.
Qed.

(** One row keeps the invariant. *)
Lemma flm_row_diag (i : nat) (d : dict) (best : Match) :
  i < List.length a ->
  diag_inv a i d best ->
  diag_inv a (S i)
           (fst (flm_row i 0 (List.length a) d (b2j a (char_at a i)) [] best))
           (snd (flm_row i 0 (List.length a) d (b2j a (char_at a i)) [] best)).
Proof.
  intros Hi Hinv. rewrite b2j_popular.
  destruct (popular a (char_at a i)) eqn:Hpop.
  - cbn [flm_row fst snd]. now apply (diag_inv_popular i d).
  - destruct Hinv as [HA [HB [HC [HD1 HD2]]]].
    destruct best as [[bi bj] bs]. cbn [fst snd] in HD1, HD2. subst bj.
    assert (HR : run_before a (S i) = run_before a i + 1) by (simpl; now rewrite Hpop).
    destruct (indices_of_split (char_at a i) a 0 i Hi eq_refl)
      as [pre [post [Heq [Hpre Hpost]]]].
    cbn [Nat.add] in Heq, Hpre, Hpost.
    assert (Hall : forall p, In p (pre ++ i :: post)%list ->
                             p < List.length a
                             /\ run_before a (S p) = run_before a p + 1).
    { intros p Hp. rewrite <- Heq in Hp. apply indices_of_In in Hp.
      destruct Hp as [_ [Hlt Hc]]. rewrite Nat.sub_0_r in Hc.
      split; [exact Hlt |]. simpl. now rewrite Hc, Hpop. }
    assert (Hk_row : forall j, k_of d j <= run_before a (S i)).
    { intros j. unfold k_of. rewrite HR. destruct j as [|j']; [lia |].
      specialize (HC j'). lia. }
    assert (Hk_col : forall j, In j (pre ++ i :: post)%list -> j <= i ->
                               k_of d j <= run_before a (S j)).
    { intros j Hj Hle. destruct (Hall j Hj) as [_ HRj]. rewrite HRj.
      unfold k_of. destruct j as [|j']; [lia |].
      specialize (HA j'). lia. }
    assert (Hk_i : k_of d i = run_before a (S i)).
    { rewrite HR. unfold k_of. destruct i as [|i']; [reflexivity |].
      rewrite <- HB by lia. now replace (S i' - 1) with i' by lia. }
    (* the columns before the diagonal *)
    rewrite Heq, flm_row_quiet.
    2:{ rewrite Forall_forall. intros j Hj.
        assert (Hjin : In j (pre ++ i :: post)%list) by (apply in_or_app; now left).
        rewrite Forall_forall in Hpre. specialize (Hpre j Hj).
        split; [apply (Hall j Hjin) |].
        etransitivity; [apply Hk_col; [exact Hjin | lia] | apply HD2; lia]. }
    (* the diagonal *)
    cbn [flm_row]. change (i <? 0) with false. cbv iota.
    assert (Hb : (List.length a <=? i) = false) by (apply Nat.leb_gt; exact Hi).
    rewrite Hb. fold (k_of d i). rewrite Hk_i.
    set (k := run_before a (S i)) in *.
    match goal with
    | |- context [flm_row _ _ _ _ post _ ?m] => set (best' := m)
    end.
    assert (Hbest' : exists bi' bs', best' = (bi', bi', bs') /\ bs <= bs' /\ k <= bs').
    { unfold best'. destruct (bs <? k) eqn:Hlt.
      - apply Nat.ltb_lt in Hlt. exists (i + 1 - k), k. split; [reflexivity | lia].
      - apply Nat.ltb_ge in Hlt. exists bi, bs. split; [reflexivity | lia]. }
    clearbody best'. destruct Hbest' as [bi' [bs' [-> [Hbs Hkbs]]]].
    (* the columns after the diagonal *)
    rewrite flm_row_quiet_all.
    2:{ rewrite Forall_forall. intros j Hj.
        assert (Hjin : In j (pre ++ i :: post)%list)
          by (apply in_or_app; right; now right).
        split; [apply (Hall j Hjin) |].
        etransitivity; [apply Hk_row | exact Hkbs]. }
    cbn [fst snd]. rewrite app_nil_r.
    unfold diag_inv. cbn [fst snd]. split; [| split; [| split; [| split]]].
    + intros j Hj. apply dict_get_le.
      apply Forall_app. split; [| constructor].
      * apply entries_Forall. rewrite Forall_forall. intros p Hp. cbn [fst snd].
        rewrite Forall_forall in Hpost. specialize (Hpost p Hp). intros ->. lia.
      * cbn [fst snd]. intros <-. unfold k. lia.
      * apply entries_Forall. rewrite Forall_forall. intros p Hp. cbn [fst snd].
        intros <-. apply Hk_col; [apply in_or_app; now left |].
        rewrite Forall_forall in Hpre. specialize (Hpre p Hp). lia.
    + intros _. replace (S i - 1) with i by lia.
      rewrite dict_get_skip, dict_get_cons_same; [reflexivity |].
      apply entries_Forall. rewrite Forall_forall. intros p Hp. cbn [fst].
      rewrite Forall_forall in Hpost. specialize (Hpost p Hp). lia.
    + intros j. apply dict_get_le.
      apply Forall_app. split; [| constructor].
      * apply entries_Forall. rewrite Forall_forall. intros p _ _. apply Hk_row.
      * cbn [snd]. intros _. unfold k. lia.
      * apply entries_Forall. rewrite Forall_forall. intros p _ _. apply Hk_row.
    + reflexivity.
    + intros j Hj. destruct (Nat.eq_dec j (S i)) as [-> | Hne].
      * exact Hkbs.
      * specialize (HD2 j). lia.
Qed.

Lemma flm_rows_diag :
  forall n i d best,
    i + n = List.length a ->
    diag_inv a i d best ->
    fst (fst (flm_rows a a n i 0 (List.length a) d best))
    = snd (fst (flm_rows a a n i 0 (List.length a) d best)).
Proof.
  induction n as [|n IH]; intros i d best Hlen Hinv.
  - simpl. apply Hinv.
  - cbn [flm_rows].
    pose proof (flm_row_diag i d best ltac:(lia) Hinv) as Hrow.
    destruct (flm_row i 0 (List.length a) d (b2j a (char_at a i)) [] best)
      as [newd best'].
    apply IH; [lia | exact Hrow].
Qed.

Lemma extend_left_diag :
  forall n bi bs,
    n <= bi ->
    extend_left a a n 0 (bi, bi, bs) = (bi - n, bi - n, bs + n).
Proof.
  induction n as [|n IH]; intros bi bs Hn; cbn [extend_left].
  - now rewrite Nat.sub_0_r, Nat.add_0_r.
  - assert (H0 : (0 <? bi) = true) by (apply Nat.ltb_lt; lia).
    rewrite H0, Ascii.eqb_refl. cbn [andb]. rewrite IH by lia.
    f_equal; [f_equal |]; lia.
Qed.

Lemma extend_right_diag :
  forall n bs,
    bs + n <= List.length a ->
    extend_right a a n (List.length a) (0, 0, bs) = (0, 0, bs + n).
Proof.
  induction n as [|n IH]; intros bs Hn; cbn [extend_right].
  - now rewrite Nat.add_0_r.
  - cbn [Nat.add].
    assert (H0 : (bs <? List.length a) = true) by (apply Nat.ltb_lt; lia).
    rewrite H0, Ascii.eqb_refl. cbn [andb]. rewrite IH by lia.
    f_equal. lia.
Qed.

(** A sequence matched against itself is one block. *)
Lemma find_longest_match_self :
  find_longest_match a a 0 (List.length a) 0 (List.length a)
  = (0, 0, List.length a).
Proof.
  unfold find_longest_match. rewrite Nat.sub_0_r.
  assert (Hinv : diag_inv a 0 [] (0, 0, 0)).
  { unfold diag_inv. cbn [fst snd run_before]. split; [| split; [| split; [| split]]].
    - intros j Hj. lia.
    - intros H. lia.
    - intros j. unfold dict_get. simpl. lia.
    - reflexivity.
    - intros j Hj. replace j with 0 by lia. reflexivity. }
  pose proof (flm_rows_diag (List.length a) 0 [] (0, 0, 0) eq_refl Hinv) as Hdiag.
  pose proof (flm_rows_bounds a a 0 0 (List.length a) (List.length a) 0 [] (0, 0, 0)
                              (le_n _) (Forall_nil _)) as Hwin.
  cbn [Nat.add] in Hwin.
  destruct (flm_rows a a (List.length a) 0 0 (List.length a) [] (0, 0, 0))
    as [[bi bj] bs].
  cbn [fst snd] in Hdiag. subst bj.
  assert (Hw : in_window 0 (List.length a) 0 (List.length a) (bi, bi, bs)).
  { apply Hwin. unfold in_window. lia. }
  unfold in_window in Hw.
  rewrite Nat.sub_0_r, extend_left_diag by lia.
  rewrite Nat.sub_diag. cbn [Nat.add].
  rewrite extend_right_diag by lia.
  f_equal. lia.
Qed.

Lemma matching_loop_nil (b : list ascii) (fuel : nat) (blocks : list Match) :
  matching_loop a b fuel [] blocks = (blocks, []).
Proof. destruct fuel; reflexivity. Qed.

Lemma matches_self : matches a a = List.length a.
Proof.
  unfold matches, get_matching_blocks.
  replace (2 * List.length a + 1) with (S (2 * List.length a)) by lia.
  cbn [matching_loop]. rewrite find_longest_match_self.
  destruct (List.length a =? 0) eqn:H0.
  - apply Nat.eqb_eq in H0. rewrite H0, matching_loop_nil. reflexivity.
  - change (0 <? 0) with false. cbn [andb Nat.add].
    rewrite Nat.ltb_irrefl. cbn [andb]. rewrite matching_loop_nil.
    cbn [fst app fold_right snd]. lia.
Qed.

End MatcherDiagonal.

(** ** The similarity ratio *)

Section RatioFacts.

Local Open Scope Q_scope.

Lemma Zpos_of_nat (n : nat) : n <> 0%nat -> Zpos (Pos.of_nat n) = Z.of_nat n.
Proof.
intros Hn. rewrite <- (Nat2Pos.id n Hn) at 2. now rewrite positive_nat_Z.
Qed.

Lemma Qle_bool_Qeq_r (t x y : Q) : x == y -> Qle_bool t x = Qle_bool t y.
Proof.
intros H. apply eq_true_iff_eq. rewrite !Qle_bool_iff. now rewrite H.
Qed.

Lemma ratio_self (a : list ascii) : Difflib.ratio a a == 1.
Proof.
unfold Difflib.ratio, Difflib.calculate_ratio. rewrite matches_self.
destruct (List.length a + List.length a =? 0)%nat eqn:H0; [reflexivity |].
apply Nat.eqb_neq in H0. unfold Qeq. cbn [Qnum Qden].
rewrite (Zpos_of_nat _ H0). lia.
Qed.

Lemma ratio_range (a b : list ascii) : 0 <= Difflib.ratio a b /\ Difflib.ratio a b <= 1.
Proof.
unfold Difflib.ratio, Difflib.calculate_ratio.
destruct (matches_le a b) as [Ha Hb].
destruct (List.length a + List.length b =? 0)%nat eqn:H0.
- split; unfold Qle; simpl; lia.
- apply Nat.eqb_neq in H0. unfold Qle. cbn [Qnum Qden].
  rewrite (Zpos_of_nat _ H0). split; lia.
Qed.

Lemma ratio_empty (a : list ascii) : Difflib.ratio a [] = Difflib.ratio [] a.
Proof.
unfold Difflib.ratio. rewrite matches_empty_r, matches_empty_l.
simpl List.length. now rewrite Nat.add_0_r.
Qed.

(** C6 (amended).  The ratio lies between 0 and 1 and is 1 for identical
  strings; it is the same in both orders when the two strings are the
  same or when one of them is empty, and [are_strings_similar] then
  agrees in both orders too.  Nothing more is claimed for other pairs. *)
Theorem similarity_ratio_facts (str1 str2 : string) (threshold : Q) :
let ratio x y := Difflib.ratio (list_ascii_of_string x) (list_ascii_of_string y) in
ratio str1 str1 == 1
/\ 0 <= ratio str1 str2 <= 1
/\ ratio str1 "" = ratio "" str1
/\ are_strings_similar str1 "" threshold = are_strings_similar "" str1 threshold
/\ are_strings_similar str1 str1 threshold = Qle_bool threshold 1.
Proof.
cbv zeta. split; [apply ratio_self |]. split; [apply ratio_range |].
split; [apply ratio_empty |]. split.
- unfold are_strings_similar. simpl list_ascii_of_string. now rewrite ratio_empty.
- unfold are_strings_similar. apply Qle_bool_Qeq_r, ratio_self.
Qed.

(** C6 as written fails: the order of the arguments changes the ratio, and
  at the default threshold it changes the answer of
  [are_strings_similar]. *)
Lemma ratio_not_symmetric :
Difflib.ratio (list_ascii_of_string "tide") (list_ascii_of_string "diet") == 1 # 4
/\ Difflib.ratio (list_ascii_of_string "diet") (list_ascii_of_string "tide") == 1 # 2
/\ ~ Difflib.ratio (list_ascii_of_string "tide") (list_ascii_of_string "diet")
     == Difflib.ratio (list_ascii_of_string "diet") (list_ascii_of_string "tide")
/\ are_strings_similar "ab" "bacb" default_threshold = true
/\ are_strings_similar "bacb" "ab" default_threshold = false.
Proof.
split; [vm_compute; reflexivity |]. split; [vm_compute; reflexivity |].
split; [intros H; vm_compute in H; discriminate |].
split; vm_compute; reflexivity.
Qed.

End RatioFacts.

(** The autojunk rule at work: against two hundred "a" every "a" is
    dropped from [b2j] and "xa" matches nothing, while against one hundred
    and ninety-nine it matches one character. *)
Example ratio_autojunk :
  Difflib.matches (list_ascii_of_string "xa")
                  (list_ascii_of_string (Py.repeat_str "a" 200)) = 0
  /\ Difflib.matches (list_ascii_of_string "xa")
                     (list_ascii_of_string (Py.repeat_str "a" 199)) = 1.
Proof. split; vm_compute; reflexivity. Qed.

(** The examples of the specification. *)
Example fixDodgyThing_examples :
  fixDodgyThing (Py.PStr "completd") (LegitList ["Completed"; "Discontinued"; "Enrolled"])
  = "Completed"
  /\ fixDodgyThing Py.PNone (LegitList []) = "None Supplied"
  /\ fixDodgyThing Py.PNone (LegitList ["Completed"; "Discontinued"; "Enrolled"])
     = "None Supplied"
  /\ fixDodgyStatuses (Py.PStr "xyz") = "Xyz"
  /\ fixDodgyAssessLevel (Py.PStr "CONSOLIDATED") = "Consolidated".
Proof. repeat split; vm_compute; reflexivity. Qed.

(** ** The SQL text of [getJoinCondition] *)

Lemma string_app_assoc (x y z : string) : ((x ++ y) ++ z)%string = (x ++ (y ++ z))%string.
Proof. induction x as [|c x IH]; simpl; [reflexivity | now rewrite IH]. Qed.

Lemma lex_ident_chars (name rest w : string) (acc : list SqlText.token) :
  SqlText.ident_chars name = true ->
  SqlText.lex (name ++ rest) w acc = SqlText.lex rest (w ++ name) acc.
Proof.
  revert w. induction name as [|c name IH]; intros w Hname; simpl.
  - replace (w ++ "")%string with w; [reflexivity |].
    clear. induction w as [|c w IH]; simpl; [reflexivity | now rewrite <- IH].
  - simpl in Hname. apply andb_true_iff in Hname. destruct Hname as [Hc Hname].
    unfold SqlText.is_name_char. rewrite Hc. cbn [orb].
    rewrite IH by exact Hname. now rewrite string_app_assoc.
Qed.

Lemma plain_name_ident_chars (name : string) :
  SqlText.plain_name name = true -> SqlText.ident_chars name = true.
Proof.
  destruct name as [|c name]; simpl; [discriminate |].
  intros H. apply andb_true_iff in H. destruct H as [Hc Hname].
  rewrite Hname, andb_true_r. unfold SqlText.is_ident_char.
  destruct (Py.is_lower c), (Py.is_upper c); simpl in *; try reflexivity.
  rewrite Hc. now rewrite orb_true_r.
Qed.

Lemma lex_name (name rest w : string) (acc : list SqlText.token) :
  SqlText.plain_name name = true ->
  SqlText.lex (name ++ rest) w acc = SqlText.lex rest (w ++ name) acc.
Proof.
  intros H. apply lex_ident_chars, plain_name_ident_chars, H.
Qed.

Lemma getJoinCondition_sql_lex (factCol mapCol : string) :
  SqlText.plain_name factCol = true -> SqlText.plain_name mapCol = true ->
  SqlText.lex (getJoinCondition_sql factCol mapCol) "" []
  = Some [SqlText.TLParen; SqlText.TName ("fact." ++ factCol); SqlText.TEq;
          SqlText.TName ("map." ++ mapCol); SqlText.TOr; SqlText.TLParen;
          SqlText.TName ("fact." ++ factCol); SqlText.TIs; SqlText.TNull;
          SqlText.TAnd; SqlText.TName ("map." ++ mapCol); SqlText.TIs;
          SqlText.TNull; SqlText.TRParen; SqlText.TRParen].
Proof.
  intros Hf Hm. unfold getJoinCondition_sql, newline.
  simpl. rewrite (lex_name factCol) by exact Hf.
  simpl. rewrite (lex_name mapCol) by exact Hm.
  simpl. rewrite (lex_name factCol) by exact Hf.
  simpl. rewrite (lex_name mapCol) by exact Hm.
  simpl. reflexivity.
Qed.

Lemma parts_not_empty_ident_chars (name : string) :
  SqlText.ident_chars name = true -> SqlText.parts_not_empty false name = true.
Proof.
  induction name as [|c name IH]; [reflexivity |].
  cbn [SqlText.ident_chars SqlText.parts_not_empty].
  intros H. apply andb_true_iff in H. destruct H as [Hc Hname].
  destruct (Ascii.eqb c "."%char) eqn:Hdot; [| now apply IH].
  apply Ascii.eqb_eq in Hdot. subst c. discriminate.
Qed.

(** A qualified plain name has no empty identifier. *)
Lemma parts_not_empty_plain_name (name : string) :
  SqlText.plain_name name = true -> SqlText.parts_not_empty true name = true.
Proof.
  destruct name as [|c name]; [discriminate |].
  cbn [SqlText.plain_name SqlText.parts_not_empty].
  intros H. apply andb_true_iff in H. destruct H as [Hc Hname].
  destruct (Ascii.eqb c "."%char) eqn:Hdot.
  - apply Ascii.eqb_eq in Hdot. subst c. discriminate.
  - now apply parts_not_empty_ident_chars.
Qed.

(** For plain column names the text parses, to [sql_join_condition]. *)
Lemma getJoinCondition_parses (factCol mapCol : string) :
  SqlText.plain_name factCol = true -> SqlText.plain_name mapCol = true ->
  SqlText.F_expr (getJoinCondition_sql factCol mapCol)
  = Some (sql_join_condition factCol mapCol).
Proof.
  intros Hf Hm. unfold SqlText.F_expr.
  rewrite (getJoinCondition_sql_lex _ _ Hf Hm).
  cbn [forallb SqlText.token_ok andb].
  change (SqlText.parts_not_empty true ("fact." ++ factCol))
    with (SqlText.parts_not_empty true factCol).
  change (SqlText.parts_not_empty true ("map." ++ mapCol))
    with (SqlText.parts_not_empty true mapCol).
  rewrite !(parts_not_empty_plain_name _ Hf), !(parts_not_empty_plain_name _ Hm).
  reflexivity.
Qed.

(** C10 (amended).  For a join column that can be written unquoted, the
    text of [getJoinCondition] parses, and the condition it denotes has the
    same value on every row as the one built inline in [simpleMap]; that
    value is TRUE exactly when the two keys are equal or both NULL. *)
Theorem getJoinCondition_agrees {K : KeyType} (joinCol : string) :
  SqlText.plain_name joinCol = true ->
  exists condition,
    getJoinCondition joinCol None = Some condition
    /\ (forall row,
           Sql.eval row condition = Sql.eval row (simpleMap_join_condition joinCol))
    /\ (forall f m : Sql.cell,
           Sql.holds (Sql.key_pair joinCol joinCol f m) condition = true
           <-> (exists v, f = Some v /\ m = Some v) \/ (f = None /\ m = None)).
Proof.
  intros Hplain. exists (sql_join_condition joinCol joinCol).
  split; [| split].
  - unfold getJoinCondition. now apply getJoinCondition_parses.
  - intros row. apply sql_join_condition_eval.
  - intros f m. apply sql_join_condition_holds.
Qed.

Lemma getJoinCondition_agrees_witness :
  exists condition,
    getJoinCondition "status" None = Some condition
    /\ (forall row : string -> option (option string),
           Sql.eval row condition = Sql.eval row (simpleMap_join_condition "status"))
    /\ (forall f m : option string,
           Sql.holds (Sql.key_pair "status" "status" f m) condition = true
           <-> (exists v, f = Some v /\ m = Some v) \/ (f = None /\ m = None)).
Proof.
  apply (getJoinCondition_agrees (K := string_key) "status"). reflexivity.
Defined.

(** C10 as written fails for a join column that cannot be written unquoted:
    with a space in the name the text has two names in a row where one
    column is meant, and it is no condition at all, while the condition
    built inline in [simpleMap] names the column and holds on equal
    keys. *)
Lemma getJoinCondition_differs_from_spec :
  SqlText.lex (getJoinCondition_sql "unit status" "unit status") "" []
  = Some [SqlText.TLParen; SqlText.TName "fact.unit"; SqlText.TName "status";
          SqlText.TEq; SqlText.TName "map.unit"; SqlText.TName "status";
          SqlText.TOr; SqlText.TLParen;
          SqlText.TName "fact.unit"; SqlText.TName "status"; SqlText.TIs; SqlText.TNull;
          SqlText.TAnd; SqlText.TName "map.unit"; SqlText.TName "status";
          SqlText.TIs; SqlText.TNull; SqlText.TRParen; SqlText.TRParen]
  /\ getJoinCondition "unit status" None = None
  /\ Sql.holds (K := string_key)
                (Sql.key_pair "unit status" "unit status" (Some "U1") (Some "U1"))
                (simpleMap_join_condition "unit status") = true
  /\ ~ (exists condition,
           getJoinCondition "unit status" None = Some condition
           /\ forall f m : option string,
                Sql.holds (K := string_key)
                          (Sql.key_pair "unit status" "unit status" f m) condition = true
                <-> (exists v, f = Some v /\ m = Some v) \/ (f = None /\ m = None)).
Proof.
  split; [vm_compute; reflexivity |].
  split; [vm_compute; reflexivity |].
  split; [vm_compute; reflexivity |].
  intros (condition & H & _). vm_compute in H. discriminate.
Qed.

(** The text as written, an explicit lookup column, and a name that needs
    quoting. *)
Example getJoinCondition_examples :
  getJoinCondition "status" None
  = Some (Or (EqualTo (Col "fact.status") (Col "map.status"))
             (And (IsNull (Col "fact.status")) (IsNull (Col "map.status"))))
  /\ getJoinCondition "status" (Some "status_name")
     = Some (Or (EqualTo (Col "fact.status") (Col "map.status_name"))
                (And (IsNull (Col "fact.status")) (IsNull (Col "map.status_name"))))
  /\ getJoinCondition "status" (Some "") = getJoinCondition "status" None
  /\ getJoinCondition "unit status" None = None.
Proof. repeat split; vm_compute; reflexivity. Qed.

(* ===================================================================== *)
(** * More of the module *)
(* ===================================================================== *)

(** ** Splitting, joining and stripping *)

Lemma has_char_app (c : ascii) (x y : string) :
  Py.has_char c (x ++ y) = Py.has_char c x || Py.has_char c y.
Proof.
  induction x as [|a x IH]; simpl; [reflexivity | now rewrite IH, orb_assoc].
Qed.

Lemma string_app_nil_r (x : string) : (x ++ "")%string = x.
Proof. induction x as [|c x IH]; simpl; [reflexivity | now rewrite IH]. Qed.

Lemma split_not_nil (sep : ascii) (s : string) : PyStr.split sep s <> [].
Proof.
  induction s as [|c r IH]; simpl; [discriminate |].
  destruct (Ascii.eqb c sep); [discriminate |].
  destruct (PyStr.split sep r); [contradiction | discriminate].
Qed.

Lemma split_no_sep (sep : ascii) (s : string) :
  Forall (fun p => Py.has_char sep p = false) (PyStr.split sep s).
Proof.
  induction s as [|c r IH]; simpl.
  - repeat constructor.
  - destruct (Ascii.eqb c sep) eqn:Hc.
    + constructor; [reflexivity | exact IH].
    + destruct (PyStr.split sep r) as [|w ws]; [repeat constructor; simpl; now rewrite Hc |].
      inversion IH as [|w' ws' Hw Hws]; subst.
      constructor; [simpl; now rewrite Hc | exact Hws].
Qed.

Lemma split_without_sep (sep : ascii) (s : string) :
  Py.has_char sep s = false -> PyStr.split sep s = [s].
Proof.
  induction s as [|c r IH]; simpl; [reflexivity |].
  intros H. apply orb_false_iff in H. destruct H as [Hc Hr].
  rewrite Hc, (IH Hr). reflexivity.
Qed.

(** Splitting at a separator that is there splits both sides. *)
Lemma split_app (sep : ascii) (x y : string) :
  PyStr.split sep (x ++ String sep y) = (PyStr.split sep x ++ PyStr.split sep y)%list.
Proof.
  induction x as [|c x IH]; simpl.
  - now rewrite Ascii.eqb_refl.
  - destruct (Ascii.eqb c sep); [now rewrite IH |].
    rewrite IH. pose proof (split_not_nil sep x) as Hne.
    destruct (PyStr.split sep x); [contradiction | reflexivity].
Qed.

Lemma join_cons (sep x : string) (rest : list string) :
  rest <> [] -> PyStr.join sep (x :: rest) = (x ++ sep ++ PyStr.join sep rest)%string.
Proof. destruct rest; [contradiction | reflexivity]. Qed.

Lemma join_app (sep : string) (l1 l2 : list string) :
  l1 <> [] -> l2 <> [] ->
  PyStr.join sep (l1 ++ l2) = (PyStr.join sep l1 ++ sep ++ PyStr.join sep l2)%string.
Proof.
  induction l1 as [|x l1 IH]; intros H1 H2; [contradiction |].
  destruct l1 as [|y l1].
  - simpl app. now rewrite join_cons.
  - change ((x :: y :: l1) ++ l2)%list with (x :: ((y :: l1) ++ l2))%list.
    rewrite join_cons by discriminate. rewrite IH by (discriminate || assumption).
    rewrite (join_cons sep x (y :: l1)) by discriminate.
    now rewrite !string_app_assoc.
Qed.

Lemma join_split (sep : ascii) (s : string) :
  PyStr.join (String sep "") (PyStr.split sep s) = s.
Proof.
  induction s as [|c r IH]; simpl; [reflexivity |].
  destruct (Ascii.eqb c sep) eqn:Hc.
  - apply Ascii.eqb_eq in Hc. subst c.
    rewrite join_cons by apply split_not_nil. now rewrite IH.
  - pose proof (split_not_nil sep r) as Hne.
    destruct (PyStr.split sep r) as [|w ws]; [contradiction |].
    destruct ws as [|w' ws]; simpl in *; now rewrite <- IH.
Qed.

(** Parts without the separator come back from a split of their join. *)
Lemma split_join (sep : ascii) (parts : list string) :
  parts <> [] ->
  Forall (fun p => Py.has_char sep p = false) parts ->
  PyStr.split sep (PyStr.join (String sep "") parts) = parts.
Proof.
  induction parts as [|x rest IH]; intros Hne Hall; [contradiction |].
  inversion Hall as [|x' r' Hx Hrest]; subst.
  destruct rest as [|y rest].
  - simpl. now apply split_without_sep.
  - rewrite join_cons by discriminate.
    change (String sep "" ++ PyStr.join (String sep "") (y :: rest))%string
      with (String sep (PyStr.join (String sep "") (y :: rest))).
    rewrite split_app, (split_without_sep _ _ Hx).
    rewrite IH by (discriminate || assumption).
    reflexivity.
Qed.

Lemma lstrip_by_idem (p : ascii -> bool) (s : string) :
  PyStr.lstrip_by p (PyStr.lstrip_by p s) = PyStr.lstrip_by p s.
Proof.
  induction s as [|c r IH]; simpl; [reflexivity |].
  destruct (p c) eqn:Hc; [exact IH | simpl; now rewrite Hc].
Qed.

Lemma rstrip_by_tail (p : ascii -> bool) (c : ascii) (r : string) :
  PyStr.rstrip_by p (String c r) = String c r -> PyStr.rstrip_by p r = r.
Proof.
  simpl. destruct (PyStr.rstrip_by p r) as [|c' r'] eqn:Hr.
  - destruct (p c); [discriminate |]. intros H. now injection H as <-.
  - intros H. now injection H as <-.
Qed.

Lemma rstrip_by_idem (p : ascii -> bool) (s : string) :
  PyStr.rstrip_by p (PyStr.rstrip_by p s) = PyStr.rstrip_by p s.
Proof.
  induction s as [|c r IH]; simpl; [reflexivity |].
  destruct (PyStr.rstrip_by p r) as [|c' r'] eqn:Hr.
  - destruct (p c) eqn:Hc; simpl; [reflexivity | now rewrite Hc].
  - simpl in *. rewrite IH. reflexivity.
Qed.

Lemma rstrip_lstrip (p : ascii -> bool) (s : string) :
  PyStr.rstrip_by p s = s -> PyStr.rstrip_by p (PyStr.lstrip_by p s) = PyStr.lstrip_by p s.
Proof.
  induction s as [|c r IH]; intros H; [reflexivity |].
  simpl PyStr.lstrip_by. destruct (p c); [| exact H].
  apply IH. now apply rstrip_by_tail in H.
Qed.

Lemma strip_idem (s : string) : PyStr.strip (PyStr.strip s) = PyStr.strip s.
Proof.
  unfold PyStr.strip.
  rewrite (rstrip_lstrip _ (PyStr.rstrip_by PyStr.isspace s)) by apply rstrip_by_idem.
  apply lstrip_by_idem.
Qed.

Lemma has_char_lstrip (p : ascii -> bool) (c : ascii) (s : string) :
  Py.has_char c s = false -> Py.has_char c (PyStr.lstrip_by p s) = false.
Proof.
  induction s as [|x r IH]; simpl; [reflexivity |].
  intros H. destruct (p x); [| exact H].
  apply IH. apply orb_false_iff in H. tauto.
Qed.

Lemma has_char_rstrip (p : ascii -> bool) (c : ascii) (s : string) :
  Py.has_char c s = false -> Py.has_char c (PyStr.rstrip_by p s) = false.
Proof.
  induction s as [|x r IH]; simpl; [reflexivity |].
  intros H. apply orb_false_iff in H. destruct H as [Hx Hr].
  specialize (IH Hr).
  destruct (PyStr.rstrip_by p r) as [|c' r'].
  - destruct (p x); simpl; [reflexivity | now rewrite Hx].
  - simpl in *. now rewrite Hx, IH.
Qed.

Lemma has_char_strip (c : ascii) (s : string) :
  Py.has_char c s = false -> Py.has_char c (PyStr.strip s) = false.
Proof.
  intros H. unfold PyStr.strip. now apply has_char_lstrip, has_char_rstrip.
Qed.

(** The parts of a split are pieces of the string. *)
Lemma split_has_char (sep c : ascii) (s : string) :
  Py.has_char c s = false ->
  Forall (fun p => Py.has_char c p = false) (PyStr.split sep s).
Proof.
  induction s as [|x r IH]; simpl; intros H.
  - repeat constructor.
  - apply orb_false_iff in H. destruct H as [Hx Hr]. specialize (IH Hr).
    destruct (Ascii.eqb x sep).
    + constructor; [reflexivity | exact IH].
    + destruct (PyStr.split sep r) as [|w ws].
      * repeat constructor. simpl. now rewrite Hx.
      * inversion IH as [|w' ws' Hw Hws]; subst.
        constructor; [simpl; now rewrite Hx, Hw | exact Hws].
Qed.

(** ** [cleanString] *)

Lemma cleanString_ident_chars (s : string) : SqlText.ident_chars (cleanString s) = true.
Proof.
  induction s as [|c r IH]; simpl; [reflexivity |].
  destruct (word_char c) eqn:Hc; [| exact IH].
  simpl. change (SqlText.is_ident_char c) with (word_char c). now rewrite Hc.
Qed.

Lemma cleanString_fixed (s : string) : SqlText.ident_chars s = true -> cleanString s = s.
Proof.
  induction s as [|c r IH]; simpl; [reflexivity |].
  change (SqlText.is_ident_char c) with (word_char c).
  intros H. apply andb_true_iff in H. destruct H as [Hc Hr].
  now rewrite Hc, (IH Hr).
Qed.

Lemma cleanString_app (s t : string) :
  cleanString (s ++ t) = (cleanString s ++ cleanString t)%string.
Proof.
  induction s as [|c r IH]; simpl; [reflexivity |].
  destruct (word_char c); simpl; now rewrite IH.
Qed.

(** X1. [cleanString] keeps the letters, digits and underscores of its input
    and nothing else: its result has only such characters, it changes a
    string exactly when the string has another character, it is idempotent
    and it distributes over concatenation. *)
Theorem cleanString_word_characters (s t : string) :
  SqlText.ident_chars (cleanString s) = true
  /\ (cleanString s = s <-> SqlText.ident_chars s = true)
  /\ cleanString (cleanString s) = cleanString s
  /\ cleanString (s ++ t) = (cleanString s ++ cleanString t)%string.
Proof.
  split; [apply cleanString_ident_chars |].
  split; [| split].
  - split; [intros H; rewrite <- H; apply cleanString_ident_chars | apply cleanString_fixed].
  - apply cleanString_fixed, cleanString_ident_chars.
  - apply cleanString_app.
Qed.

(** ** [escapeName] *)

Lemma escapeName_depth_S (depth : nat) (name : string) :
  escapeName_depth (S depth) name =
  if Py.has_char "."%char name then
    match all_some (map (escapeName_depth depth) (PyStr.split "."%char name)) with
    | Some escaped => Some (PyStr.join "." escaped)
    | None => None
    end
  else if Py.has_char "`"%char name then Some name
  else if Py.has_char " "%char name || Py.has_char "-"%char name
       then Some ("`" ++ name ++ "`")%string
  else Some name.
Proof. reflexivity. Qed.

(** A name without a dot is escaped without a recursive call. *)
Lemma escapeName_depth_nodot (depth : nat) (name : string) :
  Py.has_char "."%char name = false ->
  escapeName_depth (S depth) name = Some (escapeName name).
Proof.
  intros H. unfold escapeName. rewrite !escapeName_depth_S, H.
  destruct (Py.has_char "`"%char name); [reflexivity |].
  destruct (Py.has_char " "%char name || Py.has_char "-"%char name); reflexivity.
Qed.

Lemma escapeName_nodot (name : string) :
  Py.has_char "."%char name = false ->
  escapeName name =
  if Py.has_char "`"%char name then name
  else if Py.has_char " "%char name || Py.has_char "-"%char name
       then ("`" ++ name ++ "`")%string
  else name.
Proof.
  intros H. unfold escapeName. rewrite escapeName_depth_S, H.
  destruct (Py.has_char "`"%char name); [reflexivity |].
  destruct (Py.has_char " "%char name || Py.has_char "-"%char name); reflexivity.
Qed.

Lemma all_some_escaped (depth : nat) (parts : list string) :
  Forall (fun p => Py.has_char "."%char p = false) parts ->
  all_some (map (escapeName_depth (S depth)) parts) = Some (map escapeName parts).
Proof.
  induction 1 as [|p parts Hp _ IH]; [reflexivity |].
  cbn [map all_some]. now rewrite (escapeName_depth_nodot _ _ Hp), IH.
Qed.

Lemma escapeName_depth_dotted (depth : nat) (name : string) :
  Py.has_char "."%char name = true ->
  escapeName_depth (S (S depth)) name =
  Some (PyStr.join "." (map escapeName (PyStr.split "."%char name))).
Proof.
  intros H. rewrite escapeName_depth_S, H, all_some_escaped by apply split_no_sep.
  reflexivity.
Qed.

Lemma escapeName_depth_any (depth : nat) (name : string) :
  escapeName_depth (S (S depth)) name = Some (escapeName name).
Proof.
  destruct (Py.has_char "."%char name) eqn:H.
  - unfold escapeName. now rewrite !escapeName_depth_dotted by exact H.
  - now apply escapeName_depth_nodot.
Qed.

(** The escaped name is the join of its escaped parts, also for one part. *)
Lemma escapeName_join (name : string) :
  escapeName name = PyStr.join "." (map escapeName (PyStr.split "."%char name)).
Proof.
  destruct (Py.has_char "."%char name) eqn:H.
  - unfold escapeName at 1. now rewrite escapeName_depth_dotted by exact H.
  - now rewrite (split_without_sep _ _ H).
Qed.

Lemma escapeName_nodot_out (p : string) :
  Py.has_char "."%char p = false -> Py.has_char "."%char (escapeName p) = false.
Proof.
  intros H. rewrite (escapeName_nodot _ H).
  destruct (Py.has_char "`"%char p); [exact H |].
  destruct (Py.has_char " "%char p || Py.has_char "-"%char p); [| exact H].
  simpl. rewrite has_char_app, H. reflexivity.
Qed.

Lemma escapeName_nodot_idem (p : string) :
  Py.has_char "."%char p = false -> escapeName (escapeName p) = escapeName p.
Proof.
  intros H. rewrite (escapeName_nodot _ (escapeName_nodot_out _ H)).
  rewrite (escapeName_nodot _ H).
  destruct (Py.has_char "`"%char p) eqn:Hq; [now rewrite Hq |].
  destruct (Py.has_char " "%char p || Py.has_char "-"%char p) eqn:Hs.
  - reflexivity.
  - now rewrite Hq, Hs.
Qed.

Lemma map_escapeName_parts (parts : list string) :
  Forall (fun p => Py.has_char "."%char p = false) parts ->
  Forall (fun p => Py.has_char "."%char p = false) (map escapeName parts)
  /\ map escapeName (map escapeName parts) = map escapeName parts.
Proof.
  induction 1 as [|p parts Hp _ [IH1 IH2]]; [split; [constructor | reflexivity] |].
  split.
  - constructor; [now apply escapeName_nodot_out | exact IH1].
  - cbn [map]. now rewrite (escapeName_nodot_idem _ Hp), IH2.
Qed.

Lemma map_not_nil {A B : Type} (f : A -> B) (l : list A) : l <> [] -> map f l <> [].
Proof. destruct l; [contradiction | discriminate]. Qed.

Lemma escapeName_idem (name : string) : escapeName (escapeName name) = escapeName name.
Proof.
  destruct (map_escapeName_parts _ (split_no_sep "."%char name)) as [Hdots Hidem].
  rewrite (escapeName_join name) at 1.
  rewrite escapeName_join.
  rewrite (split_join "."%char) by (apply map_not_nil, split_not_nil || exact Hdots).
  rewrite Hidem. symmetry. apply escapeName_join.
Qed.

(** X2. [escapeName] returns for every name, and its recursion is never
    deeper than two calls: the parts of a name split at the dots have no
    dot, so every recursive call returns at once. *)
Theorem escapeName_depth_enough (depth : nat) (name : string) :
  escapeName_depth (S (S depth)) name = Some (escapeName name)
  /\ Forall (fun p => escapeName_depth 1 p = Some (escapeName p))
            (PyStr.split "."%char name).
Proof.
  split; [apply escapeName_depth_any |].
  eapply Forall_impl; [| apply split_no_sep].
  intros p Hp. now apply escapeName_depth_nodot.
Qed.

(** X3. [escapeName] is idempotent: a name that has been escaped is not
    quoted a second time. *)
Theorem escapeName_idempotent (name : string) :
  escapeName (escapeName name) = escapeName name.
Proof.
  pose proof (split_no_sep "."%char name) as Hparts.
  destruct (map_escapeName_parts _ Hparts) as [Hdots Hidem].
  rewrite (escapeName_join name).
  rewrite (escapeName_join (PyStr.join "." _)).
  rewrite (split_join "."%char) by (apply map_not_nil, split_not_nil || exact Hdots).
  now rewrite Hidem.
Qed.

(** X4. [escapeName] works part by part: the escaped form of a qualified
    name [a.b] is the escaped [a], a dot, and the escaped [b]. *)
Theorem escapeName_qualified (a b : string) :
  escapeName (a ++ "." ++ b) = (escapeName a ++ "." ++ escapeName b)%string.
Proof.
  rewrite (escapeName_join (a ++ "." ++ b)).
  change (a ++ "." ++ b)%string with (a ++ String "."%char b)%string.
  rewrite split_app, map_app.
  rewrite join_app by (apply map_not_nil, split_not_nil).
  now rewrite <- !escapeName_join.
Qed.

(** X5. After [escapeName], every dot-separated part of the name that has a
    space or a dash also has a backtick; a part with neither a space, nor a
    dash, nor a backtick is left as it was. *)
Theorem escapeName_quotes_parts (name : string) :
  Forall (fun p => Py.has_char " "%char p || Py.has_char "-"%char p = true ->
                   Py.has_char "`"%char p = true)
         (PyStr.split "."%char (escapeName name))
  /\ (Py.has_char " "%char name || Py.has_char "-"%char name
      || Py.has_char "`"%char name = false -> escapeName name = name).
Proof.
  split.
  - rewrite escapeName_join.
    destruct (map_escapeName_parts _ (split_no_sep "."%char name)) as [Hdots _].
    rewrite (split_join "."%char) by (apply map_not_nil, split_not_nil || exact Hdots).
    apply Forall_map. eapply Forall_impl; [| apply split_no_sep].
    intros p Hp. cbv beta. rewrite (escapeName_nodot _ Hp).
    destruct (Py.has_char "`"%char p) eqn:Hq; [now rewrite Hq |].
    destruct (Py.has_char " "%char p || Py.has_char "-"%char p) eqn:Hs.
    + intros _. reflexivity.
    + rewrite Hs. discriminate.
  - intros H. apply orb_false_iff in H. destruct H as [Hs Hq].
    apply orb_false_iff in Hs. destruct Hs as [Hs Hd].
    rewrite escapeName_join.
    assert (Hmap : map escapeName (PyStr.split "."%char name) = PyStr.split "."%char name).
    { pose proof (split_no_sep "."%char name) as Hdot.
      pose proof (split_has_char "."%char _ _ Hs) as H1.
      pose proof (split_has_char "."%char _ _ Hd) as H2.
      pose proof (split_has_char "."%char _ _ Hq) as H3.
      induction Hdot as [|p parts Hp _ IH]; [reflexivity |].
      inversion H1; inversion H2; inversion H3; subst.
      cbn [map]. rewrite IH by assumption.
      rewrite (escapeName_nodot _ Hp).
      replace (Py.has_char "`"%char p) with false by (symmetry; assumption).
      replace (Py.has_char " "%char p) with false by (symmetry; assumption).
      replace (Py.has_char "-"%char p) with false by (symmetry; assumption).
      reflexivity. }
    rewrite Hmap. apply join_split.
Qed.

Lemma escapeName_quotes_parts_witness :
  escapeName "student_id" = "student_id" /\ escapeName "unit code" = "`unit code`".
Proof.
  split; [| reflexivity].
  apply (proj2 (escapeName_quotes_parts "student_id")). reflexivity.
Defined.

(** ** [getTempTableName] and [firstCharIsNumeric] *)

(** A character outside the identifier class is in no identifier. *)
Lemma ident_chars_has_char (c : ascii) (s : string) :
  SqlText.is_ident_char c = false -> SqlText.ident_chars s = true ->
  Py.has_char c s = false.
Proof.
  intros Hc. induction s as [|x r IH]; simpl; [reflexivity |].
  intros H. apply andb_true_iff in H. destruct H as [Hx Hr].
  rewrite (IH Hr), orb_false_r.
  destruct (Ascii.eqb x c) eqn:E; [| reflexivity].
  apply Ascii.eqb_eq in E. subst x. congruence.
Qed.

Lemma escapeName_ident_chars (name : string) :
  SqlText.ident_chars name = true -> escapeName name = name.
Proof.
  intros H.
  rewrite (escapeName_nodot name) by (now apply ident_chars_has_char).
  rewrite (ident_chars_has_char "`"%char), (ident_chars_has_char " "%char),
    (ident_chars_has_char "-"%char) by (reflexivity || exact H).
  reflexivity.
Qed.

(** The last step of [getTempTableName] turns a non-empty run of word
    characters into a name that needs no quoting. *)
Lemma underscore_before_digit (tabName : string) :
  SqlText.ident_chars tabName = true -> tabName <> "" ->
  SqlText.plain_name
    (if Py.truthy (firstCharIsNumeric (Py.PStr tabName)) then "_" ++ tabName else tabName)
  = true.
Proof.
  destruct tabName as [|c r]; intros H Hne; [contradiction |].
  simpl in H. apply andb_true_iff in H. destruct H as [Hc Hr].
  unfold firstCharIsNumeric. cbn [Py.truthy String.eqb negb].
  destruct (PyStr.isdigit c) eqn:Hd; cbn [Py.truthy].
  - simpl. change (SqlText.is_ident_char c && SqlText.ident_chars r = true).
    now rewrite Hc, Hr.
  - simpl. rewrite Hr, andb_true_r.
    unfold SqlText.is_ident_char in Hc.
    change (SqlText.is_digit c) with (PyStr.isdigit c) in Hc. rewrite Hd in Hc.
    now rewrite orb_false_r in Hc.
Qed.

Lemma ident_chars_app (x y : string) :
  SqlText.ident_chars (x ++ y) = SqlText.ident_chars x && SqlText.ident_chars y.
Proof.
  induction x as [|c x IH]; simpl; [reflexivity | now rewrite IH, andb_assoc].
Qed.

Lemma app_not_empty_r (x y : string) : y <> "" -> (x ++ y)%string <> "".
Proof. destruct x; simpl; [tauto | discriminate]. Qed.

(** The text that [getTempTableName] cleans, for the prefix after its
    first two statements. *)
Lemma getTempTableName_unfold (prefix : Py.pyval) (now uuid : string) :
  getTempTableName prefix now uuid =
  let p := PyStr.rstrip_by (fun c => Ascii.eqb c "_"%char) (Py.str prefix) in
  let p := if String.eqb p "" then "tmp" else p in
  let tabName :=
    (cleanString p ++ "_" ++ cleanString now ++ "_"
     ++ cleanString (PyStr.remove_char "-"%char uuid))%string in
  if Py.truthy (firstCharIsNumeric (Py.PStr tabName)) then ("_" ++ tabName)%string
  else tabName.
Proof.
  unfold getTempTableName. cbv zeta.
  set (p := if String.eqb _ "" then "tmp" else _).
  change (PyStr.join "_" [p; now; PyStr.remove_char "-"%char uuid])
    with (p ++ String "_"%char (now ++ String "_"%char (PyStr.remove_char "-"%char uuid)))%string.
  rewrite cleanString_app. cbn [cleanString]. change (word_char "_"%char) with true.
  cbv iota. rewrite cleanString_app. cbn [cleanString]. change (word_char "_"%char) with true.
  reflexivity.
Qed.

Lemma getTempTableName_plain_name (prefix : Py.pyval) (now uuid : string) :
  SqlText.plain_name (getTempTableName prefix now uuid) = true.
Proof.
  rewrite getTempTableName_unfold. cbv zeta.
  apply underscore_before_digit.
  - rewrite !ident_chars_app, !cleanString_ident_chars. reflexivity.
  - apply app_not_empty_r. discriminate.
Qed.

(** X6. Whatever the prefix, the clock and the UUID are, the name made by
    [getTempTableName] starts with a letter or an underscore and has only
    letters, digits and underscores after it; so [escapeName] leaves it as
    it is and its first character is not a digit. *)
Theorem getTempTableName_needs_no_quoting (prefix : Py.pyval) (now uuid : string) :
  let tabName := getTempTableName prefix now uuid in
  SqlText.plain_name tabName = true
  /\ escapeName tabName = tabName
  /\ firstCharIsNumeric (Py.PStr tabName) = Py.PBool false.
Proof.
  cbv zeta. pose proof (getTempTableName_plain_name prefix now uuid) as H.
  split; [exact H |]. split.
  - apply escapeName_ident_chars, plain_name_ident_chars, H.
  - destruct (getTempTableName prefix now uuid) as [|c r]; [discriminate |].
    simpl in H. apply andb_true_iff in H. destruct H as [Hc _].
    unfold firstCharIsNumeric. cbn [Py.truthy String.eqb negb].
    f_equal. revert Hc.
    destruct c as [[|] [|] [|] [|] [|] [|] [|] [|]]; vm_compute; congruence.
Qed.

Lemma rstrip_underscores (n : nat) :
  PyStr.rstrip_by (fun c => Ascii.eqb c "_"%char) (Py.repeat_str "_" n) = "".
Proof. induction n as [|n IH]; simpl; [reflexivity | now rewrite IH]. Qed.

Lemma rstrip_underscores_only (s : string) :
  PyStr.rstrip_by (fun c => Ascii.eqb c "_"%char) s = "" ->
  exists n, s = Py.repeat_str "_" n.
Proof.
  induction s as [|c r IH]; [now exists 0 |].
  cbn [PyStr.rstrip_by].
  destruct (PyStr.rstrip_by (fun c => Ascii.eqb c "_"%char) r); [| discriminate].
  destruct (Ascii.eqb c "_"%char) eqn:Hc; [| discriminate].
  intros _. apply Ascii.eqb_eq in Hc. subst c.
  destruct (IH eq_refl) as [n ->]. now exists (S n).
Qed.

(** X7. The prefix of the temporary name.  The fallback [tmp] is used exactly
    when the text of the prefix is empty or made of underscores only; any
    other prefix is used itself, without its trailing underscores.  The
    default prefix [None] is such a prefix: its text is [None], so the name
    starts with [None_] and not with [tmp_]. *)
Theorem getTempTableName_prefix (prefix : Py.pyval) (now uuid : string) :
  let stripped := PyStr.rstrip_by (fun c => Ascii.eqb c "_"%char) (Py.str prefix) in
  let rest := (cleanString now ++ "_" ++ cleanString (PyStr.remove_char "-"%char uuid))%string in
  let named p :=
    let tabName := (cleanString p ++ "_" ++ rest)%string in
    if Py.truthy (firstCharIsNumeric (Py.PStr tabName)) then ("_" ++ tabName)%string
    else tabName in
  (stripped = "" <-> exists n, Py.str prefix = Py.repeat_str "_" n)
  /\ (stripped = "" -> getTempTableName prefix now uuid = ("tmp_" ++ rest)%string)
  /\ (stripped <> "" -> getTempTableName prefix now uuid = named stripped)
  /\ getTempTableName Py.PNone now uuid = ("None_" ++ rest)%string.
Proof.
  cbv zeta. split; [| split; [| split]].
  - split; [apply rstrip_underscores_only |].
    intros [n ->]. apply rstrip_underscores.
  - intros H. rewrite getTempTableName_unfold. cbv zeta. rewrite H. reflexivity.
  - intros H. rewrite getTempTableName_unfold. cbv zeta.
    destruct (String.eqb_spec
                (PyStr.rstrip_by (fun c => Ascii.eqb c "_"%char) (Py.str prefix)) "");
      [contradiction | reflexivity].
  - rewrite getTempTableName_unfold. reflexivity.
Qed.

Lemma getTempTableName_prefix_witness :
  getTempTableName (Py.PStr "__") "20240101_101010" "ab-cd" = "tmp_20240101_101010_abcd"
  /\ getTempTableName (Py.PStr "1 grades__") "20240101_101010" "ab-cd"
     = "_1grades_20240101_101010_abcd".
Proof.
  split.
  - apply (proj1 (proj2 (getTempTableName_prefix (Py.PStr "__") "20240101_101010" "ab-cd"))).
    reflexivity.
  - apply (proj1 (proj2 (proj2
             (getTempTableName_prefix (Py.PStr "1 grades__") "20240101_101010" "ab-cd")))).
    discriminate.
Defined.

(** X8. For an argument whose text is ASCII, [firstCharIsNumeric] is true
    exactly for a string that starts with a digit, but its result is not
    always a boolean: a false argument (null, the empty string, zero) is
    returned as it is. *)
Theorem firstCharIsNumeric_cases (input_string : Py.pyval) :
  ascii_value input_string = true ->
  (Py.truthy (firstCharIsNumeric input_string) = true <->
   exists c r, input_string = Py.PStr (String c r)
               /\ (nat_of_ascii c <? 128) = true /\ PyStr.isdigit c = true)
  /\ (Py.truthy input_string = false -> firstCharIsNumeric input_string = input_string).
Proof.
  intros Hascii. split.
  - split.
    + unfold firstCharIsNumeric.
      destruct input_string as [|[|c r]|z|b]; cbn; try discriminate.
      * intros H. exists c, r. cbn in Hascii. apply andb_true_iff in Hascii.
        now destruct Hascii.
      * destruct (z =? 0)%Z eqn:Hz; cbn; [now rewrite Hz | discriminate].
      * destruct b; discriminate.
    + intros (c & r & -> & _ & Hd). cbn. exact Hd.
  - intros H. unfold firstCharIsNumeric. now rewrite H.
Qed.

Lemma firstCharIsNumeric_cases_witness :
  firstCharIsNumeric (Py.PInt 0) = Py.PInt 0
  /\ Py.truthy (firstCharIsNumeric (Py.PStr "2024_grades")) = true.
Proof.
  split.
  - apply (proj2 (firstCharIsNumeric_cases (Py.PInt 0) eq_refl)). reflexivity.
  - apply (proj1 (firstCharIsNumeric_cases (Py.PStr "2024_grades") eq_refl)).
    exists "2"%char, "024_grades". repeat split.
Defined.

(** ** [getSQL] *)

(** X9. [getSQL] gives the same statement for names that are already
    escaped: escaping the table and the columns beforehand changes
    nothing, and one column given as a string is a list of one column. *)
Theorem getSQL_escapes_once (tableName : string) (cols : str_or_list) (distinct : bool) :
  getSQL (escapeName tableName) (StrList (map escapeName (as_list cols))) distinct
  = getSQL tableName cols distinct
  /\ forall col, getSQL tableName (OneStr col) distinct = getSQL tableName (StrList [col]) distinct.
Proof.
  split; [| reflexivity].
  unfold getSQL. cbn [as_list]. rewrite escapeName_idem.
  rewrite map_map.
  rewrite (map_ext (fun x => escapeName (escapeName x)) escapeName) by apply escapeName_idem.
  reflexivity.
Qed.

(** ** [extract_actual_error] *)

Lemma rstrip_lstrip_comm (p : ascii -> bool) (s : string) :
  PyStr.rstrip_by p (PyStr.lstrip_by p s) = PyStr.lstrip_by p (PyStr.rstrip_by p s).
Proof.
  induction s as [|c r IH]; [reflexivity |].
  cbn [PyStr.lstrip_by PyStr.rstrip_by].
  destruct (p c) eqn:Hc.
  - rewrite IH. destruct (PyStr.rstrip_by p r) as [|c' r'] eqn:Hr; [reflexivity |].
    cbn [PyStr.lstrip_by]. now rewrite Hc.
  - cbn [PyStr.rstrip_by].
    destruct (PyStr.rstrip_by p r) as [|c' r'] eqn:Hr; rewrite ?Hc;
      cbn [PyStr.lstrip_by]; now rewrite Hc.
Qed.

Lemma strip_rstrip (s : string) :
  PyStr.strip (PyStr.rstrip_by PyStr.isspace s) = PyStr.strip s.
Proof. unfold PyStr.strip. now rewrite rstrip_by_idem. Qed.

Lemma strip_lstrip (s : string) :
  PyStr.strip (PyStr.lstrip_by PyStr.isspace s) = PyStr.strip s.
Proof. unfold PyStr.strip. now rewrite rstrip_lstrip_comm, lstrip_by_idem. Qed.

Lemma scan_found (lines : list string) (r : string) :
  extract_actual_error_scan lines = Some r ->
  exists before line after,
    lines = (before ++ line :: after)%list
    /\ Forall (fun l => String.prefix "Caused by:" (PyStr.strip l) = false) before
    /\ String.prefix "Caused by:" (PyStr.strip line) = true
    /\ r = PyStr.strip line.
Proof.
  induction lines as [|l rest IH]; [discriminate |].
  cbn [extract_actual_error_scan].
  destruct (String.prefix "Caused by:" (PyStr.strip l)) eqn:Hl.
  - intros H. injection H as <-. exists [], l, rest. repeat split; [constructor | exact Hl].
  - intros H. destruct (IH H) as (before & line & after & -> & Hb & Hp & ->).
    exists (l :: before), line, after. repeat split; [constructor; assumption | exact Hp].
Qed.

Lemma scan_none (lines : list string) :
  extract_actual_error_scan lines = None <->
  Forall (fun l => String.prefix "Caused by:" (PyStr.strip l) = false) lines.
Proof.
  induction lines as [|l rest IH]; [split; [constructor | reflexivity] |].
  cbn [extract_actual_error_scan].
  destruct (String.prefix "Caused by:" (PyStr.strip l)) eqn:Hl.
  - split; [discriminate |]. intros H. inversion H; congruence.
  - rewrite IH. split; [now constructor | intros H; now inversion H].
Qed.

Lemma scan_first (before after : list string) (line : string) :
  Forall (fun l => String.prefix "Caused by:" (PyStr.strip l) = false) before ->
  String.prefix "Caused by:" (PyStr.strip line) = true ->
  extract_actual_error_scan (before ++ line :: after) = Some (PyStr.strip line).
Proof.
  induction 1 as [|l before Hl _ IH]; intros Hp; cbn [app extract_actual_error_scan].
  - now rewrite Hp.
  - rewrite Hl. now apply IH.
Qed.

(** The result is the stripped form of one of the lines. *)
Lemma extract_actual_error_from_line (py4j_error : string) :
  exists line,
    In line (PyStr.split (ascii_of_nat 10) py4j_error)
    /\ extract_actual_error py4j_error = PyStr.strip line.
Proof.
  unfold extract_actual_error.
  destruct (extract_actual_error_scan _) as [r|] eqn:Hscan.
  - destruct (scan_found _ _ Hscan) as (before & line & after & Heq & _ & _ & ->).
    exists line. split; [| reflexivity]. rewrite Heq. apply in_or_app. right. now left.
  - pose proof (split_not_nil (ascii_of_nat 10) py4j_error) as Hne.
    destruct (PyStr.split _ py4j_error) as [|l rest]; [contradiction |].
    exists l. split; [now left | reflexivity].
Qed.

Lemma extract_actual_error_one_line (py4j_error : string) :
  PyStr.strip (extract_actual_error py4j_error) = extract_actual_error py4j_error
  /\ Py.has_char (ascii_of_nat 10) (extract_actual_error py4j_error) = false.
Proof.
  destruct (extract_actual_error_from_line py4j_error) as (line & Hin & ->).
  split; [apply strip_idem |].
  apply has_char_strip.
  pose proof (split_no_sep (ascii_of_nat 10) py4j_error) as Hall.
  rewrite Forall_forall in Hall. now apply Hall.
Qed.

(** X10. The message that [extract_actual_error] returns is one line
    without surrounding whitespace, taken from the lines of the error text,
    and extracting from it again gives the same message. *)
Theorem extract_actual_error_idempotent (py4j_error : string) :
  let message := extract_actual_error py4j_error in
  extract_actual_error message = message
  /\ PyStr.strip message = message
  /\ Py.has_char (ascii_of_nat 10) message = false
  /\ exists line, In line (PyStr.split (ascii_of_nat 10) py4j_error)
                  /\ message = PyStr.strip line.
Proof.
  cbv zeta.
  destruct (extract_actual_error_one_line py4j_error) as [Hstrip Hnl].
  split; [| split; [exact Hstrip | split; [exact Hnl | apply extract_actual_error_from_line]]].
  unfold extract_actual_error at 1.
  rewrite (split_without_sep _ _ Hnl). cbn [extract_actual_error_scan hd].
  rewrite Hstrip. now destruct (String.prefix _ _).
Qed.

(** X11. Which line [extract_actual_error] returns: the first line that,
    stripped, starts with [Caused by:], whatever follows it; the first line
    of the text when no line does. *)
Theorem extract_actual_error_first_cause (py4j_error : string) :
  (forall before line after,
      PyStr.split (ascii_of_nat 10) py4j_error = (before ++ line :: after)%list ->
      Forall (fun l => String.prefix "Caused by:" (PyStr.strip l) = false) before ->
      String.prefix "Caused by:" (PyStr.strip line) = true ->
      extract_actual_error py4j_error = PyStr.strip line)
  /\ (Forall (fun l => String.prefix "Caused by:" (PyStr.strip l) = false)
             (PyStr.split (ascii_of_nat 10) py4j_error) ->
      extract_actual_error py4j_error
      = PyStr.strip (PyStr.before_first (ascii_of_nat 10) py4j_error)).
Proof.
  split.
  - intros before line after Heq Hb Hp. unfold extract_actual_error.
    now rewrite Heq, (scan_first _ _ _ Hb Hp).
  - intros H. unfold extract_actual_error.
    apply scan_none in H. rewrite H. f_equal.
    clear H. induction py4j_error as [|c r IH]; [reflexivity |].
    cbn [PyStr.split PyStr.before_first].
    destruct (Ascii.eqb c (ascii_of_nat 10)); [reflexivity |].
    pose proof (split_not_nil (ascii_of_nat 10) r) as Hne.
    destruct (PyStr.split (ascii_of_nat 10) r); [contradiction |].
    cbn [hd] in *. now rewrite IH.
Qed.

Lemma extract_actual_error_first_cause_witness :
  extract_actual_error
    ("An error occurred" ++ newline ++ "  Caused by: first  " ++ newline ++ "Caused by: second")
  = "Caused by: first"
  /\ extract_actual_error ("  Table not found " ++ newline ++ "at line 3")
     = "Table not found".
Proof.
  split.
  - apply (proj1 (extract_actual_error_first_cause _)
             ["An error occurred"] "  Caused by: first  " ["Caused by: second"]).
    + reflexivity.
    + repeat constructor.
    + reflexivity.
  - apply (proj2 (extract_actual_error_first_cause
                    ("  Table not found " ++ newline ++ "at line 3"))).
    repeat constructor.
Defined.

(** ** Letter case *)

Ltac ascii_cases c :=
  destruct c as [[|] [|] [|] [|] [|] [|] [|] [|]]; vm_compute; (reflexivity || congruence).

Lemma to_lower_to_upper (c : ascii) : Py.to_lower (Py.to_upper c) = Py.to_lower c.
Proof. ascii_cases c. Qed.

Lemma to_upper_to_lower (c : ascii) : Py.to_upper (Py.to_lower c) = Py.to_upper c.
Proof. ascii_cases c. Qed.

Lemma isspace_to_lower (c : ascii) : PyStr.isspace (Py.to_lower c) = PyStr.isspace c.
Proof. ascii_cases c. Qed.

Lemma is_delimiter_to_lower (c : ascii) : is_delimiter (Py.to_lower c) = is_delimiter c.
Proof. ascii_cases c. Qed.

Lemma is_delimiter_to_upper (c : ascii) : is_delimiter (Py.to_upper c) = is_delimiter c.
Proof. ascii_cases c. Qed.

Lemma lower_idem (s : string) : PyStr.lower (PyStr.lower s) = PyStr.lower s.
Proof. induction s as [|c r IH]; simpl; [reflexivity | now rewrite to_lower_idem, IH]. Qed.

Lemma lower_upper (s : string) : PyStr.lower (PyStr.upper s) = PyStr.lower s.
Proof. induction s as [|c r IH]; simpl; [reflexivity | now rewrite to_lower_to_upper, IH]. Qed.

Lemma lower_capitalize (s : string) : PyStr.lower (PyStr.capitalize s) = PyStr.lower s.
Proof. destruct s as [|c r]; simpl; [reflexivity | now rewrite to_lower_to_upper, lower_idem]. Qed.

Lemma capitalize_idem (s : string) :
  PyStr.capitalize (PyStr.capitalize s) = PyStr.capitalize s.
Proof. destruct s as [|c r]; simpl; [reflexivity | now rewrite to_upper_idem, lower_idem]. Qed.

Lemma lower_app (x y : string) :
  PyStr.lower (x ++ y) = (PyStr.lower x ++ PyStr.lower y)%string.
Proof. induction x as [|c x IH]; simpl; [reflexivity | now rewrite IH]. Qed.

Lemma lower_length (s : string) : String.length (PyStr.lower s) = String.length s.
Proof. induction s as [|c r IH]; simpl; [reflexivity | now rewrite IH]. Qed.

Lemma lower_empty (s : string) : PyStr.lower s = "" -> s = "".
Proof. destruct s; [reflexivity | discriminate]. Qed.

Lemma lstrip_lower (s : string) :
  PyStr.lstrip_by PyStr.isspace (PyStr.lower s) = PyStr.lower (PyStr.lstrip_by PyStr.isspace s).
Proof.
  induction s as [|c r IH]; simpl; [reflexivity |].
  rewrite isspace_to_lower. destruct (PyStr.isspace c); [exact IH | reflexivity].
Qed.

Lemma rstrip_lower (s : string) :
  PyStr.rstrip_by PyStr.isspace (PyStr.lower s) = PyStr.lower (PyStr.rstrip_by PyStr.isspace s).
Proof.
  induction s as [|c r IH]; simpl; [reflexivity |].
  rewrite IH, isspace_to_lower.
  destruct (PyStr.rstrip_by PyStr.isspace r); simpl; [| reflexivity].
  now destruct (PyStr.isspace c).
Qed.

Lemma strip_lower (s : string) : PyStr.strip (PyStr.lower s) = PyStr.lower (PyStr.strip s).
Proof. unfold PyStr.strip. now rewrite rstrip_lower, lstrip_lower. Qed.

(** ** [garbageCLO] *)

Lemma garbageCLO_str (s : string) :
  garbageCLO (Py.PStr s) = String.eqb s "" || String.eqb (PyStr.lower (PyStr.strip s)) "n/a".
Proof.
  unfold garbageCLO. cbn [Py.truthy Py.isinstance_str Py.str negb].
  rewrite negb_involutive, orb_false_r, strip_lower. reflexivity.
Qed.

(** X12. [garbageCLO] on strings does not look at letter case, and it does
    not look at surrounding whitespace as long as something is left when
    the whitespace is stripped; a string of whitespace only is not garbage,
    although the empty string is. *)
Theorem garbageCLO_case_and_blanks (s : string) :
  garbageCLO (Py.PStr (PyStr.upper s)) = garbageCLO (Py.PStr s)
  /\ garbageCLO (Py.PStr (PyStr.lower s)) = garbageCLO (Py.PStr s)
  /\ (PyStr.strip s <> "" -> garbageCLO (Py.PStr (PyStr.strip s)) = garbageCLO (Py.PStr s))
  /\ (s <> "" -> PyStr.strip s = "" -> garbageCLO (Py.PStr s) = false)
  /\ garbageCLO (Py.PStr "") = true.
Proof.
  assert (Hempty : forall x y : string, (x = "" <-> y = "") -> String.eqb x "" = String.eqb y "").
  { intros x y H. destruct (String.eqb_spec x ""), (String.eqb_spec y ""); tauto. }
  split; [| split; [| split; [| split]]].
  - rewrite !garbageCLO_str, <- !strip_lower, lower_upper.
    f_equal. apply Hempty. destruct s; simpl; split; congruence.
  - rewrite !garbageCLO_str, <- !strip_lower, lower_idem.
    f_equal. apply Hempty. destruct s; simpl; split; congruence.
  - intros Hne. rewrite !garbageCLO_str, strip_idem.
    f_equal. destruct (String.eqb_spec (PyStr.strip s) ""); [contradiction |].
    destruct (String.eqb_spec s ""); [subst s; now contradiction Hne | reflexivity].
  - intros Hne Hblank. rewrite garbageCLO_str, Hblank.
    destruct (String.eqb_spec s ""); [contradiction | reflexivity].
  - reflexivity.
Qed.

Lemma garbageCLO_case_and_blanks_witness :
  garbageCLO (Py.PStr "N/A") = garbageCLO (Py.PStr "  N/A ")
  /\ garbageCLO (Py.PStr "   ") = false.
Proof.
  split.
  - apply (proj1 (proj2 (proj2 (garbageCLO_case_and_blanks "  N/A ")))). discriminate.
  - apply (proj1 (proj2 (proj2 (proj2 (garbageCLO_case_and_blanks "   "))))).
    + discriminate.
    + reflexivity.
Defined.

(** ** [custom_initcap] *)

Lemma list_ind2 {A : Type} (P : list A -> Prop) :
  P [] -> (forall x, P [x]) -> (forall x y l, P l -> P (x :: y :: l)) -> forall l, P l.
Proof.
  intros H0 H1 H2. fix IH 1. intros [|x [|y l]]; [exact H0 | apply H1 |].
  apply H2, IH.
Qed.

Lemma split_by_delimiters_not_nil (s : string) : split_string_by_delimiters s <> [].
Proof.
  induction s as [|c r IH]; simpl; [discriminate |].
  destruct (is_delimiter c); [discriminate |].
  destruct (split_string_by_delimiters r); [contradiction | discriminate].
Qed.

Lemma join_empty_cons (x : string) (rest : list string) :
  PyStr.join "" (x :: rest) = (x ++ PyStr.join "" rest)%string.
Proof. destruct rest; simpl; [now rewrite string_app_nil_r | reflexivity]. Qed.

Lemma join_empty_app (l1 l2 : list string) :
  PyStr.join "" (l1 ++ l2) = (PyStr.join "" l1 ++ PyStr.join "" l2)%string.
Proof.
  induction l1 as [|x l1 IH]; [reflexivity |].
  change ((x :: l1) ++ l2)%list with (x :: (l1 ++ l2))%list.
  now rewrite !join_empty_cons, IH, string_app_assoc.
Qed.

(** Reassembling the parts gives the string back. *)
Lemma reassemble_split (s : string) :
  reassemble_string (split_string_by_delimiters s) = s.
Proof.
  unfold reassemble_string.
  induction s as [|c r IH]; [reflexivity |].
  cbn [split_string_by_delimiters].
  destruct (is_delimiter c).
  - rewrite !join_empty_cons, IH. reflexivity.
  - pose proof (split_by_delimiters_not_nil r) as Hne.
    destruct (split_string_by_delimiters r) as [|w ws]; [contradiction |].
    rewrite join_empty_cons in *. simpl. now rewrite IH.
Qed.

Lemma split_alternating (s : string) :
  InitcapInv.alternating (split_string_by_delimiters s) = true.
Proof.
  induction s as [|c r IH]; [reflexivity |].
  cbn [split_string_by_delimiters].
  destruct (is_delimiter c) eqn:Hc.
  - cbn [InitcapInv.alternating InitcapInv.delimiter_free].
    change (Py.contains delimiters (String c "")) with (is_delimiter c).
    now rewrite Hc, IH.
  - destruct (split_string_by_delimiters r) as [|w [|d rest]]; [discriminate | |];
      cbn [InitcapInv.alternating InitcapInv.delimiter_free] in *; now rewrite Hc.
Qed.

Lemma split_delimiter_free (t : string) :
  InitcapInv.delimiter_free t = true -> split_string_by_delimiters t = [t].
Proof.
  induction t as [|x t IH]; [reflexivity |].
  cbn [InitcapInv.delimiter_free split_string_by_delimiters].
  intros H. apply andb_true_iff in H. destruct H as [Hx Ht].
  apply negb_true_iff in Hx. now rewrite Hx, (IH Ht).
Qed.

(** Splitting at a delimiter that is there splits both sides. *)
Lemma split_by_delimiters_app (s1 s2 : string) (c : ascii) :
  is_delimiter c = true ->
  split_string_by_delimiters (s1 ++ String c s2)
  = (split_string_by_delimiters s1 ++ String c "" :: split_string_by_delimiters s2)%list.
Proof.
  intros Hc. induction s1 as [|x s1 IH]; cbn [append split_string_by_delimiters].
  - now rewrite Hc.
  - rewrite IH. destruct (is_delimiter x); [reflexivity |].
    pose proof (split_by_delimiters_not_nil s1) as Hne.
    destruct (split_string_by_delimiters s1); [contradiction | reflexivity].
Qed.

Lemma delimiter_single (d : string) :
  Py.contains delimiters d = true -> exists c, d = String c "" /\ is_delimiter c = true.
Proof.
  unfold Py.contains, delimiters. cbn [existsb].
  intros H. repeat (apply orb_true_iff in H; destruct H as [H|H]);
    try discriminate;
    apply String.eqb_eq in H; subst d; eexists; split; reflexivity.
Qed.

(** Parts of the shape that [re.split] gives come back from a split of
    their concatenation. *)
Lemma split_reassemble (parts : list string) :
  InitcapInv.alternating parts = true ->
  split_string_by_delimiters (reassemble_string parts) = parts.
Proof.
  unfold reassemble_string.
  induction parts as [| t | t d rest IH] using list_ind2; [discriminate | |].
  - cbn [InitcapInv.alternating PyStr.join]. apply split_delimiter_free.
  - cbn [InitcapInv.alternating]. intros H.
    apply andb_true_iff in H. destruct H as [H Hrest].
    apply andb_true_iff in H. destruct H as [Ht Hd].
    destruct (delimiter_single _ Hd) as (c & -> & Hc).
    rewrite !join_empty_cons.
    change (String c "" ++ PyStr.join "" rest)%string with (String c (PyStr.join "" rest)).
    rewrite (split_by_delimiters_app _ _ _ Hc), (split_delimiter_free _ Ht), (IH Hrest).
    reflexivity.
Qed.

Lemma delimiter_free_lower (t : string) :
  InitcapInv.delimiter_free (PyStr.lower t) = InitcapInv.delimiter_free t.
Proof.
  induction t as [|c t IH]; simpl; [reflexivity | now rewrite is_delimiter_to_lower, IH].
Qed.

Lemma delimiter_free_capitalize (t : string) :
  InitcapInv.delimiter_free (PyStr.capitalize t) = InitcapInv.delimiter_free t.
Proof.
  destruct t as [|c t]; simpl; [reflexivity |].
  now rewrite is_delimiter_to_upper, delimiter_free_lower.
Qed.

Lemma capitalize_part_cases (part : string) :
  capitalize_part part = part
  \/ capitalize_part part = PyStr.lower part
  \/ capitalize_part part = PyStr.capitalize part.
Proof.
  unfold capitalize_part.
  destruct (Py.contains delimiters part || is_mixed_case part); [now left |].
  destruct (output_as_lowercase part); [right; now left | right; now right].
Qed.

Lemma delimiter_free_capitalize_part (t : string) :
  InitcapInv.delimiter_free (capitalize_part t) = InitcapInv.delimiter_free t.
Proof.
  destruct (capitalize_part_cases t) as [-> | [-> | ->]];
    [reflexivity | apply delimiter_free_lower | apply delimiter_free_capitalize].
Qed.

Lemma lower_capitalize_part (t : string) :
  PyStr.lower (capitalize_part t) = PyStr.lower t.
Proof.
  destruct (capitalize_part_cases t) as [-> | [-> | ->]];
    [reflexivity | apply lower_idem | apply lower_capitalize].
Qed.

Lemma capitalize_part_delimiter (d : string) :
  Py.contains delimiters d = true -> capitalize_part d = d.
Proof. intros H. unfold capitalize_part. now rewrite H. Qed.

Lemma capitalize_part_idem (part : string) :
  capitalize_part (capitalize_part part) = capitalize_part part.
Proof.
  destruct (Py.contains delimiters part || is_mixed_case part) eqn:H1.
  - assert (E : capitalize_part part = part) by (unfold capitalize_part; now rewrite H1).
    now rewrite !E.
  - destruct (output_as_lowercase part) eqn:H2.
    + assert (E : capitalize_part part = PyStr.lower part)
        by (unfold capitalize_part; now rewrite H1, H2).
      rewrite E. unfold capitalize_part.
      destruct (Py.contains delimiters (PyStr.lower part) || is_mixed_case (PyStr.lower part));
        [reflexivity |].
      unfold output_as_lowercase in *. rewrite lower_idem, H2. reflexivity.
    + assert (E : capitalize_part part = PyStr.capitalize part)
        by (unfold capitalize_part; now rewrite H1, H2).
      rewrite E. unfold capitalize_part.
      destruct (Py.contains delimiters (PyStr.capitalize part)
                || is_mixed_case (PyStr.capitalize part)); [reflexivity |].
      unfold output_as_lowercase in *. rewrite lower_capitalize, H2.
      apply capitalize_idem.
Qed.

Lemma capitalize_parts_alternating (parts : list string) :
  InitcapInv.alternating parts = true ->
  InitcapInv.alternating (capitalize_parts parts) = true.
Proof.
  unfold capitalize_parts.
  induction parts as [| t | t d rest IH] using list_ind2; [discriminate | |].
  - cbn [map InitcapInv.alternating]. now rewrite delimiter_free_capitalize_part.
  - cbn [map InitcapInv.alternating]. intros H.
    apply andb_true_iff in H. destruct H as [H Hrest].
    apply andb_true_iff in H. destruct H as [Ht Hd].
    now rewrite delimiter_free_capitalize_part, Ht, (capitalize_part_delimiter _ Hd), Hd, IH.
Qed.

(** The capitalisation of a string, after the test on its truth value. *)
Lemma custom_initcap_str (s : string) :
  s <> "" ->
  custom_initcap (Py.PStr s)
  = Some (reassemble_string (capitalize_parts (split_string_by_delimiters s))).
Proof.
  intros H. unfold custom_initcap. cbn [Py.truthy Py.str].
  destruct (String.eqb_spec s ""); [contradiction | reflexivity].
Qed.

Lemma lower_reassemble (parts : list string) :
  PyStr.lower (reassemble_string (capitalize_parts parts))
  = PyStr.lower (reassemble_string parts).
Proof.
  unfold reassemble_string, capitalize_parts.
  induction parts as [|p parts IH]; [reflexivity |].
  cbn [map]. now rewrite !join_empty_cons, !lower_app, lower_capitalize_part, IH.
Qed.

Lemma initcap_idem (s : string) :
  let r := reassemble_string (capitalize_parts (split_string_by_delimiters s)) in
  reassemble_string (capitalize_parts (split_string_by_delimiters r)) = r.
Proof.
  cbv zeta.
  rewrite split_reassemble by apply capitalize_parts_alternating, split_alternating.
  f_equal. unfold capitalize_parts. rewrite map_map.
  apply map_ext. intros p. apply capitalize_part_idem.
Qed.

Lemma initcap_lower (s : string) :
  PyStr.lower (reassemble_string (capitalize_parts (split_string_by_delimiters s)))
  = PyStr.lower s.
Proof. now rewrite lower_reassemble, reassemble_split. Qed.

Lemma custom_initcap_result (name : Py.pyval) (r : string) :
  custom_initcap name = Some r ->
  Py.truthy name = true
  /\ r = reassemble_string (capitalize_parts (split_string_by_delimiters (Py.str name))).
Proof.
  unfold custom_initcap. destruct (Py.truthy name); cbn [negb]; [| discriminate].
  intros H. injection H as <-. now split.
Qed.

Lemma isascii_lower (s : string) : PyStr.isascii (PyStr.lower s) = PyStr.isascii s.
Proof.
  induction s as [|c s IH]; [reflexivity |].
  cbn [PyStr.lower PyStr.isascii]. rewrite IH. f_equal. apply (isascii_case c false).
Qed.

Lemma isascii_initcap (s : string) :
  PyStr.isascii (reassemble_string (capitalize_parts (split_string_by_delimiters s)))
  = PyStr.isascii s.
Proof. now rewrite <- isascii_lower, initcap_lower, isascii_lower. Qed.

(** X13. On ASCII text, [custom_initcap] changes nothing but the case of
    letters: its result and the text of its argument are equal when both
    are put in lower case, so they have the same length and the same
    delimiters, digits and punctuation at the same places, and the result
    is ASCII text again.  It returns [None] exactly for an argument that
    Python counts as false. *)
Theorem custom_initcap_case_only (name : Py.pyval) :
  ascii_value name = true ->
  (custom_initcap name = None <-> Py.truthy name = false)
  /\ forall r, custom_initcap name = Some r ->
               PyStr.lower r = PyStr.lower (Py.str name)
               /\ String.length r = String.length (Py.str name)
               /\ PyStr.isascii r = true.
Proof.
  intros Hascii. split.
  - unfold custom_initcap. destruct (Py.truthy name); cbn [negb]; split; congruence.
  - intros r H. destruct (custom_initcap_result _ _ H) as [_ ->].
    pose proof (initcap_lower (Py.str name)) as Hl.
    split; [exact Hl |]. split.
    + rewrite <- (lower_length (Py.str name)), <- Hl. symmetry. apply lower_length.
    + rewrite isascii_initcap. now apply isascii_str.
Qed.

Lemma custom_initcap_case_only_witness :
  PyStr.lower "O'Neil de La-Rosa" = PyStr.lower "o'neil DE la-ROSA".
Proof.
  apply (proj2 (custom_initcap_case_only (Py.PStr "o'neil DE la-ROSA") eq_refl)
               "O'Neil de La-Rosa").
  reflexivity.
Defined.

(** X14. On ASCII text, [custom_initcap] is idempotent: a name it returned
    is ASCII text again and is returned unchanged when it is capitalised
    again. *)
Theorem custom_initcap_idempotent (name : Py.pyval) (r : string) :
  ascii_value name = true ->
  custom_initcap name = Some r ->
  ascii_value (Py.PStr r) = true /\ custom_initcap (Py.PStr r) = Some r.
Proof.
  intros Hascii H. destruct (custom_initcap_result _ _ H) as [Ht ->]. split.
  - cbn [ascii_value]. rewrite isascii_initcap. now apply isascii_str.
  - rewrite custom_initcap_str.
    + f_equal. apply initcap_idem.
    + intros Hempty. apply (str_nonempty _ Ht).
      apply lower_empty. rewrite <- initcap_lower, Hempty. reflexivity.
Qed.

Lemma custom_initcap_idempotent_witness :
  custom_initcap (Py.PStr "Mary-Jane mcDonald of X") = Some "Mary-Jane mcDonald of X".
Proof.
  apply (custom_initcap_idempotent (Py.PStr "mary-jane mcDonald OF x")); reflexivity.
Defined.

(** X15. [custom_initcap] works on the texts between delimiters one by
    one: for a delimiter (space, apostrophe, dash, backtick or slash)
    between two non-empty strings, the result is the result for the left
    string, the delimiter, and the result for the right string. *)
Theorem custom_initcap_delimiter (s1 s2 r1 r2 : string) (c : ascii) :
  is_delimiter c = true ->
  custom_initcap (Py.PStr s1) = Some r1 ->
  custom_initcap (Py.PStr s2) = Some r2 ->
  custom_initcap (Py.PStr (s1 ++ String c s2)) = Some (r1 ++ String c r2)%string.
Proof.
  intros Hc H1 H2.
  destruct (custom_initcap_result _ _ H1) as [_ ->].
  destruct (custom_initcap_result _ _ H2) as [_ ->].
  rewrite custom_initcap_str by (destruct s1; discriminate).
  cbn [Py.str]. f_equal.
  rewrite (split_by_delimiters_app _ _ _ Hc).
  unfold capitalize_parts, reassemble_string.
  rewrite map_app, join_empty_app. cbn [map].
  rewrite join_empty_cons, capitalize_part_delimiter by exact Hc.
  reflexivity.
Qed.

Lemma custom_initcap_delimiter_witness :
  custom_initcap (Py.PStr "mary-jane o'neil") = Some "Mary-Jane O'Neil".
Proof.
  apply (custom_initcap_delimiter "mary-jane" "o'neil" "Mary-Jane" "O'Neil" " "%char);
    reflexivity.
Defined.

(** ** [fixUpName] *)

Lemma has_char_before_first (c sep : ascii) (s : string) :
  Py.has_char c s = false -> Py.has_char c (PyStr.before_first sep s) = false.
Proof.
  induction s as [|x r IH]; simpl; [reflexivity |].
  intros H. apply orb_false_iff in H. destruct H as [Hx Hr].
  destruct (Ascii.eqb x sep); [reflexivity |]. simpl. now rewrite Hx, IH.
Qed.

Lemma before_first_no_sep (sep : ascii) (s : string) :
  Py.has_char sep (PyStr.before_first sep s) = false.
Proof.
  induction s as [|x r IH]; simpl; [reflexivity |].
  destruct (Ascii.eqb x sep) eqn:Hx; [reflexivity |]. simpl. now rewrite Hx, IH.
Qed.

Lemma before_first_without_sep (sep : ascii) (s : string) :
  Py.has_char sep s = false -> PyStr.before_first sep s = s.
Proof.
  induction s as [|x r IH]; simpl; [reflexivity |].
  intros H. apply orb_false_iff in H. destruct H as [Hx Hr]. now rewrite Hx, IH.
Qed.

Lemma has_char_join (c : ascii) (sep : string) (parts : list string) :
  Py.has_char c sep = false ->
  Forall (fun p => Py.has_char c p = false) parts ->
  Py.has_char c (PyStr.join sep parts) = false.
Proof.
  intros Hsep. induction 1 as [|p parts Hp _ IH]; [reflexivity |].
  destruct parts as [|q parts]; [exact Hp |].
  rewrite join_cons by discriminate. now rewrite !has_char_app, Hp, Hsep, IH.
Qed.

Lemma Forall_strip_rev (c : ascii) (parts : list string) :
  Forall (fun p => Py.has_char c p = false) parts ->
  Forall (fun p => Py.has_char c p = false) (map PyStr.strip (rev parts)).
Proof.
  intros H. apply Forall_map, Forall_rev.
  eapply Forall_impl; [| exact H]. intros p Hp. now apply has_char_strip.
Qed.

(** X16. A string returned by [fixUpName] has no comma and no opening
    parenthesis. *)
Theorem fixUpName_no_comma (name : string) (r : string) :
  fixUpName (Py.PStr name) = inr (Py.PStr r) ->
  Py.has_char ","%char r = false /\ Py.has_char "("%char r = false.
Proof.
  unfold fixUpName. cbn [Py.truthy].
  destruct (String.eqb_spec name "") as [-> | Hne]; cbn [negb].
  - intros H. injection H as <-. now split.
  - destruct (String.eqb (PyStr.strip name) ","); [discriminate |].
    destruct (custom_initcap (Py.PStr name)) as [c|]; [| discriminate].
    set (n := PyStr.strip (PyStr.before_first "("%char c)).
    assert (Hparen : Py.has_char "("%char n = false)
      by apply has_char_strip, before_first_no_sep.
    destruct (Py.has_char ","%char n) eqn:Hcomma; intros H; injection H as <-.
    + split; (apply has_char_join; [reflexivity | apply Forall_strip_rev]).
      * apply split_no_sep.
      * now apply split_has_char.
    + now split.
Qed.

Lemma fixUpName_no_comma_witness :
  Py.has_char ","%char "John Smith" = false /\ Py.has_char "("%char "John Smith" = false.
Proof. apply (fixUpName_no_comma "smith, john (jr)" "John Smith"). reflexivity. Defined.

Lemma lstrip_app_kept (p : ascii -> bool) (x : string) (c : ascii) (y : string) :
  p c = false ->
  PyStr.lstrip_by p (x ++ String c y) = (PyStr.lstrip_by p x ++ String c y)%string.
Proof.
  intros Hc. induction x as [|a x IH]; simpl; [now rewrite Hc |].
  destruct (p a); [exact IH | reflexivity].
Qed.

Lemma rstrip_cons_kept (p : ascii -> bool) (c : ascii) (y : string) :
  p c = false -> PyStr.rstrip_by p (String c y) = String c (PyStr.rstrip_by p y).
Proof.
  intros Hc. simpl. destruct (PyStr.rstrip_by p y); [now rewrite Hc | reflexivity].
Qed.

Lemma rstrip_app_kept (p : ascii -> bool) (x : string) (c : ascii) (y : string) :
  p c = false ->
  PyStr.rstrip_by p (x ++ String c y) = (x ++ String c (PyStr.rstrip_by p y))%string.
Proof.
  intros Hc. induction x as [|a x IH].
  - now apply rstrip_cons_kept.
  - cbn [append PyStr.rstrip_by]. rewrite IH.
    destruct x; reflexivity.
Qed.

(** Stripping around a character that is not whitespace. *)
Lemma strip_around (x : string) (c : ascii) (y : string) :
  PyStr.isspace c = false ->
  PyStr.strip (x ++ String c y)
  = (PyStr.lstrip_by PyStr.isspace x ++ String c (PyStr.rstrip_by PyStr.isspace y))%string.
Proof.
  intros Hc. unfold PyStr.strip.
  now rewrite (rstrip_app_kept _ _ _ _ Hc), (lstrip_app_kept _ _ _ _ Hc).
Qed.

(** X17. [fixUpName] turns [Last, First] into [First Last]: when the
    capitalised name is [l,f] with no other comma and no parenthesis, the
    result is [f] and [l], each stripped, with one space between them. *)
Theorem fixUpName_swaps (name l f : string) :
  String.eqb (PyStr.strip name) "," = false ->
  custom_initcap (Py.PStr name) = Some (l ++ "," ++ f)%string ->
  Py.has_char ","%char l = false -> Py.has_char ","%char f = false ->
  Py.has_char "("%char l = false -> Py.has_char "("%char f = false ->
  fixUpName (Py.PStr name) = inr (Py.PStr (PyStr.strip f ++ " " ++ PyStr.strip l)).
Proof.
  intros Hlone Hcap Hl Hf Hpl Hpf.
  destruct (custom_initcap_result _ _ Hcap) as [Htruthy _].
  unfold fixUpName. rewrite Htruthy, Hlone, Hcap. cbn [negb].
  change (l ++ "," ++ f)%string with (l ++ String ","%char f)%string.
  rewrite before_first_without_sep
    by (rewrite has_char_app; cbn [Py.has_char]; now rewrite Hpl, Hpf).
  rewrite strip_around by reflexivity.
  rewrite has_char_app. cbn [Py.has_char]. rewrite Ascii.eqb_refl, orb_true_r.
  rewrite split_app.
  rewrite !split_without_sep by (now apply has_char_lstrip || now apply has_char_rstrip).
  cbn [app rev map PyStr.join].
  now rewrite strip_rstrip, strip_lstrip.
Qed.

Lemma fixUpName_swaps_witness :
  fixUpName (Py.PStr "o'neil , mary-jane") = inr (Py.PStr "Mary-Jane O'Neil").
Proof.
  apply (fixUpName_swaps "o'neil , mary-jane" "O'Neil " " Mary-Jane"); reflexivity.
Defined.

(** ** [replaceValueInList] and [insertValueIntoList] *)

Lemma replaceValueInList_absent (theList : list string) (oldVal newVal : string) :
  ~ In oldVal theList -> replaceValueInList theList oldVal newVal = theList.
Proof.
  unfold replaceValueInList. induction theList as [|x l IH]; [reflexivity |].
  intros H. cbn [map].
  destruct (String.eqb_spec x oldVal) as [-> | _]; [contradiction H; now left |].
  rewrite IH; [reflexivity | intros Hin; apply H; now right].
Qed.

Lemma replaceValueInList_removes (theList : list string) (oldVal newVal : string) :
  oldVal <> newVal -> ~ In oldVal (replaceValueInList theList oldVal newVal).
Proof.
  intros Hne Hin. unfold replaceValueInList in Hin.
  apply in_map_iff in Hin. destruct Hin as (x & Hx & _).
  destruct (String.eqb_spec x oldVal); congruence.
Qed.

Lemma replaceValueInList_In (theList : list string) (oldVal newVal x : string) :
  In x (replaceValueInList theList oldVal newVal) <->
  (x = newVal /\ In oldVal theList) \/ (x <> oldVal /\ In x theList).
Proof.
  unfold replaceValueInList. rewrite in_map_iff. split.
  - intros (y & Hy & Hin). destruct (String.eqb_spec y oldVal); subst; auto.
  - intros [[-> Hin] | [Hne Hin]].
    + exists oldVal. now rewrite String.eqb_refl.
    + exists x. destruct (String.eqb_spec x oldVal); [contradiction | auto].
Qed.

(** X18. [replaceValueInList] keeps the length of the list, leaves a list
    without the old value as it is, leaves no occurrence of the old value
    when the new value is another one, and replacing a second time changes
    nothing. *)
Theorem replaceValueInList_facts (theList : list string) (oldVal newVal : string) :
  List.length (replaceValueInList theList oldVal newVal) = List.length theList
  /\ (~ In oldVal theList -> replaceValueInList theList oldVal newVal = theList)
  /\ (oldVal <> newVal -> ~ In oldVal (replaceValueInList theList oldVal newVal))
  /\ replaceValueInList (replaceValueInList theList oldVal newVal) oldVal newVal
     = replaceValueInList theList oldVal newVal.
Proof.
  split; [apply length_map |].
  split; [apply replaceValueInList_absent |].
  split; [apply replaceValueInList_removes |].
  destruct (string_dec oldVal newVal) as [-> | Hne].
  - unfold replaceValueInList. rewrite map_map. apply map_ext. intros x.
    destruct (String.eqb_spec x newVal) as [-> | Hx].
    + now rewrite String.eqb_refl.
    + apply String.eqb_neq in Hx. now rewrite Hx.
  - now apply replaceValueInList_absent, replaceValueInList_removes.
Qed.

Lemma replaceValueInList_facts_witness :
  replaceValueInList ["a"; "b"] "c" "d" = ["a"; "b"]
  /\ ~ In "a" (replaceValueInList ["a"; "b"; "a"] "a" "z").
Proof.
  split.
  - apply (proj1 (proj2 (replaceValueInList_facts ["a"; "b"] "c" "d"))). list_not_in.
  - apply (proj1 (proj2 (proj2 (replaceValueInList_facts ["a"; "b"; "a"] "a" "z")))).
    discriminate.
Defined.

(** X19. Whatever branch [insertValueIntoList] takes, its result has the
    new value, has every value of the list it was given, has no value other
    than those, and is as long as that list or one longer. *)
Theorem insertValueIntoList_keeps_values (theList : list string) (oldVal newVal : string) :
  let result := insertValueIntoList theList oldVal newVal in
  In newVal result
  /\ (forall x, In x theList -> In x result)
  /\ (forall x, In x result -> In x theList \/ x = newVal)
  /\ List.length theList <= List.length result <= S (List.length theList).
Proof.
  cbv zeta. unfold insertValueIntoList.
  destruct (Py.contains theList oldVal) eqn:Hold; cbn [negb].
  - apply contains_In in Hold.
    destruct (Py.contains theList newVal) eqn:Hnew.
    + apply contains_In in Hnew. repeat split; auto; lia.
    + rewrite insertValueIntoList_loop_spec. cbn [app].
      split; [| split; [| split]].
      * apply in_or_app. left. apply replaceValueInList_In. now left.
      * intros x Hx. apply in_or_app.
        destruct (string_dec x oldVal) as [-> | Hne]; [right; now left |].
        left. apply replaceValueInList_In. now right.
      * intros x Hx. apply in_app_or in Hx. destruct Hx as [Hx | [<- | []]].
        -- apply replaceValueInList_In in Hx. tauto.
        -- now left.
      * rewrite length_app. unfold replaceValueInList. rewrite length_map. simpl. lia.
  - split; [| split; [| split]].
    + apply in_or_app. right. now left.
    + intros x Hx. apply in_or_app. now left.
    + intros x Hx. apply in_app_or in Hx. destruct Hx as [Hx | [<- | []]]; auto.
    + rewrite length_app. simpl. lia.
Qed.

(** ** [insertColumnAndAlias] *)

Lemma insertColumnAndAlias_result (columns : list string) (valColumn indexColumn : string)
      (mapColumns : option (list string)) :
  exists notes,
    insertColumnAndAlias columns valColumn indexColumn mapColumns
    = (notes,
       inr (map (alias_more (match mapColumns with Some l => l | None => [] end))
                (map (alias_column valColumn indexColumn)
                     (insertValueIntoList columns valColumn indexColumn)))).
Proof.
  unfold insertColumnAndAlias.
  set (aliased := map (alias_column valColumn indexColumn) _).
  assert (Hnil : map (alias_more []) aliased = aliased).
  { rewrite <- (map_id aliased) at 2. apply map_ext. intros c. apply alias_more_nil. }
  destruct mapColumns as [[|m ms]|]; cbv iota.
  - exists []. unfold ret. now rewrite Hnil.
  - destruct (list_eq_dec string_dec _ aliased) as [Heq | Hneq]; cbn [negb].
    + exists []. unfold ret. now rewrite Heq.
    + eexists. reflexivity.
  - exists []. unfold ret. now rewrite Hnil.
Qed.

(** X20. [insertColumnAndAlias] never raises, returns one name for each
    value of the list that [insertValueIntoList] gives, and when the lookup
    columns are given, no name that it returns without a qualifier is the
    name of a lookup column. *)
Theorem insertColumnAndAlias_unambiguous
        (columns : list string) (valColumn indexColumn : string)
        (mapColumns : option (list string)) :
  exists notes selected,
    insertColumnAndAlias columns valColumn indexColumn mapColumns = (notes, inr selected)
    /\ List.length selected
       = List.length (insertValueIntoList columns valColumn indexColumn)
    /\ forall lookup c,
         mapColumns = Some lookup -> In c selected ->
         Py.has_char "."%char c = false -> ~ In c lookup.
Proof.
  destruct (insertColumnAndAlias_result columns valColumn indexColumn mapColumns)
    as [notes Hrun].
  eexists. eexists. split; [exact Hrun |]. split; [now rewrite !length_map |].
  intros lookup c -> Hin Hdot Hlookup.
  apply in_map_iff in Hin. destruct Hin as (a & Ha & _).
  unfold alias_more in Ha.
  destruct (negb (Py.has_char "."%char a) && Py.contains lookup a) eqn:Htest.
  - subst c. rewrite has_char_fact in Hdot. discriminate.
  - subst c. rewrite Hdot in Htest. apply contains_In in Hlookup.
    rewrite Hlookup in Htest. discriminate.
Qed.

Lemma insertColumnAndAlias_unambiguous_witness :
  exists notes selected,
    insertColumnAndAlias ["id"; "status"; "unit"] "status" "status_id"
                         (Some ["status_id"; "status"; "unit"])
    = (notes, inr selected)
    /\ ~ In "id" ["status_id"; "status"; "unit"].
Proof.
  destruct (insertColumnAndAlias_unambiguous
              ["id"; "status"; "unit"] "status" "status_id"
              (Some ["status_id"; "status"; "unit"]))
    as (notes & selected & Hrun & _ & Hplain).
  exists notes, selected. split; [exact Hrun |].
  apply (Hplain _ "id" eq_refl); [| reflexivity].
  vm_compute in Hrun. injection Hrun as _ <-. list_in.
Defined.

(** ** Thresholds of [are_strings_similar], results of [fixDodgyThing] *)

Section SimilarityThreshold.

Local Open Scope Q_scope.

(** X21. The threshold of [are_strings_similar]: every pair is similar at a
    threshold of zero or less, no pair is at a threshold above one, a pair
    similar at one threshold is similar at every lower one, and a string
    that is not empty is similar to the empty string only at a threshold of
    zero or less. *)
Theorem are_strings_similar_threshold (str1 str2 : string) (threshold lower : Q) :
  (threshold <= 0 -> are_strings_similar str1 str2 threshold = true)
  /\ (1 < threshold -> are_strings_similar str1 str2 threshold = false)
  /\ (lower <= threshold ->
      are_strings_similar str1 str2 threshold = true ->
      are_strings_similar str1 str2 lower = true)
  /\ (str1 <> ""%string ->
      are_strings_similar str1 "" threshold = Qle_bool threshold 0).
Proof.
unfold are_strings_similar. cbv zeta.
destruct (ratio_range (list_ascii_of_string str1) (list_ascii_of_string str2)) as [H0 H1].
split; [| split; [| split]].
- intros Ht. apply Qle_bool_iff. now apply Qle_trans with 0.
- intros Ht. apply not_true_is_false. intros H. apply Qle_bool_iff in H.
  apply (Qlt_irrefl 1). apply Qlt_le_trans with threshold; [exact Ht |].
  now apply Qle_trans with (Difflib.ratio (list_ascii_of_string str1) (list_ascii_of_string str2)).
- intros Hl H. apply Qle_bool_iff. apply Qle_bool_iff in H.
  now apply Qle_trans with threshold.
- intros Hne. apply Qle_bool_Qeq_r.
  unfold Difflib.ratio, Difflib.calculate_ratio. simpl list_ascii_of_string.
  rewrite matches_empty_r.
  destruct (List.length (list_ascii_of_string str1) + List.length (@nil ascii) =? 0)%nat eqn:E.
  + apply Nat.eqb_eq in E. apply list_ascii_nonempty in Hne. simpl in E. lia.
  + reflexivity.
Qed.

Lemma are_strings_similar_threshold_witness :
  are_strings_similar "Enroled" "Enrolled" (1 # 2) = true
  /\ are_strings_similar "Enroled" "" (6 # 10) = false.
Proof.
split.
- apply (proj1 (proj2 (proj2 (are_strings_similar_threshold "Enroled" "Enrolled" (6 # 10) (1 # 2))))).
  + unfold Qle. simpl. lia.
  + vm_compute. reflexivity.
- rewrite (proj2 (proj2 (proj2 (are_strings_similar_threshold "Enroled" "" (6 # 10) 0)))).
  + reflexivity.
  + discriminate.
Defined.

End SimilarityThreshold.

(** X22. The result of [fixDodgyThing] is never empty, and it is never a
    new text: it is the prepared value (the title-cased input, or the
    placeholder) or an entry of the vocabulary that is similar to the
    prepared value, the latter only when the prepared value is not an
    entry itself. *)
Theorem fixDodgyThing_result (value : Py.pyval) (legit_values : legit) :
  let prepared := fixDodgyThing_value value in
  let result := fixDodgyThing value legit_values in
  result <> ""
  /\ (result = prepared
      \/ (In result (vocabulary legit_values)
          /\ ~ In prepared (vocabulary legit_values)
          /\ are_strings_similar prepared result default_threshold = true)).
Proof.
  cbv zeta. pose proof (fixDodgyThing_value_nonempty value) as Hne.
  assert (Hcases :
            fixDodgyThing value legit_values = fixDodgyThing_value value
            \/ (In (fixDodgyThing value legit_values) (vocabulary legit_values)
                /\ ~ In (fixDodgyThing_value value) (vocabulary legit_values)
                /\ are_strings_similar (fixDodgyThing_value value)
                                       (fixDodgyThing value legit_values)
                                       default_threshold = true)).
  { rewrite fixDodgyThing_unfold.
    destruct (negb (Nat.eqb (List.length (vocabulary legit_values)) 0)); cbn [andb];
      [| now left].
    destruct (Py.contains (vocabulary legit_values) (fixDodgyThing_value value)) eqn:Hin;
      cbn [negb]; [now left |].
    apply contains_not_In in Hin.
    destruct (fixDodgyThing_scan_result (fixDodgyThing_value value)
                                        (vocabulary legit_values)) as [H | [H1 H2]];
      [now left | right; auto]. }
  split; [| exact Hcases].
  destruct Hcases as [-> | (_ & _ & Hsim)]; [exact Hne |].
  intros Hempty. rewrite Hempty in Hsim.
  now rewrite (not_similar_to_empty _ Hne) in Hsim.
Qed.

(** ** Column order of [addIndexCol] *)

Lemma insert_at_split (n : nat) (x : string) (l : list string) :
  PyStr.insert_at n x l = (firstn n l ++ x :: skipn n l)%list.
Proof.
  revert l. induction n as [|n IH]; intros [|y l]; simpl; try reflexivity.
  now rewrite IH.
Qed.

Lemma filter_none {A : Type} (f : A -> bool) (l : list A) :
  (forall x, In x l -> f x = false) -> filter f l = [].
Proof.
  induction l as [|x l IH]; intros H; [reflexivity |].
  simpl. rewrite (H x (or_introl eq_refl)). apply IH. intros y Hy. apply H. now right.
Qed.

Lemma filter_all {A : Type} (f : A -> bool) (l : list A) :
  (forall x, In x l -> f x = true) -> filter f l = l.
Proof.
  induction l as [|x l IH]; intros H; [reflexivity |].
  simpl. rewrite (H x (or_introl eq_refl)). f_equal. apply IH. intros y Hy. apply H. now right.
Qed.

(** X23. The columns that [addIndexCol] selects, for column names and an
    index column name that are ASCII text: the columns of the frame other
    than the index column (compared without case) keep their order, and
    the index column is put in once, before the column at [newColPos]
    counted like [list.insert] does (from the end when negative, at the end
    when beyond it); with the default position it comes first.  The names
    selected are ASCII text again. *)
Theorem addIndexCol_columns_order (df_columns : list string) (indexColName : string)
        (newColPos : Z) :
  Forall (fun c => PyStr.isascii c = true) df_columns ->
  PyStr.isascii indexColName = true ->
  let same c := String.eqb (PyStr.upper c) (PyStr.upper indexColName) in
  let others := filter (fun c => negb (same c)) df_columns in
  let k := Z.to_nat (if (newColPos <? 0)%Z
                     then Z.max 0 (newColPos + Z.of_nat (List.length others))
                     else newColPos) in
  let result := addIndexCol_columns df_columns indexColName newColPos in
  result = (firstn k others ++ indexColName :: skipn k others)%list
  /\ filter same result = [indexColName]
  /\ filter (fun c => negb (same c)) result = others
  /\ addIndexCol_columns df_columns indexColName 0 = indexColName :: others
  /\ Forall (fun c => PyStr.isascii c = true) result.
Proof.
  intros Hcolumns Hindex. cbv zeta.
  set (same := fun c => String.eqb (PyStr.upper c) (PyStr.upper indexColName)).
  set (others := filter (fun c => negb (same c)) df_columns).
  set (k := Z.to_nat _).
  assert (Hresult : addIndexCol_columns df_columns indexColName newColPos
                    = (firstn k others ++ indexColName :: skipn k others)%list).
  { change (addIndexCol_columns df_columns indexColName newColPos)
      with (if (Z.of_nat (List.length others) <? newColPos)%Z
            then (others ++ [indexColName])%list
            else PyStr.list_insert newColPos indexColName others).
    destruct (Z.of_nat (List.length others) <? newColPos)%Z eqn:Hpos.
    - apply Z.ltb_lt in Hpos.
      assert (Hk : List.length others <= k).
      { unfold k. destruct (newColPos <? 0)%Z eqn:Hneg; [apply Z.ltb_lt in Hneg |]; lia. }
      rewrite firstn_all2, skipn_all2 by exact Hk. reflexivity.
    - unfold PyStr.list_insert. apply insert_at_split. }
  assert (Hothers : forall x, In x others -> same x = false).
  { intros x Hx. apply filter_In in Hx. destruct Hx as [_ Hx]. now apply negb_true_iff. }
  assert (Hparts : forall x, In x (firstn k others) \/ In x (skipn k others) -> In x others).
  { intros x Hx. rewrite <- (firstn_skipn k others). now apply in_or_app. }
  assert (Hidx : same indexColName = true) by apply String.eqb_refl.
  split; [exact Hresult |]. split; [| split; [| split]].
  - rewrite Hresult, filter_app. cbn [filter]. rewrite Hidx.
    rewrite !filter_none by (intros x Hx; apply Hothers, Hparts; auto).
    reflexivity.
  - rewrite Hresult, filter_app. cbn [filter]. rewrite Hidx. cbn [negb].
    rewrite <- filter_app, firstn_skipn.
    apply filter_all. intros x Hx. now rewrite (Hothers x Hx).
  - change (addIndexCol_columns df_columns indexColName 0)
      with (if (Z.of_nat (List.length others) <? 0)%Z
            then (others ++ [indexColName])%list
            else PyStr.list_insert 0 indexColName others).
    destruct (Z.of_nat (List.length others) <? 0)%Z eqn:Hpos; [apply Z.ltb_lt in Hpos; lia |].
    reflexivity.
  - rewrite Hresult. rewrite Forall_forall in Hcolumns. apply Forall_forall.
    intros x Hx. apply in_app_or in Hx. destruct Hx as [Hx | [<- | Hx]]; [| exact Hindex |].
    + assert (Hin : In x others) by (apply Hparts; now left).
      apply filter_In in Hin. now apply Hcolumns.
    + assert (Hin : In x others) by (apply Hparts; now right).
      apply filter_In in Hin. now apply Hcolumns.
Qed.

Lemma addIndexCol_columns_order_witness :
  addIndexCol_columns ["id"; "INDEXUNIT"; "unit"] "indexunit" 0 = ["indexunit"; "id"; "unit"].
Proof.
  refine (proj1 (proj2 (proj2 (proj2
            (addIndexCol_columns_order ["id"; "INDEXUNIT"; "unit"] "indexunit" 0 _ eq_refl))))).
  repeat constructor.
Defined.

(** ** More on [simpleMap] *)

Lemma bind_inr_inv {A B} (c : M A) (k : A -> M B) (log : list output) (y : B) :
  bind c k = (log, inr y) ->
  exists out1 x out2, c = (out1, inr x) /\ k x = (out2, inr y) /\ log = (out1 ++ out2)%list.
Proof.
  unfold bind. destruct c as [out1 [e | x]]; [discriminate |].
  destruct (k x) as [out2 r] eqn:Hk. intros H. injection H as <- ->.
  now exists out1, x, out2.
Qed.

Lemma lift_inr_inv {A} (r : exn + A) (out : list output) (x : A) :
  lift r = (out, inr x) -> r = inr x /\ out = [].
Proof. unfold lift. intros H. injection H as <- ->. now split. Qed.

(** X24. On every path on which [simpleMap] returns, with any engine and
    any join type, the frame returned has as many rows as the left frame
    given: the left frame itself, or a join that passed the count check. *)
Theorem simpleMap_keeps_row_count {E : Engine} (factDF metadataDF : DataFrame)
        (joinCol joinType : string) (log : list output) (out : DataFrame) :
  simpleMap factDF metadataDF joinCol joinType = (log, inr out) ->
  count out = count factDF.
Proof.
  unfold simpleMap. intros H.
  apply bind_inr_inv in H. destruct H as (o1 & indexCol & o2 & _ & H & _).
  apply bind_inr_inv in H. destruct H as (o3 & theMap & o4 & _ & H & _).
  destruct (Py.contains (columns (alias "fact" factDF)) joinCol); cbn [negb] in H.
  - destruct (Py.contains (columns (alias "fact" factDF)) indexCol); [discriminate |].
    unfold simpleMap_join in H.
    apply bind_inr_inv in H. destruct H as (o5 & selectCols & o6 & _ & H & _).
    apply bind_inr_inv in H. destruct H as (o7 & joined & o8 & _ & H & _).
    apply bind_inr_inv in H. destruct H as (o9 & projected & o10 & _ & H & _).
    destruct (count factDF =? count projected) eqn:Hcount; cbn [negb] in H.
    + injection H as _ <-. symmetry. now apply Nat.eqb_eq.
    + discriminate.
  - destruct (Py.contains (columns (alias "fact" factDF)) indexCol); [| discriminate].
    apply bind_inr_inv in H. destruct H as (o5 & [] & o6 & _ & H & _).
    now injection H as _ <-.
Qed.

Lemma simpleMap_keeps_row_count_witness :
  exists log out,
    @simpleMap list_engine Fixtures.fact Fixtures.statuses "status" "left" = (log, inr out)
    /\ @count list_engine out = 3.
Proof.
  eexists. eexists. split.
  - vm_compute. reflexivity.
  - apply (simpleMap_keeps_row_count (E := list_engine)
             Fixtures.fact Fixtures.statuses "status" "left" []).
    vm_compute. reflexivity.
Defined.

(** X25. [simpleMap] looks at the lookup frame first: a lookup frame
    without columns gives an [IndexError], and an error of the engine on
    selecting the surrogate key and the join column from the lookup frame
    is passed on; both happen with nothing printed and whatever the left
    frame is, also when its join column has already been replaced. *)
Theorem simpleMap_lookup_errors {E : Engine} (factDF metadataDF : DataFrame)
        (joinCol joinType : string) :
  (columns metadataDF = [] ->
   simpleMap factDF metadataDF joinCol joinType
   = ([], inl (Raised IndexError ["list index out of range"])))
  /\ (forall indexCol rest e,
         columns metadataDF = indexCol :: rest ->
         select [indexCol; joinCol] metadataDF = inl e ->
         simpleMap factDF metadataDF joinCol joinType = ([], inl e)).
Proof.
  split.
  - intros H. unfold simpleMap, first_column. now rewrite H.
  - intros indexCol rest e Hc Hs. unfold simpleMap, first_column.
    now rewrite Hc, bind_ret, Hs.
Qed.

Lemma simpleMap_lookup_errors_witness :
  @simpleMap list_engine Fixtures.fact (Fixtures.plain [] []) "status" "left"
  = ([], inl (Raised IndexError ["list index out of range"]))
  /\ @simpleMap list_engine Fixtures.fact_done
               (Fixtures.plain ["status_id"; "name"] []) "status" "left"
     = ([], inl (Raised AnalysisException ["cannot resolve status"])).
Proof.
  split.
  - apply (proj1 (simpleMap_lookup_errors (E := list_engine) _ _ _ _)). reflexivity.
  - apply (proj2 (simpleMap_lookup_errors (E := list_engine) _ _ _ _) "status_id" ["name"]);
      reflexivity.
Defined.

(** ** Reading tables *)

Lemma lstrip_by_head (p : ascii -> bool) (s : string) (c : ascii) (r : string) :
  PyStr.lstrip_by p s = String c r -> p c = false.
Proof.
  induction s as [|x s IH]; simpl; [discriminate |].
  destruct (p x) eqn:Hx; [exact IH |]. intros H. injection H as <- _. exact Hx.
Qed.

Lemma drop_last_single (s : string) (c : ascii) :
  PyStr.drop_last s = String c "" -> exists d, s = String c (String d "").
Proof.
  destruct s as [|a [|b [|e r]]]; simpl; try discriminate.
  intros H. injection H as <-. now exists b.
Qed.

(** X26. The test [qrySql.strip()[:-1] == '\n'] in [sqlQueryDataFrame] is
    never true, because a stripped text does not start with a line break:
    when [printSQL] is set, the text printed is always the query with a
    line break added, also for a query that ends with one. *)
Theorem sqlQueryDataFrame_echo_adds_newline (qrySql : string) :
  sqlQueryDataFrame_echo qrySql = (qrySql ++ newline)%string.
Proof.
  unfold sqlQueryDataFrame_echo.
  destruct (String.eqb_spec (PyStr.drop_last (PyStr.strip qrySql)) newline) as [H | _];
    [| reflexivity].
  apply drop_last_single in H. destruct H as [d H].
  unfold PyStr.strip in H. apply lstrip_by_head in H. discriminate.
Qed.

Lemma string_app_inv_head (x y z : string) : (x ++ y)%string = (x ++ z)%string -> y = z.
Proof. induction x as [|c x IH]; simpl; [tauto |]. intros H. injection H as H. now apply IH. Qed.

Section TableProperties.

Context {S : Session}.

(** X27. [readTable] does not use its columns and its condition: the query
    it builds from them is not passed on, so for every choice of them it
    is [selectTable] without a query on the escaped table name.  The path
    it loads is that of the escaped name, which is the path of the name as
    given (the one [writeTable] and [dropTable] use) exactly when escaping
    does not change the name. *)
Theorem readTable_ignores_query
        (lh_properties : properties) (tableName : string)
        (columns : str_or_list) (condition : string) (now uuid : string)
        (views : list (string * LakeFrame)) :
  readTable lh_properties tableName columns condition now uuid views
  = selectTable lh_properties (escapeName tableName) None now uuid views
  /\ (forall source,
         properties_get lh_properties "source" = Some source ->
         (tablePath lh_properties (escapeName tableName) = tablePath lh_properties tableName
          <-> escapeName tableName = tableName)).
Proof.
  split; [reflexivity |].
  intros source Hsource. unfold tablePath. rewrite Hsource. split.
  - intros H. injection H as H.
    apply string_app_inv_head in H. now injection H.
  - now intros ->.
Qed.

Lemma selectTable_loaded (lh_properties : properties) (tableName path : string)
      (df : LakeFrame) (query : option string) (now uuid : string)
      (views : list (string * LakeFrame)) :
  tablePath lh_properties tableName = inr path ->
  delta_load path = inr df ->
  let view := getTempTableName (Py.PStr tableName) now uuid in
  let sent :=
    match query with
    | Some q => if String.eqb q "" then "SELECT t.* FROM " ++ view ++ " AS t" else q
    | None => "SELECT t.* FROM " ++ view ++ " AS t"
    end%string in
  selectTable lh_properties tableName query now uuid views
  = ((view, df) :: views,
     match spark_sql ((view, df) :: views) sent with
     | inl e => inl (selectTable_handler e)
     | inr result_df => inr result_df
     end).
Proof.
  intros Hpath Hload. cbv zeta. unfold selectTable. rewrite Hpath, Hload.
  rewrite (escapeName_ident_chars (getTempTableName (Py.PStr tableName) now uuid))
    by apply plain_name_ident_chars, getTempTableName_plain_name.
  destruct query as [q|]; [destruct (String.eqb q "") |];
    destruct (spark_sql _ _); reflexivity.
Qed.

(** X28. When the table loads, [selectTable] registers it as a temporary
    view under a name that needs no quoting, and the view stays registered
    whether the query then succeeds or fails.  Without a query (or with an
    empty one) the SQL sent is [SELECT t.* FROM <view> AS t] with that name
    as it was registered; [getColsFromTable] always sends the text of
    [getSQL]. *)
Theorem selectTable_registers_view
        (lh_properties : properties) (tableName path : string) (df : LakeFrame)
        (query : option string) (now uuid : string) (views : list (string * LakeFrame)) :
  tablePath lh_properties tableName = inr path ->
  delta_load path = inr df ->
  let view := getTempTableName (Py.PStr tableName) now uuid in
  let run sent :=
    ((view, df) :: views,
     match spark_sql ((view, df) :: views) sent with
     | inl e => inl (selectTable_handler e)
     | inr result_df => inr result_df
     end) in
  SqlText.plain_name view = true
  /\ fst (selectTable lh_properties tableName query now uuid views) = (view, df) :: views
  /\ (query = None \/ query = Some ""%string ->
      selectTable lh_properties tableName query now uuid views
      = run ("SELECT t.* FROM " ++ view ++ " AS t")%string)
  /\ (forall cols distinct,
         getColsFromTable tableName cols lh_properties distinct now uuid views
         = run (getSQL tableName cols distinct)).
Proof.
  intros Hpath Hload. cbv zeta.
  split; [apply getTempTableName_plain_name |].
  split; [| split].
  - rewrite (selectTable_loaded _ _ _ _ query now uuid views Hpath Hload). reflexivity.
  - intros [-> | ->];
      now rewrite (selectTable_loaded _ _ _ _ _ now uuid views Hpath Hload).
  - intros cols distinct. unfold getColsFromTable.
    rewrite (selectTable_loaded _ _ _ _ _ now uuid views Hpath Hload). cbv zeta.
    unfold getSQL. now destruct distinct.
Qed.


End TableProperties.

Lemma readTable_ignores_query_witness :
  tablePath (S := list_session) [("source", "abfss://lake")] (escapeName "unit codes")
  <> tablePath (S := list_session) [("source", "abfss://lake")] "unit codes".
Proof.
  intros H.
  apply (proj2 (readTable_ignores_query (S := list_session)
                  [("source", "abfss://lake")] "unit codes" (OneStr "*") "" "" "" [])
               "abfss://lake" eq_refl) in H.
  discriminate.
Defined.

Lemma selectTable_registers_view_witness :
  selectTable (S := list_session) [("source", "abfss://lake")] "grades" None
              "20240101_101010" "ab-cd" []
  = ([("grades_20240101_101010_abcd", ListSession.grades)], inr ListSession.grades).
Proof.
  apply (proj1 (proj2 (proj2 (selectTable_registers_view (S := list_session)
           [("source", "abfss://lake")] "grades" "abfss://lake/Tables/grades"
           ListSession.grades None "20240101_101010" "ab-cd" [] eq_refl eq_refl)))).
  now left.
Defined.


(** ** [aliasColumns] *)

Lemma aliasColumns_element_inj (indexCol a b : string) :
  (if String.eqb a indexCol then "map." ++ a else "fact." ++ a)%string
  = (if String.eqb b indexCol then "map." ++ b else "fact." ++ b)%string ->
  a = b.
Proof.
  destruct (String.eqb a indexCol), (String.eqb b indexCol); intros H;
    try discriminate; now injection H.
Qed.

(** X30. [aliasColumns] gives every column a qualifier, [map.] for the
    index column and [fact.] for any other, in the same order; two
    different columns never get the same qualified name, so a list without
    repetition stays without repetition, and [alias_more] has nothing left
    to qualify. *)
Theorem aliasColumns_qualifies (selectCols : list string) (indexCol : string) :
  List.length (aliasColumns selectCols indexCol) = List.length selectCols
  /\ Forall (fun c => Py.has_char "."%char c = true) (aliasColumns selectCols indexCol)
  /\ (NoDup selectCols -> NoDup (aliasColumns selectCols indexCol))
  /\ forall mapColumns,
       map (alias_more mapColumns) (aliasColumns selectCols indexCol)
       = aliasColumns selectCols indexCol.
Proof.
  assert (Hall : Forall (fun c => Py.has_char "."%char c = true)
                        (aliasColumns selectCols indexCol)).
  { unfold aliasColumns. apply Forall_map, Forall_forall. intros c _.
    destruct (String.eqb c indexCol); [apply has_char_map | apply has_char_fact]. }
  split; [apply length_map |]. split; [exact Hall |]. split.
  - clear Hall. unfold aliasColumns.
    induction 1 as [|c l Hc _ IH]; cbn [map]; constructor; [| exact IH].
    intros Hin. apply in_map_iff in Hin. destruct Hin as (d & Hd & Hin).
    apply aliasColumns_element_inj in Hd. now subst d.
  - intros mapColumns. induction Hall as [|c l Hc _ IH]; [reflexivity |].
    cbn [map]. now rewrite (alias_more_qualified _ _ Hc), IH.
Qed.

Lemma aliasColumns_qualifies_witness :
  NoDup (aliasColumns ["id"; "status_id"; "unit"] "status_id").
Proof.
  apply (proj1 (proj2 (proj2 (aliasColumns_qualifies ["id"; "status_id"; "unit"] "status_id")))).
  repeat constructor; list_not_in.
Defined.
